(** * Content Hub API: entity store, visibility managers, slug allocator,
      view counter, cache invalidation and comment threading.

    A shallow embedding of [core/models.py], [apps/content/models.py],
    [apps/content/signals.py] and [apps/content/serializers.py].

    Conventions of the embedding:
    - Python [str] is [string]; Python [int] is [Z] (loop counters that only
      count up from 1 are [nat]); [None] is the [None] of an [option].
    - a database table is the list of its rows, in storage order; a row and
      an in-memory model instance have the same type, and the two are kept
      apart by explicit state passing (the table goes in, the table comes
      out);
    - [timezone.now()] is an explicit argument [now];
    - a raised exception is the [Raise] case of [result]. *)

From Stdlib Require Import ZArith List String Ascii Lia Permutation FinFun.
From stdpp Require Import base decidable option list strings pretty sorting gmap.

Local Open Scope string_scope.
Local Open Scope list_scope.
Local Open Scope Z_scope.

(** ** Exceptions and results *)

Inductive exn : Type :=
| ValidationError (msg : string)
| DoesNotExist
| DatabaseError (msg : string)
| ValueError (msg : string)
| CacheError.

Inductive result (A : Type) : Type :=
| Ok (a : A)
| Raise (e : exn).
Arguments Ok {A} a.
Arguments Raise {A} e.

#[global] Instance result_bind : MBind result := fun A B k r =>
  match r with
  | Ok a => k a
  | Raise e => Raise e
  end.

(** ** The cache collaborator ([django.core.cache.cache])

    A key-value store; [available = false] is a backend that cannot be
    reached, on which every operation raises.  The values are the pickled
    objects the views put there; the operations below never look at them. *)

Record Cache : Type := mkCache {
  entries : gmap string string;
  available : bool
}.

(** [cache.delete(key)]. *)
Definition cache_delete (key : string) (c : Cache) : result Cache :=
  if available c
  then Ok (mkCache (delete key (entries c)) (available c))
  else Raise CacheError.

(** [for key in cache_keys: cache.delete(key)]. *)
Fixpoint delete_keys (cache_keys : list string) (c : Cache) : result Cache :=
  match cache_keys with
  | [] => Ok c
  | key :: rest => c' ← cache_delete key c; delete_keys rest c'
  end.

(** ** core/models.py: the abstract base models *)

Record User : Type := mkUser {
  user_id : Z;
  username : string
}.

(** [TimeStampedModel] and [SoftDeleteModel] are mixed into every concrete
    model; [Model F] is a row with the mixins' columns and the concrete
    model's own columns [F].  An instance that was never saved has
    [pk = None]. *)
Record Model (F : Type) : Type := mkModel {
  pk : option Z;
  created_at : Z;
  updated_at : Z;
  is_deleted : bool;
  deleted_at : option Z;
  fields : F
}.
Arguments mkModel {F} _ _ _ _ _ _.
Arguments pk {F} _.
Arguments created_at {F} _.
Arguments updated_at {F} _.
Arguments is_deleted {F} _.
Arguments deleted_at {F} _.
Arguments fields {F} _.

Section BaseModel.
Context {F : Type}.

Definition set_pk (v : option Z) (m : Model F) : Model F :=
  mkModel v (created_at m) (updated_at m) (is_deleted m) (deleted_at m) (fields m).
Definition set_created_at (v : Z) (m : Model F) : Model F :=
  mkModel (pk m) v (updated_at m) (is_deleted m) (deleted_at m) (fields m).
Definition set_updated_at (v : Z) (m : Model F) : Model F :=
  mkModel (pk m) (created_at m) v (is_deleted m) (deleted_at m) (fields m).
Definition set_is_deleted (v : bool) (m : Model F) : Model F :=
  mkModel (pk m) (created_at m) (updated_at m) v (deleted_at m) (fields m).
Definition set_deleted_at (v : option Z) (m : Model F) : Model F :=
  mkModel (pk m) (created_at m) (updated_at m) (is_deleted m) v (fields m).
Definition set_fields (v : F) (m : Model F) : Model F :=
  mkModel (pk m) (created_at m) (updated_at m) (is_deleted m) (deleted_at m) v.

(** The columns that the repository names in an [update_fields] list. *)
Inductive column : Type :=
| col_updated_at
| col_is_deleted
| col_deleted_at.

Definition column_eqb (c d : column) : bool :=
  match c, d with
  | col_updated_at, col_updated_at
  | col_is_deleted, col_is_deleted
  | col_deleted_at, col_deleted_at => true
  | _, _ => false
  end.

Definition has_column (c : column) (cols : list column) : bool :=
  existsb (column_eqb c) cols.

(** Copy one column of the instance [self] into the stored [row]. *)
Definition write_column (self : Model F) (row : Model F) (c : column) : Model F :=
  match c with
  | col_updated_at => set_updated_at (updated_at self) row
  | col_is_deleted => set_is_deleted (is_deleted self) row
  | col_deleted_at => set_deleted_at (deleted_at self) row
  end.

Definition write_columns (self : Model F) (cols : list column) (row : Model F) : Model F :=
  fold_left (write_column self) cols row.

Definition has_pk (id : Z) (row : Model F) : bool :=
  match pk row with
  | Some j => Z.eqb j id
  | None => false
  end.

(** [Model.objects.get(pk=id)], as [None] when no row matches. *)
Definition get_pk (id : Z) (tbl : list (Model F)) : option (Model F) :=
  List.find (has_pk id) tbl.

(** [Model.objects.filter(pk=id).update(...)], that is
    [UPDATE ... WHERE pk = id]: every matching row is rewritten by [f]. *)
Definition update_pk (id : Z) (f : Model F -> Model F) (tbl : list (Model F))
  : list (Model F) :=
  List.map (fun row => if has_pk id row then f row else row) tbl.

(** The key an auto-increment column gives the next inserted row. *)
Definition next_pk (tbl : list (Model F)) : Z :=
  1 + fold_right (fun row acc => match pk row with
                                 | Some j => Z.max j acc
                                 | None => acc
                                 end) 0 tbl.

(** What a call leaves behind: the instance as the caller now holds it, the
    table, the cache, and the exception the call raised, if any. *)
Record Outcome : Type := mkOutcome {
  out_self : Model F;
  out_table : list (Model F);
  out_cache : Cache;
  out_exn : option exn
}.

(** [post_save.send(sender, instance)]: the connected receiver runs after
    the row is written; [Signal.send] lets a receiver's exception through. *)
Definition send_post_save (receiver : Model F -> Cache -> result Cache)
    (self : Model F) (tbl : list (Model F)) (c : Cache) : Outcome :=
  match receiver self c with
  | Ok c' => mkOutcome self tbl c' None
  | Raise e => mkOutcome self tbl c (Some e)
  end.

(** [django.db.models.Model.save(update_fields=...)], the part of it the
    repository relies on.

    - With an empty [update_fields] list the call returns at once: nothing
      is written and no signal is sent.
    - With an [update_fields] list, only the listed columns are written,
      by an UPDATE of the row with the instance's key; the [auto_now]
      column [updated_at] is stamped only when it is in the list.  The
      call raises when the instance has no key or no row was updated.
    - Without one, [updated_at] is stamped with [now]; an instance whose
      key names a stored row replaces that row, and any other instance is
      inserted, with [created_at] stamped ([auto_now_add]) and a key
      assigned when it has none.
    - After the write, [post_save] is sent to [receiver]. *)
Definition Model_save (receiver : Model F -> Cache -> result Cache)
    (now : Z) (update_fields : option (list column))
    (self : Model F) (tbl : list (Model F)) (c : Cache) : Outcome :=
  match update_fields with
  | Some [] => mkOutcome self tbl c None
  | Some cols =>
      match pk self with
      | None =>
          mkOutcome self tbl c
            (Some (ValueError "Cannot force an update in save() with no primary key."))
      | Some id =>
          let self' := if has_column col_updated_at cols
                       then set_updated_at now self else self in
          match get_pk id tbl with
          | None =>
              mkOutcome self' tbl c
                (Some (DatabaseError "Save with update_fields did not affect any rows."))
          | Some _ =>
              send_post_save receiver self' (update_pk id (write_columns self' cols) tbl) c
          end
      end
  | None =>
      let stamped := set_updated_at now self in
      match pk self with
      | Some id =>
          match get_pk id tbl with
          | Some _ =>
              send_post_save receiver stamped (update_pk id (fun _ => stamped) tbl) c
          | None =>
              let ins := set_created_at now stamped in
              send_post_save receiver ins (tbl ++ [ins]) c
          end
      | None =>
          let ins := set_pk (Some (next_pk tbl)) (set_created_at now stamped) in
          send_post_save receiver ins (tbl ++ [ins]) c
      end
  end.

(** The [save] method of a concrete model, as [soft_delete] and [restore]
    find it through [self]: a subclass that overrides [save] is called
    through its override. *)
Definition save_method : Type :=
  Z -> option (list column) -> Model F -> list (Model F) -> Cache -> Outcome.

(** [SoftDeleteModel.soft_delete]. *)
Definition soft_delete (save : save_method) (now : Z)
    (self : Model F) (tbl : list (Model F)) (c : Cache) : Outcome :=
  let self1 := set_is_deleted true self in
  let self2 := set_deleted_at (Some now) self1 in
  save now (Some [col_is_deleted; col_deleted_at]) self2 tbl c.

(** [SoftDeleteModel.restore]. *)
Definition restore (save : save_method) (now : Z)
    (self : Model F) (tbl : list (Model F)) (c : Cache) : Outcome :=
  let self1 := set_is_deleted false self in
  let self2 := set_deleted_at None self1 in
  save now (Some [col_is_deleted; col_deleted_at]) self2 tbl c.

(** [models.Manager().get_queryset()]: the default manager, every row. *)
Definition Manager_get_queryset (tbl : list (Model F)) : list (Model F) := tbl.

(** [ActiveObjectsManager.get_queryset]. *)
Definition ActiveObjectsManager_get_queryset (tbl : list (Model F)) : list (Model F) :=
  List.filter (fun row => Bool.eqb (is_deleted row) false) (Manager_get_queryset tbl).
End BaseModel.

Arguments Outcome F : clear implicits.
Arguments mkOutcome {F} _ _ _ _.
Arguments out_self {F} _.
Arguments out_table {F} _.
Arguments out_cache {F} _.
Arguments out_exn {F} _.
Arguments save_method F : clear implicits.

(** ** Python string helpers *)

(** [s[:n]]. *)
Fixpoint slice_to (n : nat) (s : string) : string :=
  match n, s with
  | S n', String ch rest => String ch (slice_to n' rest)
  | _, _ => EmptyString
  end.

(** [not s], the truth value of a string. *)
Definition str_empty (s : string) : bool :=
  match s with
  | EmptyString => true
  | String _ _ => false
  end.

Definition is_upper (ch : ascii) : bool :=
  (Nat.leb 65 (nat_of_ascii ch) && Nat.leb (nat_of_ascii ch) 90)%nat.

Definition is_lower (ch : ascii) : bool :=
  (Nat.leb 97 (nat_of_ascii ch) && Nat.leb (nat_of_ascii ch) 122)%nat.

Definition is_digit (ch : ascii) : bool :=
  (Nat.leb 48 (nat_of_ascii ch) && Nat.leb (nat_of_ascii ch) 57)%nat.

Definition lower_char (ch : ascii) : ascii :=
  if is_upper ch then ascii_of_nat (nat_of_ascii ch + 32) else ch.

(** [s.lower()], on ASCII letters. *)
Fixpoint lower (s : string) : string :=
  match s with
  | EmptyString => EmptyString
  | String ch rest => String (lower_char ch) (lower rest)
  end.

(** ** apps/content/models.py: Article *)

Record ArticleFields : Type := mkArticleFields {
  title : string;
  slug : string;
  content : string;
  excerpt : string;
  author : User;
  is_published : bool;
  views_count : Z;
  tags : string
}.

Abbreviation Article := (Model ArticleFields).

Definition set_slug (v : string) (a : Article) : Article :=
  let f := fields a in
  set_fields (mkArticleFields (title f) v (content f) (excerpt f) (author f)
                (is_published f) (views_count f) (tags f)) a.

Definition set_excerpt (v : string) (a : Article) : Article :=
  let f := fields a in
  set_fields (mkArticleFields (title f) (slug f) (content f) v (author f)
                (is_published f) (views_count f) (tags f)) a.

Definition set_views_count (v : Z) (a : Article) : Article :=
  let f := fields a in
  set_fields (mkArticleFields (title f) (slug f) (content f) (excerpt f) (author f)
                (is_published f) v (tags f)) a.

(** [PublishedArticleManager.get_queryset]. *)
Definition PublishedArticleManager_get_queryset (tbl : list Article) : list Article :=
  List.filter (fun row => Bool.eqb (is_published (fields row)) true
                          && Bool.eqb (is_deleted row) false)
              (Manager_get_queryset tbl).

(** The three managers of [Article]. *)
Definition Article_objects (tbl : list Article) : list Article :=
  Manager_get_queryset tbl.
Definition Article_active_objects (tbl : list Article) : list Article :=
  ActiveObjectsManager_get_queryset tbl.
Definition Article_published (tbl : list Article) : list Article :=
  PublishedArticleManager_get_queryset tbl.

(** [Article.objects.filter(slug=slug).exists()]: the default manager, so
    soft-deleted rows count. *)
Definition slug_exists (tbl : list Article) (s : string) : bool :=
  existsb (fun row => String.eqb (slug (fields row)) s) (Article_objects tbl).

(** [f"{base_slug}-{counter}"]. *)
Definition suffixed (base_slug : string) (counter : nat) : string :=
  base_slug +:+ "-" +:+ pretty counter.

(** The [while] loop of [_generate_unique_slug], from the state
    [(slug, counter)]; [fuel] bounds the number of tests of the loop
    condition, and [None] is a loop still running when it is used up. *)
Fixpoint probe_slug (fuel : nat) (tbl : list Article) (base_slug slug0 : string)
    (counter : nat) : option string :=
  match fuel with
  | O => None
  | S fuel' =>
      if slug_exists tbl slug0
      then probe_slug fuel' tbl base_slug (suffixed base_slug counter) (S counter)
      else Some slug0
  end.

(** [invalidate_article_cache] of apps/content/signals.py. *)
Definition invalidate_article_cache (instance : Article) (c : Cache) : result Cache :=
  let id := match pk instance with
            | Some i => pretty i
            | None => "None"
            end in
  let cache_keys := [ "article:" +:+ id;
                      "article:slug:" +:+ slug (fields instance);
                      "articles:list:*" ] in
  delete_keys cache_keys c.

Section Slug.
(** [django.utils.text.slugify], a function of the framework. *)
Variable slugify : string -> string.

(** [Article._generate_unique_slug].  The loop tests its condition at most
    [length tbl + 1] times (lemma [probe_slug_enough]), so the fuel given
    here is never used up and the last branch is never taken. *)
Definition _generate_unique_slug (self : Article) (tbl : list Article) : string :=
  let base_slug := slugify (title (fields self)) in
  match probe_slug (S (length tbl)) tbl base_slug base_slug 1 with
  | Some s => s
  | None => base_slug
  end.

(** [Article.save]. *)
Definition Article_save : save_method ArticleFields :=
  fun now update_fields self tbl c =>
  let self1 := if str_empty (slug (fields self))
               then set_slug (_generate_unique_slug self tbl) self
               else self in
  let self2 :=
    if str_empty (excerpt (fields self1)) && negb (str_empty (content (fields self1)))
    then set_excerpt
           (if Nat.ltb 200 (String.length (content (fields self1)))
            then slice_to 200 (content (fields self1)) +:+ "..."
            else content (fields self1))
           self1
    else self1 in
  Model_save invalidate_article_cache now update_fields self2 tbl c.
End Slug.

(** [Article.increment_views].  The UPDATE adds one to the stored column of
    every row with the instance's key, without reading the instance;
    [refresh_from_db] then reloads [views_count] from the stored row and
    raises [DoesNotExist] when there is none. *)
Definition update_views (self : Article) (tbl : list Article) : list Article :=
  match pk self with
  | Some id => update_pk id (fun row => set_views_count (views_count (fields row) + 1) row) tbl
  | None => tbl
  end.

Definition refresh_views (self : Article) (tbl : list Article) : result Article :=
  match pk self with
  | Some id =>
      match get_pk id tbl with
      | Some row => Ok (set_views_count (views_count (fields row)) self)
      | None => Raise DoesNotExist
      end
  | None => Raise DoesNotExist
  end.

Definition increment_views (self : Article) (tbl : list Article)
  : list Article * result Article :=
  let tbl' := update_views self tbl in
  (tbl', refresh_views self tbl').

(** ** Concurrent requests calling [increment_views]

    Each request holds its own in-memory instance and runs the two
    statements of [increment_views] in order; the storage engine executes
    each statement as one step, and a schedule says which request moves
    next.  A request that has returned ignores further turns. *)

Inductive progress : Type :=
| AtUpdate
| AtRefresh
| Returned (e : option exn).

Record Request : Type := mkRequest {
  req_at : progress;
  req_self : Article
}.

Definition start_request (self : Article) : Request := mkRequest AtUpdate self.

Definition step_request (r : Request) (tbl : list Article) : Request * list Article :=
  match req_at r with
  | AtUpdate => (mkRequest AtRefresh (req_self r), update_views (req_self r) tbl)
  | AtRefresh =>
      match refresh_views (req_self r) tbl with
      | Ok self' => (mkRequest (Returned None) self', tbl)
      | Raise e => (mkRequest (Returned (Some e)) (req_self r), tbl)
      end
  | Returned _ => (r, tbl)
  end.

(** Let request number [i] take its next step. *)
Fixpoint step_at (i : nat) (reqs : list Request) (tbl : list Article)
  : list Request * list Article :=
  match reqs with
  | [] => ([], tbl)
  | r :: rest =>
      match i with
      | O => let '(r', tbl') := step_request r tbl in (r' :: rest, tbl')
      | S i' => let '(rest', tbl') := step_at i' rest tbl in (r :: rest', tbl')
      end
  end.

Fixpoint run_schedule (schedule : list nat) (reqs : list Request) (tbl : list Article)
  : list Request * list Article :=
  match schedule with
  | [] => (reqs, tbl)
  | i :: later => let '(reqs', tbl') := step_at i reqs tbl in run_schedule later reqs' tbl'
  end.

Definition has_returned (r : Request) : bool :=
  match req_at r with
  | Returned _ => true
  | _ => false
  end.

Definition all_returned (reqs : list Request) : bool := forallb has_returned reqs.

(** The value of [views_count] stored for key [id]. *)
Definition stored_views (id : Z) (tbl : list Article) : option Z :=
  match get_pk id tbl with
  | Some row => Some (views_count (fields row))
  | None => None
  end.

(** ** apps/content/models.py: Comment *)

Record CommentFields : Type := mkCommentFields {
  article : Z;
  comment_content : string;
  comment_author : User;
  parent : option Z
}.

Abbreviation Comment := (Model CommentFields).

(** [Comment.is_reply]. *)
Definition is_reply (self : Comment) : bool :=
  match parent (fields self) with
  | Some _ => true
  | None => false
  end.

(** [invalidate_comment_cache] of apps/content/signals.py. *)
Definition invalidate_comment_cache (instance : Comment) (c : Cache) : result Cache :=
  let id := match pk instance with
            | Some i => pretty i
            | None => "None"
            end in
  let cache_keys := [ "comment:" +:+ id;
                      "article:" +:+ pretty (article (fields instance)) +:+ ":comments" ] in
  delete_keys cache_keys c.

(** [Comment] does not override [save]. *)
Definition Comment_save : save_method CommentFields :=
  Model_save invalidate_comment_cache.

(** ** apps/content/serializers.py *)

(** What [CommentListSerializer] renders of a comment. *)
Record CommentListData : Type := mkCommentListData {
  data_id : option Z;
  data_content : string;
  data_author : string;
  data_created_at : Z
}.

Definition CommentListSerializer_data (row : Comment) : CommentListData :=
  mkCommentListData (pk row) (comment_content (fields row))
    (username (comment_author (fields row))) (created_at row).

(** [Meta.ordering = ['-created_at']]. *)
Definition newer_first (a b : Comment) : Prop := created_at b <= created_at a.

#[global] Instance newer_first_dec (a b : Comment) : Decision (newer_first a b).
Proof. unfold newer_first. apply _. Defined.

Definition is_child_of (id : Z) (row : Comment) : bool :=
  match parent (fields row) with
  | Some p => Z.eqb p id
  | None => false
  end.

(** [obj.replies.filter(is_deleted=False).select_related('author')[:5]]:
    the reverse relation goes through the default manager of [Comment],
    which does not filter. *)
Definition replies_queryset (id : Z) (tbl : list Comment) : list Comment :=
  take 5 (merge_sort newer_first
            (List.filter (fun row => Bool.eqb (is_deleted row) false)
               (List.filter (is_child_of id) (Manager_get_queryset tbl)))).

(** [CommentSerializer.get_replies].  The reverse relation of an instance
    without a key cannot be used. *)
Definition get_replies (obj : Comment) (tbl : list Comment) : result (list CommentListData) :=
  if is_reply obj then Ok []
  else match pk obj with
       | Some id => Ok (List.map CommentListSerializer_data (replies_queryset id tbl))
       | None => Raise (ValueError "instance needs to have a primary key value")
       end.

(** A value of the request payload as [initial_data] holds it. *)
Inductive PyValue : Type :=
| PyInt (n : Z)
| PyStr (s : string).

(** [str(v)] for [v = initial_data.get(key)]. *)
Definition py_str (v : option PyValue) : string :=
  match v with
  | Some (PyInt n) => pretty n
  | Some (PyStr s) => s
  | None => "None"
  end.

Definition parent_error : exn :=
  ValidationError "Parent comment must belong to the same article.".

(** [CommentSerializer.validate_parent]; [initial_article] is
    [self.initial_data.get('article')]. *)
Definition validate_parent (initial_article : option PyValue) (value : option Comment)
  : result (option Comment) :=
  match value with
  | Some p =>
      if negb (String.eqb (pretty (article (fields p))) (py_str initial_article))
      then Raise parent_error
      else Ok value
  | None => Ok value
  end.

(** The write paths of [CommentViewSet], as the framework's mixins run
    them: the serializer validates first, and [save] is reached only when
    validation passed. *)
Definition create_comment (now : Z) (user : User) (initial_article : option PyValue)
    (article_id : Z) (text : string) (value : option Comment)
    (tbl : list Comment) (c : Cache) : list Comment * Cache * option exn :=
  match validate_parent initial_article value with
  | Raise e => (tbl, c, Some e)
  | Ok p =>
      let self := mkModel None 0 0 false None
                    (mkCommentFields article_id text user (p ≫= pk)) in
      let o := Comment_save now None self tbl c in
      (out_table o, out_cache o, out_exn o)
  end.

(** A partial update that sends [parent] (and possibly [article]). *)
Definition partial_update_parent (now : Z) (instance : Comment)
    (initial_article : option PyValue) (value : option Comment)
    (tbl : list Comment) (c : Cache) : list Comment * Cache * option exn :=
  match validate_parent initial_article value with
  | Raise e => (tbl, c, Some e)
  | Ok p =>
      let f := fields instance in
      let self := set_fields (mkCommentFields (article f) (comment_content f)
                                (comment_author f) (p ≫= pk)) instance in
      let o := Comment_save now None self tbl c in
      (out_table o, out_cache o, out_exn o)
  end.

Definition short_title_error : exn :=
  ValidationError "Title must be at least 3 characters long.".

Definition duplicate_title_error : exn :=
  ValidationError "An article with this title already exists.".

(** [title__iexact=value]. *)
Definition iexact (a b : string) : bool := String.eqb (lower a) (lower b).

(** [qs.exclude(pk=instance.pk)]. *)
Definition exclude_pk (key : option Z) (qs : list Article) : list Article :=
  match key with
  | Some id => List.filter (fun row => negb (has_pk id row)) qs
  | None => qs
  end.

Definition exists_ (qs : list Article) : bool :=
  match qs with
  | [] => false
  | _ :: _ => true
  end.

(** [ArticleCreateUpdateSerializer.validate_title]; [instance] is
    [self.instance], [None] on create. *)
Definition validate_title (value : string) (instance : option Article)
    (tbl : list Article) : result string :=
  if Nat.ltb (String.length value) 3 then Raise short_title_error
  else
    let qs := List.filter (fun row => iexact (title (fields row)) value
                                      && Bool.eqb (is_deleted row) false)
                (Article_objects tbl) in
    let qs := match instance with
              | Some i => exclude_pk (pk i) qs
              | None => qs
              end in
    if exists_ qs then Raise duplicate_title_error else Ok value.

(** ** The framework's [slugify] on ASCII text

    [django.utils.text.slugify(value)] with [allow_unicode=False]:
    {[
      value = unicodedata.normalize("NFKD", value).encode("ascii", "ignore").decode("ascii")
      value = re.sub(r"[^\w\s-]", "", value.lower())
      return re.sub(r"[-\s]+", "-", value).strip("-_")
    ]}
    On ASCII text the first line changes nothing; a character outside ASCII
    is dropped here, which is what the first line does to one that has no
    ASCII decomposition. *)

Definition is_ascii (ch : ascii) : bool := Nat.ltb (nat_of_ascii ch) 128.

(** [\s] *)
Definition is_space (ch : ascii) : bool :=
  let n := nat_of_ascii ch in
  (Nat.leb 9 n && Nat.leb n 13) || (Nat.leb 28 n && Nat.leb n 32).

Definition is_hyphen (ch : ascii) : bool := Ascii.eqb ch "-".

Definition is_underscore (ch : ascii) : bool := Ascii.eqb ch "_".

(** [\w], on ASCII *)
Definition is_word (ch : ascii) : bool :=
  is_lower ch || is_upper ch || is_digit ch || is_underscore ch.

Fixpoint keep_chars (keep : ascii -> bool) (s : string) : string :=
  match s with
  | EmptyString => EmptyString
  | String ch rest =>
      if keep ch then String ch (keep_chars keep rest) else keep_chars keep rest
  end.

(** [re.sub(r"[-\s]+", "-", s)]; [in_run] says that the previous character
    was part of the run being replaced. *)
Fixpoint collapse_runs (in_run : bool) (s : string) : string :=
  match s with
  | EmptyString => EmptyString
  | String ch rest =>
      if is_hyphen ch || is_space ch
      then if in_run then collapse_runs true rest
           else String "-" (collapse_runs true rest)
      else String ch (collapse_runs false rest)
  end.

Definition is_stripped (ch : ascii) : bool := is_hyphen ch || is_underscore ch.

Fixpoint lstrip (s : string) : string :=
  match s with
  | EmptyString => EmptyString
  | String ch rest => if is_stripped ch then lstrip rest else s
  end.

Fixpoint rstrip (s : string) : string :=
  match s with
  | EmptyString => EmptyString
  | String ch rest =>
      let r := rstrip rest in
      if is_stripped ch && str_empty r then EmptyString else String ch r
  end.

Definition django_slugify (value : string) : string :=
  let value := keep_chars is_ascii value in
  let value := keep_chars (fun ch => is_word ch || is_space ch || is_hyphen ch)
                 (lower value) in
  rstrip (lstrip (collapse_runs false value)).

(** A row as a test fixture: an article with a given key, title and slug. *)
Definition article_fixture (id : Z) (t s : string) (published deleted : bool) : Article :=
  mkModel (Some id) 0 0 deleted (if deleted then Some 0 else None)
    (mkArticleFields t s "Some content of the article." "An excerpt." (mkUser 1 "alice")
       published 0 "").

(** An article that was never saved. *)
Definition new_article (t body : string) : Article :=
  mkModel None 0 0 false None
    (mkArticleFields t "" body "" (mkUser 1 "alice") true 0 "").

Definition live_cache : Cache := mkCache ∅ true.
Definition dead_cache : Cache := mkCache ∅ false.

Definition comment_fixture (id art : Z) (p : option Z) (at_ : Z) (deleted : bool) : Comment :=
  mkModel (Some id) at_ at_ deleted (if deleted then Some at_ else None)
    (mkCommentFields art "text" (mkUser 1 "alice") p).

(** ** Notions used in the statements *)

(** The slugs the loop tries, in order: the base slug, then the base slug
    with the suffixes 1, 2, ... *)
Definition candidate (base_slug : string) (k : nat) : string :=
  match k with
  | O => base_slug
  | S _ => suffixed base_slug k
  end.

Definition slugs (tbl : list Article) : list string :=
  List.map (fun row => slug (fields row)) tbl.

(** A receiver that deletes at least one key: it succeeds on a cache that
    can be reached and raises [CacheError] on one that cannot. *)
Definition deleting_receiver {F : Type} (receiver : Model F -> Cache -> result Cache) : Prop :=
  (forall self c, available c = true ->
     exists c', receiver self c = Ok c' /\ available c' = true)
  /\ (forall self c, available c = false -> receiver self c = Raise CacheError).

(** The first two statements of [Article.save]: the defaults it gives to
    [slug] and [excerpt] before it calls the base [save]. *)
Definition Article_defaults (slugify : string -> string) (self : Article)
    (tbl : list Article) : Article :=
  let self1 := if str_empty (slug (fields self))
               then set_slug (_generate_unique_slug slugify self tbl) self
               else self in
  if str_empty (excerpt (fields self1)) && negb (str_empty (content (fields self1)))
  then set_excerpt
         (if Nat.ltb 200 (String.length (content (fields self1)))
          then slice_to 200 (content (fields self1)) +:+ "..."
          else content (fields self1))
         self1
  else self1.

(** [all(keep(ch) for ch in s)] *)
Fixpoint all_chars (keep : ascii -> bool) (s : string) : bool :=
  match s with
  | EmptyString => true
  | String ch rest => keep ch && all_chars keep rest
  end.

(** [value] after the first two lines of [slugify]: the ASCII characters
    of [value], in lower case, without those that [[^\w\s-]] matches. *)
Definition slugify_kept (value : string) : string :=
  keep_chars (fun ch => is_word ch || is_space ch || is_hyphen ch)
    (lower (keep_chars is_ascii value)).

(** A normalizer that is the framework's [slugify] on ASCII text.  The
    framework's function is this one there; on other text it first
    decomposes the characters, which [django_slugify] leaves out. *)
Definition slugify_on_ascii (slugify : string -> string) : Prop :=
  forall t, all_chars is_ascii t = true -> slugify t = django_slugify t.

(** The characters that [[^\w\s-]] matches, on ASCII. *)
Definition is_punctuation (ch : ascii) : bool :=
  is_ascii ch && negb (is_word ch || is_space ch || is_hyphen ch).

(** The characters of a run that [[-\s]+] matches. *)
Definition is_separator (ch : ascii) : bool := is_hyphen ch || is_space ch.

(** The shape of a slug: lower-case letters, digits, underscores and
    hyphens only, no two hyphens in a row, neither a hyphen nor an
    underscore at either end. *)
Definition is_slug_char (ch : ascii) : bool :=
  is_lower ch || is_digit ch || is_underscore ch || is_hyphen ch.

Definition starts_hyphen (s : string) : bool :=
  match s with
  | EmptyString => false
  | String ch _ => is_hyphen ch
  end.

Fixpoint no_hyphen_run (s : string) : bool :=
  match s with
  | EmptyString => true
  | String ch rest => negb (is_hyphen ch && starts_hyphen rest) && no_hyphen_run rest
  end.

Definition first_char (s : string) : option ascii :=
  match s with
  | EmptyString => None
  | String ch _ => Some ch
  end.

Fixpoint last_char (s : string) : option ascii :=
  match s with
  | EmptyString => None
  | String ch rest => if str_empty rest then Some ch else last_char rest
  end.

Definition is_edge (edge : option ascii) : bool :=
  match edge with
  | None => true
  | Some ch => negb (is_hyphen ch || is_underscore ch)
  end.

Definition normal_slug (s : string) : bool :=
  all_chars is_slug_char s && no_hyphen_run s
  && is_edge (first_char s) && is_edge (last_char s).

(** The normalization in the words of the specification of the slug
    allocator: lower case, every run of characters that are neither letters
    nor digits replaced by one hyphen, the hyphens at either end removed.
    It is compared with [django_slugify] below. *)
Fixpoint hyphenate_runs (in_run : bool) (s : string) : string :=
  match s with
  | EmptyString => EmptyString
  | String ch rest =>
      if is_lower ch || is_upper ch || is_digit ch
      then String ch (hyphenate_runs false rest)
      else if in_run then hyphenate_runs true rest
           else String "-" (hyphenate_runs true rest)
  end.

Fixpoint trim_left (s : string) : string :=
  match s with
  | EmptyString => EmptyString
  | String ch rest => if is_hyphen ch then trim_left rest else s
  end.

Fixpoint trim_right (s : string) : string :=
  match s with
  | EmptyString => EmptyString
  | String ch rest =>
      let r := trim_right rest in
      if is_hyphen ch && str_empty r then EmptyString else String ch r
  end.

Definition specified_base_slug (t : string) : string :=
  trim_right (trim_left (hyphenate_runs false (lower t))).

(** The cache [c], reachable. *)
Definition reachable (c : Cache) : Cache := mkCache (entries c) true.

(** The two writes of the soft-delete mixin, as functions of a row. *)
Definition clear_deleted {F : Type} (row : Model F) : Model F :=
  set_deleted_at None (set_is_deleted false row).

Definition mark_deleted {F : Type} (now : Z) (row : Model F) : Model F :=
  set_deleted_at (Some now) (set_is_deleted true row).

(** Two instances with the same mixin columns. *)
Definition same_mixins {F : Type} (a b : Model F) : Prop :=
  pk a = pk b /\ created_at a = created_at b /\ updated_at a = updated_at b
  /\ is_deleted a = is_deleted b /\ deleted_at a = deleted_at b.

(** A [save] override that fills in defaults and calls the base [save]. *)
Definition overridden_save {F : Type} (receiver : Model F -> Cache -> result Cache)
    (defaults : Model F -> list (Model F) -> Model F) : save_method F :=
  fun now uf self tbl c => Model_save receiver now uf (defaults self tbl) tbl c.

(** A row other than the instance being updated. *)
Definition other_than (instance : option Article) (row : Article) : Prop :=
  match instance with
  | Some i => match pk i with
              | Some id => pk row <> Some id
              | None => True
              end
  | None => True
  end.

(** The number of requests whose UPDATE has been executed. *)
Fixpoint updates_done (reqs : list Request) : Z :=
  match reqs with
  | [] => 0
  | r :: rest =>
      (match req_at r with AtUpdate => 0 | _ => 1 end) + updates_done rest
  end.

(** A request that has returned did so normally, holding a count between
    [lo] and [hi]. *)
Definition returned_within (lo hi : Z) (r : Request) : Prop :=
  match req_at r with
  | Returned e => e = None /\ lo <= views_count (fields (req_self r)) <= hi
  | _ => True
  end.

(** What every reachable state of the requests and the table satisfies. *)
Definition counter_inv (id v0 : Z) (reqs : list Request) (tbl : list Article) : Prop :=
  Forall (fun r => pk (req_self r) = Some id) reqs
  /\ stored_views id tbl = Some (v0 + updates_done reqs)
  /\ Forall (returned_within (v0 + 1) (v0 + updates_done reqs)) reqs.

(** How far a request has come: 0, 1 or 2 statements. *)
Definition phase (r : Request) : nat :=
  match req_at r with
  | AtUpdate => 0
  | AtRefresh => 1
  | Returned _ => 2
  end.

(** ** apps/content/models.py: searching and the comment manager *)

(** [needle in hay]. *)
Fixpoint contains (needle hay : string) : bool :=
  match hay with
  | EmptyString => str_empty needle
  | String _ rest => String.prefix needle hay || contains needle rest
  end.

(** [field__icontains=query], on ASCII letters. *)
Definition icontains (field query : string) : bool :=
  contains (lower query) (lower field).

(** [PublishedArticleManager.search]. *)
Definition PublishedArticleManager_search (query : string) (tbl : list Article)
  : list Article :=
  List.filter (fun row => icontains (title (fields row)) query
                          || icontains (content (fields row)) query)
              (PublishedArticleManager_get_queryset tbl).

(** [CommentManager.for_article]. *)
Definition CommentManager_for_article (article_id : Z) (tbl : list Comment)
  : list Comment :=
  List.filter (fun row => Z.eqb (article (fields row)) article_id
                          && Bool.eqb (is_deleted row) false)
              (Manager_get_queryset tbl).

(** ** apps/content/serializers.py: tags and counts *)

(** [s.split(sep)] for a separator of one character. *)
Fixpoint split (sep : ascii) (s : string) : list string :=
  match s with
  | EmptyString => [EmptyString]
  | String ch rest =>
      if Ascii.eqb ch sep then EmptyString :: split sep rest
      else match split sep rest with
           | piece :: pieces => String ch piece :: pieces
           | [] => [String ch EmptyString]
           end
  end.

Fixpoint lstrip_space (s : string) : string :=
  match s with
  | EmptyString => EmptyString
  | String ch rest => if is_space ch then lstrip_space rest else s
  end.

Fixpoint rstrip_space (s : string) : string :=
  match s with
  | EmptyString => EmptyString
  | String ch rest =>
      let r := rstrip_space rest in
      if is_space ch && str_empty r then EmptyString else String ch r
  end.

(** [s.strip()]. *)
Definition strip (s : string) : string := rstrip_space (lstrip_space s).

(** [ArticleDetailSerializer.get_tags_list]. *)
Definition get_tags_list (obj : Article) : list string :=
  if str_empty (tags (fields obj)) then []
  else List.map strip
         (List.filter (fun tag => negb (str_empty (strip tag)))
            (split "," (tags (fields obj)))).

(** [ArticleDetailSerializer.get_comments_count]: [obj.comments] is the
    reverse relation of [Comment.article]. *)
Definition get_comments_count (obj : Article) (tbl : list Comment) : nat :=
  match pk obj with
  | Some id =>
      length (List.filter (fun row => Bool.eqb (is_deleted row) false)
                (List.filter (fun row => Z.eqb (article (fields row)) id)
                   (Manager_get_queryset tbl)))
  | None => O
  end.

(** The validated data [ArticleCreateUpdateSerializer.create] and [update]
    receive; an absent key is [None]. *)
Record ArticleData : Type := mkArticleData {
  data_title : option string;
  data_body : option string;
  data_excerpt : option string;
  data_is_published : option bool;
  data_tags : option string;
  data_tags_list : option (list string)
}.

(** The first lines of [create]: [tags_list] is popped, with [[]] for an
    absent key, and a list that is not empty replaces [tags]. *)
Definition create_tags (validated_data : ArticleData) : option string :=
  match default [] (data_tags_list validated_data) with
  | [] => data_tags validated_data
  | tags_list => Some (String.concat ", " tags_list)
  end.

(** [ArticleCreateUpdateSerializer.create] followed by the [save] of
    [perform_create]: the model's [create] builds an instance from the
    data and the author, a field without data taking the default of its
    column, and saves it. *)
Definition ArticleCreateUpdateSerializer_create (slugify : string -> string)
    (now : Z) (user : User) (validated_data : ArticleData)
    (tbl : list Article) (c : Cache) : Outcome ArticleFields :=
  let self := mkModel None 0 0 false None
                (mkArticleFields (default "" (data_title validated_data)) ""
                   (default "" (data_body validated_data))
                   (default "" (data_excerpt validated_data)) user
                   (default true (data_is_published validated_data)) 0
                   (default "" (create_tags validated_data))) in
  Article_save slugify now None self tbl c.

(** ** apps/content/permissions.py *)

(** [request.user]. *)
Inductive RequestUser : Type :=
| AnonymousUser
| Authenticated (u : User).

Definition is_authenticated (user : RequestUser) : bool :=
  match user with
  | Authenticated _ => true
  | AnonymousUser => false
  end.

(** [permissions.SAFE_METHODS]. *)
Definition SAFE_METHODS : list string := ["GET"; "HEAD"; "OPTIONS"].

Definition is_safe (method : string) : bool :=
  existsb (String.eqb method) SAFE_METHODS.

(** [obj.author == request.user]: two users are equal when their keys
    are. *)
Definition is_user (author_ : User) (user : RequestUser) : bool :=
  match user with
  | Authenticated u => Z.eqb (user_id author_) (user_id u)
  | AnonymousUser => false
  end.

(** [IsAuthorOrReadOnly.has_object_permission], given [obj.author]. *)
Definition IsAuthorOrReadOnly_has_object_permission (method : string)
    (user : RequestUser) (obj_author : User) : bool :=
  if is_safe method then true else is_user obj_author user.

(** ** apps/content/views.py *)

#[global] Instance User_eq_dec : EqDecision User.
Proof. solve_decision. Defined.

#[global] Instance ArticleFields_eq_dec : EqDecision ArticleFields.
Proof. solve_decision. Defined.

#[global] Instance CommentFields_eq_dec : EqDecision CommentFields.
Proof. solve_decision. Defined.

#[global] Instance Model_eq_dec {F : Type} `{EqDecision F} : EqDecision (Model F).
Proof. solve_decision. Defined.

(** [filter(author=user)]. *)
Definition authored_by (u : User) (row : Article) : bool :=
  Z.eqb (user_id (author (fields row))) (user_id u).

(** [ArticleViewSet.get_queryset].  [queryset | user_articles] is one
    query whose condition is the disjunction of the two conditions;
    [distinct()] drops repeated rows.  The annotations and prefetches
    change no membership and are left out. *)
Definition ArticleViewSet_get_queryset (user : RequestUser) (tbl : list Article)
  : list Article :=
  let queryset :=
    match user with
    | Authenticated u =>
        List.filter (fun row =>
                       (Bool.eqb (is_published (fields row)) true
                        && Bool.eqb (is_deleted row) false)
                       || (Bool.eqb (is_deleted row) false && authored_by u row))
                    (Manager_get_queryset tbl)
    | AnonymousUser => Article_published tbl
    end in
  remove_dups queryset.

(** What a view answers: a status with data, or a status with a detail
    message. *)
Inductive Response (A : Type) : Type :=
| Data (status : nat) (data : A)
| Detail (status : nat) (detail : string).
Arguments Data {A} status data.
Arguments Detail {A} status detail.

(** [ArticleViewSet.my_articles], without pagination; the rows are those
    handed to [ArticleListSerializer]. *)
Definition ArticleViewSet_my_articles (user : RequestUser) (tbl : list Article)
  : Response (list Article) :=
  match user with
  | AnonymousUser => Detail 401 "Authentication required."
  | Authenticated u =>
      Data 200 (List.filter (authored_by u) (Article_active_objects tbl))
  end.

(** The queryset of [ArticleViewSet.comments] for the article [obj]:
    the top-level comments of the article that are not deleted. *)
Definition top_level_comments (obj : Article) (tbl : list Comment) : list Comment :=
  match pk obj with
  | Some id =>
      List.filter (fun row => Bool.eqb (is_deleted row) false
                              && negb (is_reply row))
        (List.filter (fun row => Z.eqb (article (fields row)) id)
           (Manager_get_queryset tbl))
  | None => []
  end.

(** The comments that [ArticleViewSet.comments] shows for [obj]: each
    top-level comment with the rows [get_replies] renders under it. *)
Definition shown_comments (obj : Article) (tbl : list Comment) : list Comment :=
  List.flat_map (fun top => top :: match pk top with
                                   | Some id => replies_queryset id tbl
                                   | None => []
                                   end)
                (top_level_comments obj tbl).

(** [GenericAPIView.get_object] with [lookup_field = 'slug'], over the
    queryset of the view. *)
Definition get_object (user : RequestUser) (slug_ : string) (tbl : list Article)
  : option Article :=
  List.find (fun row => String.eqb (slug (fields row)) slug_)
            (ArticleViewSet_get_queryset user tbl).

(** How a [DELETE /articles/<slug>/] ends. *)
Inductive DestroyAnswer : Type :=
| NotAuthenticated
| NotFound
| PermissionDenied
| Destroyed (raised : option exn).

(** [DELETE /articles/<slug>/]: the framework checks
    [IsAuthenticatedOrReadOnly], looks the object up, checks
    [IsAuthorOrReadOnly] on it and calls [perform_destroy], which is
    [instance.soft_delete()].  The answer comes with the table and the
    cache as they are left. *)
Definition ArticleViewSet_destroy (slugify : string -> string) (now : Z)
    (user : RequestUser) (slug_ : string) (tbl : list Article) (c : Cache)
  : DestroyAnswer * list Article * Cache :=
  if negb (is_authenticated user) then (NotAuthenticated, tbl, c)
  else match get_object user slug_ tbl with
       | None => (NotFound, tbl, c)
       | Some obj =>
           if IsAuthorOrReadOnly_has_object_permission "DELETE" user (author (fields obj))
           then let o := soft_delete (Article_save slugify) now obj tbl c in
                (Destroyed (out_exn o), out_table o, out_cache o)
           else (PermissionDenied, tbl, c)
       end.

(** The four counts of [ArticleViewSet.statistics]. *)
Definition total_articles (tbl : list Article) : nat :=
  length (Article_active_objects tbl).

Definition published_articles (tbl : list Article) : nat :=
  length (Article_published tbl).

(** [Article.published.aggregate(Sum('views_count'))['views_count__sum'] or 0]:
    the sum over no row is [None]. *)
Definition total_views (tbl : list Article) : Z :=
  match Article_published tbl with
  | [] => 0
  | rows => fold_right (fun row acc => views_count (fields row) + acc) 0 rows
  end.

Definition total_comments (tbl : list Comment) : nat :=
  length (ActiveObjectsManager_get_queryset tbl).

(** ** apps/content/admin.py *)

(** [CommentAdmin.content_preview]. *)
Definition content_preview (obj : Comment) : string :=
  if Nat.ltb 50 (String.length (comment_content (fields obj)))
  then slice_to 50 (comment_content (fields obj)) +:+ "..."
  else comment_content (fields obj).

(** ** core/views.py *)

(** [cache.set(key, value, timeout)]. *)
Definition cache_set (key value : string) (c : Cache) : result Cache :=
  if available c
  then Ok (mkCache (<[key := value]> (entries c)) (available c))
  else Raise CacheError.

(** [cache.get(key)]. *)
Definition cache_get (key : string) (c : Cache) : result (option string) :=
  if available c then Ok (entries c !! key) else Raise CacheError.

(** [HealthCheckView._check_cache]; the cache is returned as the check
    leaves it. *)
Definition _check_cache (c : Cache) : bool * Cache :=
  match cache_set "health_check" "ok" c with
  | Raise _ => (false, c)
  | Ok c' =>
      match cache_get "health_check" c' with
      | Ok v => (bool_decide (v = Some "ok"), c')
      | Raise _ => (false, c')
      end
  end.

(** [HealthCheckView._check_database]; [connected] says whether
    [connection.ensure_connection()] returns. *)
Definition _check_database (connected : bool) : bool := connected.

Record HealthStatus : Type := mkHealthStatus {
  health : string;
  database_ok : bool;
  cache_ok : bool
}.

(** [HealthCheckView.get]. *)
Definition HealthCheckView_get (connected : bool) (c : Cache)
  : nat * HealthStatus * Cache :=
  let database := _check_database connected in
  let '(cache_, c') := _check_cache c in
  if negb (database && cache_)
  then (503%nat, mkHealthStatus "unhealthy" database cache_, c')
  else (200%nat, mkHealthStatus "healthy" database cache_, c').

(** The keys the two receivers delete. *)
Definition article_cache_keys (instance : Article) : list string :=
  [ "article:" +:+ match pk instance with Some i => pretty i | None => "None" end;
    "article:slug:" +:+ slug (fields instance);
    "articles:list:*" ].

Definition comment_cache_keys (instance : Comment) : list string :=
  [ "comment:" +:+ match pk instance with Some i => pretty i | None => "None" end;
    "article:" +:+ pretty (article (fields instance)) +:+ ":comments" ].

(** ** Notions used in the further statements *)

(** The article with its view count put aside. *)
Definition without_views (a : Article) : Article := set_views_count 0 a.

(** The titles of the articles that are not deleted, in lower case. *)
Definition active_titles (tbl : list Article) : list string :=
  List.map (fun row => lower (title (fields row))) (Article_active_objects tbl).

(** [ch in s]. *)
Fixpoint has_char (ch : ascii) (s : string) : bool :=
  match s with
  | EmptyString => false
  | String c rest => Ascii.eqb c ch || has_char ch rest
  end.

(** A tag as a client would send it: trimmed, not empty, without a comma. *)
Definition clean_tag (t : string) : Prop :=
  strip t = t /\ t <> "" /\ has_char "," t = false.

(** A string that is empty or starts with a character that is no space. *)
Definition starts_clean (s : string) : Prop :=
  match s with
  | EmptyString => True
  | String c _ => is_space c = false
  end.

(** Saving new articles one after the other. *)
Fixpoint save_each (slugify : string -> string) (now : Z) (news : list Article)
    (tbl : list Article) (c : Cache) : list Article * Cache :=
  match news with
  | [] => (tbl, c)
  | a :: rest =>
      let o := Article_save slugify now None a tbl c in
      save_each slugify now rest (out_table o) (out_cache o)
  end.

(** * Properties *)

(** ** The framework's [slugify], on the titles of the specification *)

Example slugify_hello : django_slugify "Hello World!" = "hello-world".
Proof. reflexivity. Qed.
Example slugify_hello2 : django_slugify "Hello, World" = "hello-world".
Proof. reflexivity. Qed.
Example slugify_x : django_slugify "  --A_b  c--_ " = "a_b-c".
Proof. reflexivity. Qed.
Example slugify_bang : django_slugify "!!!" = "".
Proof. reflexivity. Qed.


(** ** Rows, keys and the base [save] *)

Section BaseModelFacts.
Context {F : Type}.
Implicit Types (row self : Model F) (tbl : list (Model F)).

Lemma has_pk_iff id row : has_pk id row = true <-> pk row = Some id.
Proof.
  unfold has_pk. destruct (pk row) as [j|]; [|split; discriminate].
  rewrite Z.eqb_eq. split; congruence.
Qed.

Lemma get_pk_Some id tbl row :
  get_pk id tbl = Some row -> In row tbl /\ pk row = Some id.
Proof.
  unfold get_pk. intros H. apply find_some in H as [Hin Hpk].
  split; [assumption | now apply has_pk_iff].
Qed.

Lemma get_pk_None id tbl :
  get_pk id tbl = None <-> (forall row, In row tbl -> pk row <> Some id).
Proof.
  unfold get_pk. split.
  - intros H row Hin Hpk. apply (find_none _ _ H) in Hin.
    apply has_pk_iff in Hpk. congruence.
  - intros H. destruct (find (has_pk id) tbl) as [row|] eqn:E; [|reflexivity].
    apply find_some in E as [Hin Hpk]. apply has_pk_iff in Hpk.
    now apply H in Hin.
Qed.

Lemma get_pk_update_pk id (f : Model F -> Model F) tbl :
  (forall row, pk row = Some id -> pk (f row) = Some id) ->
  get_pk id (update_pk id f tbl) = f <$> get_pk id tbl.
Proof.
  intros Hf. unfold get_pk, update_pk. induction tbl as [|row tbl IH]; [reflexivity|].
  cbn [List.map find]. destruct (has_pk id row) eqn:E.
  - assert (has_pk id (f row) = true) as ->; [|reflexivity].
    apply has_pk_iff, Hf. now apply has_pk_iff.
  - rewrite E. exact IH.
Qed.

Lemma update_pk_compose id (f g : Model F -> Model F) tbl :
  (forall row, pk row = Some id -> pk (g row) = Some id) ->
  update_pk id f (update_pk id g tbl) = update_pk id (fun row => f (g row)) tbl.
Proof.
  intros Hg. unfold update_pk. rewrite List.map_map. apply List.map_ext.
  intros row. destruct (has_pk id row) eqn:E; [|now rewrite E].
  assert (has_pk id (g row) = true) as ->; [|reflexivity].
  apply has_pk_iff, Hg. now apply has_pk_iff.
Qed.

Lemma update_pk_id id (f : Model F -> Model F) tbl :
  (forall row, In row tbl -> pk row = Some id -> f row = row) ->
  update_pk id f tbl = tbl.
Proof.
  intros Hf. unfold update_pk. rewrite <- (List.map_id tbl) at 2.
  apply List.map_ext_in. intros row Hin.
  destruct (has_pk id row) eqn:E; [|reflexivity].
  apply Hf; [assumption | now apply has_pk_iff].
Qed.

Lemma next_pk_above tbl row j : In row tbl -> pk row = Some j -> j < next_pk tbl.
Proof.
  unfold next_pk. induction tbl as [|r tbl IH]; [intros []|].
  intros [->|Hin] Hpk; cbn [fold_right].
  - rewrite Hpk. lia.
  - specialize (IH Hin Hpk). destruct (pk r); lia.
Qed.

Lemma get_pk_next_pk tbl : get_pk (next_pk tbl) tbl = None.
Proof.
  apply get_pk_None. intros row Hin Hpk.
  pose proof (next_pk_above _ _ _ Hin Hpk). lia.
Qed.

Lemma get_pk_snoc id tbl row :
  get_pk id tbl = None -> pk row = Some id -> get_pk id (tbl ++ [row]) = Some row.
Proof.
  unfold get_pk. intros Hnone Hpk. induction tbl as [|r tbl IH]; cbn [app find] in *.
  - apply has_pk_iff in Hpk. now rewrite Hpk.
  - destruct (has_pk id r); [discriminate | now apply IH].
Qed.

(** After a [save] without [update_fields] has written, the instance has a
    key and the row stored under that key is the instance. *)
Lemma Model_save_stored receiver now self tbl c :
  let o := Model_save receiver now None self tbl c in
  exists id, pk (out_self o) = Some id /\ get_pk id (out_table o) = Some (out_self o).
Proof.
  unfold Model_save, send_post_save. cbn zeta.
  destruct (pk self) as [id|] eqn:Hpk.
  - destruct (get_pk id tbl) as [row|] eqn:Hget.
    + exists id. destruct (receiver _ c); cbn [out_self out_table];
        (split; [assumption|]); rewrite get_pk_update_pk, Hget; auto.
    + exists id. destruct (receiver _ c); cbn [out_self out_table];
        (split; [assumption|]); now apply get_pk_snoc.
  - exists (next_pk tbl). destruct (receiver _ c); cbn [out_self out_table];
      (split; [reflexivity|]); apply get_pk_snoc; auto using get_pk_next_pk.
Qed.
End BaseModelFacts.

(** ** Visibility managers *)

(** C3. The published view holds exactly the rows that are not deleted and
    are published, the active view exactly the rows that are not deleted;
    an unpublished row that is not deleted is missing from the first and
    present in the second. *)
Theorem visibility_views (tbl : list Article) (a : Article) :
  (In a (Article_published tbl) <->
     In a tbl /\ is_deleted a = false /\ is_published (fields a) = true)
  /\ (In a (Article_active_objects tbl) <-> In a tbl /\ is_deleted a = false)
  /\ (In a tbl -> is_published (fields a) = false -> is_deleted a = false ->
      ~ In a (Article_published tbl) /\ In a (Article_active_objects tbl)).
Proof.
  assert (Hpub : In a (Article_published tbl) <->
            In a tbl /\ is_deleted a = false /\ is_published (fields a) = true).
  { unfold Article_published, PublishedArticleManager_get_queryset, Manager_get_queryset.
    rewrite filter_In, Bool.andb_true_iff, !Bool.eqb_true_iff. tauto. }
  assert (Hact : In a (Article_active_objects tbl) <-> In a tbl /\ is_deleted a = false).
  { unfold Article_active_objects, ActiveObjectsManager_get_queryset, Manager_get_queryset.
    rewrite filter_In, Bool.eqb_true_iff. tauto. }
  split; [exact Hpub | split; [exact Hact |]].
  intros Hin Hunpub Hlive. split.
  - rewrite Hpub. intros (_ & _ & Hp). congruence.
  - apply Hact. auto.
Qed.

(** The views keep the storage order and every copy of a row: each is the
    table filtered by its predicate. *)
Example visibility_example :
  let draft := article_fixture 1 "Draft" "draft" false false in
  let gone := article_fixture 2 "Gone" "gone" true true in
  let live := article_fixture 3 "Live" "live" true false in
  Article_published [draft; gone; live] = [live]
  /\ Article_active_objects [draft; gone; live] = [draft; live]
  /\ Article_objects [draft; gone; live] = [draft; gone; live].
Proof. repeat split. Qed.

(** ** Slug allocator *)

Lemma slug_exists_iff tbl s : slug_exists tbl s = true <-> In s (slugs tbl).
Proof.
  unfold slug_exists, Article_objects, Manager_get_queryset, slugs.
  rewrite existsb_exists, in_map_iff. split.
  - intros (row & Hin & Heq). apply String.eqb_eq in Heq. eauto.
  - intros (row & Heq & Hin). exists row. split; [assumption|]. now apply String.eqb_eq.
Qed.

Lemma slug_exists_false tbl s :
  slug_exists tbl s = false <-> (forall row, In row tbl -> slug (fields row) <> s).
Proof.
  rewrite <- Bool.not_true_iff_false, slug_exists_iff. unfold slugs.
  rewrite in_map_iff. split.
  - intros H row Hin Heq. apply H. eauto.
  - intros H (row & Heq & Hin). now apply (H row).
Qed.

Lemma string_app_length (s t : string) :
  String.length (s +:+ t) = (String.length s + String.length t)%nat.
Proof. induction s as [|ch s IH]; simpl; [reflexivity | now f_equal]. Qed.

Lemma candidate_inj base_slug j k :
  candidate base_slug j = candidate base_slug k -> j = k.
Proof.
  destruct j as [|j], k as [|k]; cbn [candidate]; unfold suffixed; intros H.
  - reflexivity.
  - apply (f_equal String.length) in H. rewrite !string_app_length in H.
    cbn [String.length] in H. lia.
  - apply (f_equal String.length) in H. rewrite !string_app_length in H.
    cbn [String.length] in H. lia.
  - apply (inj (String.app base_slug)), (inj (String.app "-")), (inj pretty) in H.
    exact H.
Qed.

(** One test of the loop condition moves from candidate [k] to candidate
    [k + 1]. *)
Lemma probe_slug_step fuel tbl base_slug k :
  probe_slug (S fuel) tbl base_slug (candidate base_slug k) (S k) =
  if slug_exists tbl (candidate base_slug k)
  then probe_slug fuel tbl base_slug (candidate base_slug (S k)) (S (S k))
  else Some (candidate base_slug k).
Proof. reflexivity. Qed.

(** What the loop returns is the first unused candidate. *)
Lemma probe_slug_sound fuel tbl base_slug : forall k s,
  probe_slug fuel tbl base_slug (candidate base_slug k) (S k) = Some s ->
  exists m, (k <= m)%nat /\ s = candidate base_slug m
    /\ slug_exists tbl s = false
    /\ (forall j, (k <= j < m)%nat -> slug_exists tbl (candidate base_slug j) = true).
Proof.
  induction fuel as [|fuel IH]; intros k s H; [discriminate|].
  rewrite probe_slug_step in H.
  destruct (slug_exists tbl (candidate base_slug k)) eqn:E.
  - apply IH in H as (m & Hle & -> & Hfree & Hused).
    exists m. repeat split; [lia | assumption |].
    intros j Hj. destruct (Nat.eq_dec j k) as [->|]; [assumption|].
    apply Hused. lia.
  - injection H as <-. exists k. repeat split; [lia | assumption |].
    intros j Hj. lia.
Qed.

(** The loop returns as soon as the fuel reaches an unused candidate. *)
Lemma probe_slug_complete tbl base_slug : forall fuel k m,
  (k <= m < k + fuel)%nat ->
  slug_exists tbl (candidate base_slug m) = false ->
  exists s, probe_slug fuel tbl base_slug (candidate base_slug k) (S k) = Some s.
Proof.
  induction fuel as [|fuel IH]; intros k m Hm Hfree; [lia|].
  rewrite probe_slug_step.
  destruct (slug_exists tbl (candidate base_slug k)) eqn:E; [|eauto].
  apply (IH (S k) m); [|assumption].
  destruct (Nat.eq_dec m k) as [->|]; [congruence | lia].
Qed.

(** More fuel does not change a result. *)
Lemma probe_slug_more tbl base_slug : forall fuel fuel' slug0 counter s,
  (fuel <= fuel')%nat ->
  probe_slug fuel tbl base_slug slug0 counter = Some s ->
  probe_slug fuel' tbl base_slug slug0 counter = Some s.
Proof.
  induction fuel as [|fuel IH]; intros fuel' slug0 counter s Hle H; [discriminate|].
  destruct fuel' as [|fuel']; [lia|]. cbn [probe_slug] in *.
  destruct (slug_exists tbl slug0); [|assumption].
  apply (IH fuel'); [lia | assumption].
Qed.

(** A table of [n] rows cannot hold all of the [n + 1] first candidates. *)
Lemma candidate_unused tbl base_slug :
  exists m, (m <= length tbl)%nat /\ slug_exists tbl (candidate base_slug m) = false.
Proof.
  set (cands := List.map (candidate base_slug) (seq 0 (S (length tbl)))).
  destruct (forallb (slug_exists tbl) cands) eqn:E.
  - exfalso. rewrite forallb_forall in E.
    assert (Hnd : List.NoDup cands).
    { unfold cands. apply Finite.Injective_map_NoDup; [|apply seq_NoDup].
      intros j k. apply candidate_inj. }
    assert (Hincl : incl cands (slugs tbl)).
    { intros s Hs. now apply slug_exists_iff, E. }
    pose proof (NoDup_incl_length Hnd Hincl) as Hlen.
    unfold cands, slugs in Hlen. rewrite !length_map, length_seq in Hlen. lia.
  - apply Bool.not_true_iff_false in E. rewrite forallb_forall in E.
    destruct (existsb (fun s => negb (slug_exists tbl s)) cands) eqn:E'.
    + apply existsb_exists in E' as (s & Hs & Hfree).
      unfold cands in Hs. apply in_map_iff in Hs as (m & <- & Hm).
      apply in_seq in Hm. exists m. split; [lia|].
      now apply Bool.negb_true_iff.
    + exfalso. apply E. intros s Hs.
      destruct (slug_exists tbl s) eqn:Es; [reflexivity|].
      assert (existsb (fun s => negb (slug_exists tbl s)) cands = true); [|congruence].
      apply existsb_exists. exists s. now rewrite Es.
Qed.

(** The loop of [_generate_unique_slug] ends: [length tbl + 1] tests of its
    condition are enough. *)
Lemma probe_slug_enough tbl base_slug :
  exists s, probe_slug (S (length tbl)) tbl base_slug base_slug 1 = Some s.
Proof.
  destruct (candidate_unused tbl base_slug) as (m & Hm & Hfree).
  apply (probe_slug_complete tbl base_slug (S (length tbl)) 0 m); [lia | assumption].
Qed.

Section SlugFacts.
Variable slugify : string -> string.

Lemma generate_unique_slug_probe self tbl fuel :
  (S (length tbl) <= fuel)%nat ->
  probe_slug fuel tbl (slugify (title (fields self))) (slugify (title (fields self))) 1
  = Some (_generate_unique_slug slugify self tbl).
Proof.
  intros Hfuel. unfold _generate_unique_slug.
  destruct (probe_slug_enough tbl (slugify (title (fields self)))) as [s Hs].
  rewrite Hs. now apply (probe_slug_more _ _ (S (length tbl))).
Qed.

Lemma generate_unique_slug_first self tbl :
  let base_slug := slugify (title (fields self)) in
  exists m, _generate_unique_slug slugify self tbl = candidate base_slug m
    /\ slug_exists tbl (candidate base_slug m) = false
    /\ (forall j, (j < m)%nat -> slug_exists tbl (candidate base_slug j) = true).
Proof.
  cbn zeta.
  pose proof (generate_unique_slug_probe self tbl (S (length tbl)) (Nat.le_refl _)) as H.
  apply (probe_slug_sound _ _ _ O) in H as (m & _ & Heq & Hfree & Hused).
  exists m. rewrite <- Heq. repeat split; [assumption|].
  intros j Hj. apply Hused. lia.
Qed.
End SlugFacts.

(** ** Cache receivers *)

Lemma delete_keys_live keys : forall c,
  available c = true ->
  exists c', delete_keys keys c = Ok c' /\ available c' = true
    /\ entries c' = fold_left (fun m key => delete key m) keys (entries c).
Proof.
  induction keys as [|key keys IH]; intros c Hc; cbn [delete_keys fold_left].
  - eauto.
  - unfold cache_delete. rewrite Hc. cbn [mbind result_bind].
    destruct (IH (mkCache (delete key (entries c)) true) eq_refl) as (c' & -> & ? & ?).
    eauto.
Qed.

Lemma delete_keys_dead key keys c :
  available c = false -> delete_keys (key :: keys) c = Raise CacheError.
Proof. intros Hc. cbn [delete_keys]. unfold cache_delete. now rewrite Hc. Qed.

Lemma invalidate_article_cache_deleting : deleting_receiver invalidate_article_cache.
Proof.
  split; intros self c Hc; unfold invalidate_article_cache.
  - destruct (delete_keys_live
                [ "article:" +:+ match pk self with Some i => pretty i | None => "None" end;
                  "article:slug:" +:+ slug (fields self); "articles:list:*" ] c Hc)
      as (c' & H1 & H2 & _). eauto.
  - now apply delete_keys_dead.
Qed.

Lemma invalidate_comment_cache_deleting : deleting_receiver invalidate_comment_cache.
Proof.
  split; intros self c Hc; unfold invalidate_comment_cache.
  - destruct (delete_keys_live
                [ "comment:" +:+ match pk self with Some i => pretty i | None => "None" end;
                  "article:" +:+ pretty (article (fields self)) +:+ ":comments" ] c Hc)
      as (c' & H1 & H2 & _). eauto.
  - now apply delete_keys_dead.
Qed.

Section SaveFacts.
Context {F : Type}.
Variable receiver : Model F -> Cache -> result Cache.
Implicit Types (self : Model F) (tbl : list (Model F)).

Lemma send_post_save_self self tbl c :
  out_self (send_post_save receiver self tbl c) = self.
Proof. unfold send_post_save. now destruct (receiver self c). Qed.

Lemma send_post_save_table self tbl c :
  out_table (send_post_save receiver self tbl c) = tbl.
Proof. unfold send_post_save. now destruct (receiver self c). Qed.

Lemma send_post_save_live self tbl c :
  deleting_receiver receiver -> available c = true ->
  out_exn (send_post_save receiver self tbl c) = None
  /\ available (out_cache (send_post_save receiver self tbl c)) = true.
Proof.
  intros [Hlive _] Hc. unfold send_post_save.
  destruct (Hlive self c Hc) as (c' & -> & Hc'). now split.
Qed.

Lemma send_post_save_dead self tbl c :
  deleting_receiver receiver -> available c = false ->
  send_post_save receiver self tbl c = mkOutcome self tbl c (Some CacheError).
Proof. intros [_ Hdead] Hc. unfold send_post_save. now rewrite (Hdead self c Hc). Qed.

(** [save] touches the mixins' columns only. *)
Lemma Model_save_fields now uf self tbl c :
  fields (out_self (Model_save receiver now uf self tbl c)) = fields self.
Proof.
  unfold Model_save. destruct uf as [[|col cols]|]; [reflexivity| |].
  - destruct (pk self) as [id|]; [|reflexivity].
    destruct (get_pk id tbl); [rewrite send_post_save_self|cbn [out_self]];
      now destruct (has_column col_updated_at (col :: cols)).
  - destruct (pk self) as [id|]; [destruct (get_pk id tbl)|];
      now rewrite send_post_save_self.
Qed.

(** A [save] without [update_fields] reaches the signal, so on a cache that
    can be reached it returns normally. *)
Lemma Model_save_live now self tbl c :
  deleting_receiver receiver -> available c = true ->
  out_exn (Model_save receiver now None self tbl c) = None.
Proof.
  intros Hr Hc. unfold Model_save.
  destruct (pk self) as [id|]; [destruct (get_pk id tbl)|];
    now apply send_post_save_live.
Qed.

(** A new instance is appended to the table. *)
Lemma Model_save_insert now self tbl c :
  pk self = None ->
  out_table (Model_save receiver now None self tbl c)
  = tbl ++ [out_self (Model_save receiver now None self tbl c)].
Proof.
  intros Hpk. unfold Model_save. rewrite Hpk.
  now rewrite send_post_save_table, send_post_save_self.
Qed.
End SaveFacts.

(** ** [Article.save] *)

Lemma Article_save_defaults slugify now uf self tbl c :
  Article_save slugify now uf self tbl c
  = Model_save invalidate_article_cache now uf (Article_defaults slugify self tbl) tbl c.
Proof. reflexivity. Qed.

Lemma Article_defaults_pk slugify self tbl : pk (Article_defaults slugify self tbl) = pk self.
Proof.
  unfold Article_defaults.
  destruct (str_empty (slug (fields self)));
    match goal with |- context [if ?b then _ else _] => destruct b end; reflexivity.
Qed.

Lemma Article_defaults_slug slugify self tbl :
  slug (fields (Article_defaults slugify self tbl))
  = if str_empty (slug (fields self))
    then _generate_unique_slug slugify self tbl else slug (fields self).
Proof.
  unfold Article_defaults.
  destruct (str_empty (slug (fields self)));
    match goal with |- context [if ?b then _ else _] => destruct b end; reflexivity.
Qed.

Lemma Article_defaults_excerpt slugify self tbl :
  excerpt (fields (Article_defaults slugify self tbl))
  = if str_empty (excerpt (fields self)) && negb (str_empty (content (fields self)))
    then if Nat.ltb 200 (String.length (content (fields self)))
         then slice_to 200 (content (fields self)) +:+ "..."
         else content (fields self)
    else excerpt (fields self).
Proof.
  unfold Article_defaults.
  destruct (str_empty (slug (fields self))); cbn [set_slug set_fields fields excerpt content];
    match goal with |- context [if ?b then _ else _] => destruct b end; reflexivity.
Qed.

Lemma slice_to_all n : forall s, (String.length s <= n)%nat -> slice_to n s = s.
Proof.
  induction n as [|n IH]; intros [|ch s] Hlen; cbn in *; try reflexivity; try lia.
  f_equal. apply IH. lia.
Qed.

Lemma str_empty_iff s : str_empty s = true <-> s = "".
Proof. destruct s; cbn; split; congruence. Qed.

(** An article saved without a slug, for any normalizer: the stored slug
    is the normalized title when no stored article has it, otherwise the
    normalized title with the least free suffix; it is the slug of no
    stored article. *)
Lemma Article_save_allocates (slugify : string -> string) (now : Z)
    (self : Article) (tbl : list Article) (c : Cache) :
  str_empty (slug (fields self)) = true ->
  let o := Article_save slugify now None self tbl c in
  let base_slug := slugify (title (fields self)) in
  let s := slug (fields (out_self o)) in
  (exists id, pk (out_self o) = Some id /\ get_pk id (out_table o) = Some (out_self o))
  /\ (forall row, In row tbl -> slug (fields row) <> s)
  /\ (slug_exists tbl base_slug = false -> s = base_slug)
  /\ (slug_exists tbl base_slug = true ->
      exists k, (1 <= k)%nat /\ s = suffixed base_slug k
        /\ (forall j, (1 <= j < k)%nat -> slug_exists tbl (suffixed base_slug j) = true))
  /\ (pk self = None -> List.NoDup (slugs tbl) -> List.NoDup (slugs (out_table o))).
Proof.
  intros Hempty. cbn zeta. rewrite Article_save_defaults.
  rewrite Model_save_fields, Article_defaults_slug, Hempty.
  destruct (generate_unique_slug_first slugify self tbl) as (m & Hm & Hfree & Hused).
  split; [apply Model_save_stored|].
  split; [rewrite Hm; now apply slug_exists_false|].
  split; [|split].
  - intros Hbase. destruct m as [|m]; [exact Hm|].
    specialize (Hused O (Nat.lt_0_succ m)). cbn [candidate] in Hused. congruence.
  - intros Hbase. destruct m as [|m]; [cbn [candidate] in Hfree; congruence|].
    exists (S m). split; [lia|]. split; [exact Hm|].
    intros j Hj. destruct j as [|j]; [lia|]. apply (Hused (S j)). lia.
  - intros Hpk Hnd. rewrite Model_save_insert by now rewrite Article_defaults_pk.
    unfold slugs. rewrite List.map_app. cbn [List.map].
    rewrite Model_save_fields, Article_defaults_slug, Hempty, Hm.
    apply NoDup_app_remove_l with (l := []). cbn [app].
    apply Permutation_NoDup with (l := candidate (slugify (title (fields self))) m :: slugs tbl).
    + apply Permutation_cons_append.
    + constructor; [|exact Hnd]. rewrite <- slug_exists_iff. congruence.
Qed.

(** ** The base slug: the framework's [slugify], stage by stage *)

(** *** Characters *)

Ltac each_char :=
  let ch := fresh "ch" in
  intros ch; destruct ch as [[] [] [] [] [] [] [] []]; vm_compute;
  intuition congruence.

Lemma slug_char_kept : forall ch, is_slug_char ch = true ->
  is_ascii ch = true /\ is_upper ch = false
  /\ (is_word ch || is_space ch || is_hyphen ch) = true /\ is_space ch = false.
Proof. each_char. Qed.

Lemma kept_char_slug : forall ch,
  (is_word ch || is_space ch || is_hyphen ch) && negb (is_upper ch) = true ->
  is_hyphen ch || is_space ch = false ->
  is_slug_char ch = true /\ is_hyphen ch = false.
Proof. each_char. Qed.

Lemma lower_char_not_upper : forall ch, is_upper (lower_char ch) = false.
Proof. each_char. Qed.

Lemma lower_char_ascii : forall ch, is_ascii (lower_char ch) = is_ascii ch.
Proof. each_char. Qed.

Lemma lower_char_idem : forall ch, lower_char (lower_char ch) = lower_char ch.
Proof. each_char. Qed.

Lemma lower_char_same ch : is_upper ch = false -> lower_char ch = ch.
Proof. unfold lower_char. now intros ->. Qed.

Lemma punctuation_dropped : forall ch, is_punctuation ch = true ->
  is_ascii ch = true /\ is_upper ch = false
  /\ (is_word ch || is_space ch || is_hyphen ch) = false.
Proof. each_char. Qed.

Lemma separator_kept : forall ch, is_separator ch = true ->
  is_ascii ch = true /\ is_upper ch = false
  /\ (is_word ch || is_space ch || is_hyphen ch) = true.
Proof. each_char. Qed.

Lemma stripped_kept : forall ch, is_stripped ch = true ->
  is_ascii ch = true /\ is_upper ch = false
  /\ (is_word ch || is_space ch || is_hyphen ch) = true
  /\ is_hyphen ch || is_space ch = is_hyphen ch.
Proof. each_char. Qed.

(** *** Strings *)

Lemma append_cons ch s t : String ch s +:+ t = String ch (s +:+ t).
Proof. reflexivity. Qed.

Lemma lower_app s t : lower (s +:+ t) = lower s +:+ lower t.
Proof.
  induction s as [|ch s IH]; [reflexivity|].
  change (String ch s +:+ t) with (String ch (s +:+ t)). cbn [lower].
  now rewrite IH.
Qed.

Lemma all_chars_app keep s t :
  all_chars keep (s +:+ t) = all_chars keep s && all_chars keep t.
Proof.
  induction s as [|ch s IH]; [reflexivity|].
  rewrite append_cons. cbn [all_chars]. now rewrite IH, Bool.andb_assoc.
Qed.

Lemma all_chars_impl (P Q : ascii -> bool) s :
  (forall ch, P ch = true -> Q ch = true) ->
  all_chars P s = true -> all_chars Q s = true.
Proof.
  intros HPQ. induction s as [|ch s IH]; [reflexivity|]. cbn [all_chars].
  intros [Hch Hs]%Bool.andb_true_iff. now rewrite (HPQ ch Hch), (IH Hs).
Qed.

Lemma keep_chars_app keep s t :
  keep_chars keep (s +:+ t) = keep_chars keep s +:+ keep_chars keep t.
Proof.
  induction s as [|ch s IH]; [reflexivity|].
  rewrite append_cons. cbn [keep_chars].
  destruct (keep ch); [rewrite append_cons|]; now rewrite IH.
Qed.

Lemma keep_chars_all keep s : all_chars keep s = true -> keep_chars keep s = s.
Proof.
  induction s as [|ch s IH]; [reflexivity|]. cbn [all_chars keep_chars].
  intros [Hch Hs]%Bool.andb_true_iff. now rewrite Hch, (IH Hs).
Qed.

Lemma keep_chars_none keep s :
  all_chars (fun ch => negb (keep ch)) s = true -> keep_chars keep s = "".
Proof.
  induction s as [|ch s IH]; [reflexivity|]. cbn [all_chars keep_chars].
  intros [Hch Hs]%Bool.andb_true_iff. apply Bool.negb_true_iff in Hch.
  now rewrite Hch, (IH Hs).
Qed.

Lemma all_chars_keep_chars (P keep : ascii -> bool) s :
  all_chars P s = true ->
  all_chars (fun ch => keep ch && P ch) (keep_chars keep s) = true.
Proof.
  induction s as [|ch s IH]; [reflexivity|]. cbn [all_chars keep_chars].
  intros [Hch Hs]%Bool.andb_true_iff. destruct (keep ch) eqn:Hk; [|now apply IH].
  cbn [all_chars]. now rewrite Hk, Hch, (IH Hs).
Qed.

Lemma lower_same s : all_chars (fun ch => negb (is_upper ch)) s = true -> lower s = s.
Proof.
  induction s as [|ch s IH]; [reflexivity|]. cbn [all_chars lower].
  intros [Hch Hs]%Bool.andb_true_iff. apply Bool.negb_true_iff in Hch.
  now rewrite (lower_char_same ch Hch), (IH Hs).
Qed.

Lemma all_chars_lower s : all_chars (fun ch => negb (is_upper ch)) (lower s) = true.
Proof.
  induction s as [|ch s IH]; [reflexivity|]. cbn [all_chars lower].
  now rewrite lower_char_not_upper, IH.
Qed.

Lemma lower_idem s : lower (lower s) = lower s.
Proof.
  induction s as [|ch s IH]; [reflexivity|]. cbn [lower].
  now rewrite lower_char_idem, IH.
Qed.

Lemma all_ascii_lower s : all_chars is_ascii (lower s) = all_chars is_ascii s.
Proof.
  induction s as [|ch s IH]; [reflexivity|]. cbn [all_chars lower].
  now rewrite lower_char_ascii, IH.
Qed.

Lemma keep_ascii_lower s :
  keep_chars is_ascii (lower s) = lower (keep_chars is_ascii s).
Proof.
  induction s as [|ch s IH]; [reflexivity|]. cbn [keep_chars lower].
  rewrite lower_char_ascii. destruct (is_ascii ch); cbn [lower]; now rewrite IH.
Qed.

(** *** The first two lines of [slugify] *)

Lemma django_slugify_stages t :
  django_slugify t = rstrip (lstrip (collapse_runs false (slugify_kept t))).
Proof. reflexivity. Qed.

Lemma slugify_kept_app s t : slugify_kept (s +:+ t) = slugify_kept s +:+ slugify_kept t.
Proof. unfold slugify_kept. now rewrite keep_chars_app, lower_app, keep_chars_app. Qed.

Lemma slugify_kept_lower t : slugify_kept (lower t) = slugify_kept t.
Proof. unfold slugify_kept. now rewrite keep_ascii_lower, lower_idem. Qed.

Lemma slugify_kept_chars t :
  all_chars (fun ch => (is_word ch || is_space ch || is_hyphen ch) && negb (is_upper ch))
    (slugify_kept t) = true.
Proof. unfold slugify_kept. apply all_chars_keep_chars, all_chars_lower. Qed.

(** Text of which every character is ASCII, not an upper-case letter, and
    a word character, white space or a hyphen, stays as it is. *)
Lemma slugify_kept_same (P : ascii -> bool) t :
  (forall ch, P ch = true ->
     is_ascii ch = true /\ is_upper ch = false
     /\ (is_word ch || is_space ch || is_hyphen ch) = true) ->
  all_chars P t = true -> slugify_kept t = t.
Proof.
  intros HP Ht. unfold slugify_kept.
  rewrite (keep_chars_all is_ascii t)
    by (revert Ht; apply all_chars_impl; intros ch Hch; apply (HP ch Hch)).
  rewrite (lower_same t).
  - apply keep_chars_all. revert Ht. apply all_chars_impl.
    intros ch Hch. apply (HP ch Hch).
  - revert Ht. apply all_chars_impl. intros ch Hch.
    destruct (HP ch Hch) as (_ & -> & _). reflexivity.
Qed.

Lemma slugify_kept_punctuation p :
  all_chars is_punctuation p = true -> slugify_kept p = "".
Proof.
  intros Hp. unfold slugify_kept.
  rewrite (keep_chars_all is_ascii p)
    by (revert Hp; apply all_chars_impl; intros ch Hch; apply (punctuation_dropped ch Hch)).
  rewrite (lower_same p).
  - apply keep_chars_none. revert Hp. apply all_chars_impl. intros ch Hch.
    destruct (punctuation_dropped ch Hch) as (_ & _ & ->). reflexivity.
  - revert Hp. apply all_chars_impl. intros ch Hch.
    destruct (punctuation_dropped ch Hch) as (_ & -> & _). reflexivity.
Qed.

(** *** Runs of hyphens and white space *)

Lemma collapse_runs_slug s : forall b,
  all_chars (fun ch => (is_word ch || is_space ch || is_hyphen ch) && negb (is_upper ch)) s
  = true ->
  all_chars is_slug_char (collapse_runs b s) = true
  /\ no_hyphen_run (collapse_runs b s) = true
  /\ (b = true -> starts_hyphen (collapse_runs b s) = false).
Proof.
  induction s as [|ch s IH]; intros b Hs; [now repeat split|].
  cbn [all_chars] in Hs. apply Bool.andb_true_iff in Hs as [Hch Hs].
  cbn [collapse_runs]. destruct (is_hyphen ch || is_space ch) eqn:Hsep.
  - destruct (IH true Hs) as (H1 & H2 & H3). specialize (H3 eq_refl).
    destruct b; [now repeat split|].
    cbn [all_chars no_hyphen_run starts_hyphen]. rewrite H1, H2, H3.
    repeat split; try reflexivity. discriminate.
  - destruct (kept_char_slug ch Hch Hsep) as [Hslug Hhy].
    destruct (IH false Hs) as (H1 & H2 & _).
    cbn [all_chars no_hyphen_run starts_hyphen]. rewrite Hslug, H1, H2, Hhy.
    now repeat split.
Qed.

Lemma collapse_runs_same s : forall b,
  all_chars is_slug_char s = true -> no_hyphen_run s = true ->
  (b = true -> starts_hyphen s = false) ->
  collapse_runs b s = s.
Proof.
  induction s as [|ch s IH]; intros b Hs Hrun Hb; [reflexivity|].
  cbn [all_chars] in Hs. apply Bool.andb_true_iff in Hs as [Hch Hs].
  cbn [no_hyphen_run] in Hrun. apply Bool.andb_true_iff in Hrun as [Hpair Hrun].
  destruct (slug_char_kept ch Hch) as (_ & _ & _ & Hsp).
  cbn [collapse_runs]. rewrite Hsp, Bool.orb_false_r.
  destruct (is_hyphen ch) eqn:Hhy.
  - cbn [starts_hyphen] in Hb. rewrite Hhy in Hb.
    destruct b; [now specialize (Hb eq_refl)|].
    apply Ascii.eqb_eq in Hhy as ->. f_equal. apply IH; [assumption..|].
    intros _. cbn [andb] in Hpair. now apply Bool.negb_true_iff in Hpair.
  - f_equal. apply IH; [assumption..|discriminate].
Qed.

(** A run counts once, however long it is. *)
Lemma collapse_runs_in_run sep rest :
  all_chars is_separator sep = true ->
  collapse_runs true (sep +:+ rest) = collapse_runs true rest.
Proof.
  induction sep as [|ch sep IH]; [reflexivity|]. cbn [all_chars].
  intros [Hch Hsep]%Bool.andb_true_iff. rewrite append_cons. cbn [collapse_runs].
  unfold is_separator in Hch. rewrite Hch. now apply IH.
Qed.

Lemma collapse_runs_separators sep : forall s b rest,
  str_empty sep = false -> all_chars is_separator sep = true ->
  collapse_runs b (s +:+ sep +:+ rest) = collapse_runs b (s +:+ "-" +:+ rest).
Proof.
  intros s b rest Hne Hsep. revert b. induction s as [|ch s IH]; intros b.
  - destruct sep as [|ch sep]; [discriminate|].
    cbn [all_chars] in Hsep. apply Bool.andb_true_iff in Hsep as [Hch Hsep].
    change ("" +:+ String ch sep +:+ rest) with (String ch (sep +:+ rest)).
    change ("" +:+ "-" +:+ rest) with (String "-" rest).
    cbn [collapse_runs]. unfold is_separator in Hch. rewrite Hch.
    change (is_hyphen "-" || is_space "-") with true. cbn iota.
    now rewrite collapse_runs_in_run.
  - rewrite !append_cons. cbn [collapse_runs].
    destruct (is_hyphen ch || is_space ch); [destruct b|]; now rewrite IH.
Qed.

(** *** The two ends *)

Lemma lstrip_collapse_runs s :
  lstrip (collapse_runs true s) = lstrip (collapse_runs false s).
Proof.
  destruct s as [|ch s]; [reflexivity|]. cbn [collapse_runs].
  now destruct (is_hyphen ch || is_space ch).
Qed.

Lemma lstrip_collapse_runs_stripped e : forall b rest,
  all_chars is_stripped e = true ->
  lstrip (collapse_runs b (e +:+ rest)) = lstrip (collapse_runs false rest).
Proof.
  induction e as [|ch e IH]; intros b rest He.
  - change ("" +:+ rest) with rest. destruct b; [apply lstrip_collapse_runs|reflexivity].
  - cbn [all_chars] in He. apply Bool.andb_true_iff in He as [Hch He].
    destruct (stripped_kept ch Hch) as (_ & _ & _ & Hsep).
    rewrite append_cons. cbn [collapse_runs]. rewrite Hsep.
    destruct (is_hyphen ch) eqn:Hhy.
    + destruct b; [now apply IH|]. cbn [lstrip].
      change (is_stripped "-") with true. cbn iota. now apply IH.
    + cbn [lstrip]. rewrite Hch. now apply IH.
Qed.

Lemma all_chars_lstrip P s : all_chars P s = true -> all_chars P (lstrip s) = true.
Proof.
  induction s as [|ch s IH]; [reflexivity|]. intros Hs. cbn [lstrip].
  destruct (is_stripped ch); [|exact Hs].
  cbn [all_chars] in Hs. apply Bool.andb_true_iff in Hs as [_ Hs]. now apply IH.
Qed.

Lemma no_hyphen_run_lstrip s : no_hyphen_run s = true -> no_hyphen_run (lstrip s) = true.
Proof.
  induction s as [|ch s IH]; [reflexivity|]. intros Hs. cbn [lstrip].
  destruct (is_stripped ch); [|exact Hs].
  cbn [no_hyphen_run] in Hs. apply Bool.andb_true_iff in Hs as [_ Hs]. now apply IH.
Qed.

Lemma first_char_lstrip s : is_edge (first_char (lstrip s)) = true.
Proof.
  induction s as [|ch s IH]; [reflexivity|]. cbn [lstrip].
  destruct (is_stripped ch) eqn:Hch; [exact IH|].
  cbn [first_char is_edge]. unfold is_stripped in Hch. now rewrite Hch.
Qed.

Lemma lstrip_same s : is_edge (first_char s) = true -> lstrip s = s.
Proof.
  destruct s as [|ch s]; [reflexivity|]. cbn [first_char is_edge lstrip].
  intros Hch. apply Bool.negb_true_iff in Hch. unfold is_stripped. now rewrite Hch.
Qed.

Lemma lstrip_stripped e : all_chars is_stripped e = true -> lstrip e = "".
Proof.
  induction e as [|ch e IH]; [reflexivity|]. cbn [all_chars lstrip].
  intros [Hch He]%Bool.andb_true_iff. rewrite Hch. now apply IH.
Qed.

Lemma lstrip_app_stripped e : forall s,
  all_chars is_stripped e = true ->
  exists e', all_chars is_stripped e' = true /\ lstrip (s +:+ e) = lstrip s +:+ e'.
Proof.
  intros s He. induction s as [|ch s IH].
  - exists "". split; [reflexivity|]. now apply lstrip_stripped.
  - rewrite append_cons. cbn [lstrip]. destruct (is_stripped ch); [exact IH|].
    exists e. now rewrite append_cons.
Qed.

Lemma rstrip_stripped e : all_chars is_stripped e = true -> rstrip e = "".
Proof.
  induction e as [|ch e IH]; [reflexivity|]. cbn [all_chars rstrip].
  intros [Hch He]%Bool.andb_true_iff. now rewrite (IH He), Hch.
Qed.

Lemma rstrip_app_stripped e : forall s,
  all_chars is_stripped e = true -> rstrip (s +:+ e) = rstrip s.
Proof.
  intros s He. induction s as [|ch s IH].
  - now apply rstrip_stripped.
  - rewrite append_cons. cbn [rstrip]. now rewrite IH.
Qed.

Lemma all_chars_rstrip P s : all_chars P s = true -> all_chars P (rstrip s) = true.
Proof.
  induction s as [|ch s IH]; [reflexivity|]. cbn [all_chars rstrip].
  intros [Hch Hs]%Bool.andb_true_iff.
  destruct (is_stripped ch && str_empty (rstrip s)); [reflexivity|].
  cbn [all_chars]. now rewrite Hch, (IH Hs).
Qed.

Lemma starts_hyphen_rstrip s :
  starts_hyphen s = false -> starts_hyphen (rstrip s) = false.
Proof.
  destruct s as [|ch s]; [reflexivity|]. cbn [starts_hyphen rstrip]. intros Hch.
  now destruct (is_stripped ch && str_empty (rstrip s)).
Qed.

Lemma no_hyphen_run_rstrip s : no_hyphen_run s = true -> no_hyphen_run (rstrip s) = true.
Proof.
  induction s as [|ch s IH]; [reflexivity|]. cbn [no_hyphen_run rstrip].
  intros [Hpair Hs]%Bool.andb_true_iff.
  destruct (is_stripped ch && str_empty (rstrip s)); [reflexivity|].
  cbn [no_hyphen_run]. rewrite (IH Hs), Bool.andb_true_r.
  destruct (is_hyphen ch); [|reflexivity]. cbn [andb] in *.
  apply Bool.negb_true_iff in Hpair. now rewrite (starts_hyphen_rstrip s Hpair).
Qed.

Lemma first_char_rstrip s :
  is_edge (first_char s) = true -> is_edge (first_char (rstrip s)) = true.
Proof.
  destruct s as [|ch s]; [reflexivity|]. cbn [first_char rstrip]. intros Hch.
  now destruct (is_stripped ch && str_empty (rstrip s)).
Qed.

Lemma last_char_rstrip s : is_edge (last_char (rstrip s)) = true.
Proof.
  induction s as [|ch s IH]; [reflexivity|]. cbn [rstrip].
  destruct (is_stripped ch) eqn:Hch; destruct (str_empty (rstrip s)) eqn:Hr;
    cbn [andb last_char]; rewrite ?Hr; try reflexivity; try exact IH.
  cbn [is_edge]. unfold is_stripped in Hch. now rewrite Hch.
Qed.

Lemma rstrip_same s : is_edge (last_char s) = true -> rstrip s = s.
Proof.
  induction s as [|ch s IH]; [reflexivity|]. cbn [last_char rstrip].
  destruct s as [|ch' s].
  - cbn [str_empty is_edge rstrip]. intros Hch. apply Bool.negb_true_iff in Hch.
    unfold is_stripped. now rewrite Hch.
  - cbn [str_empty]. intros Hs. rewrite (IH Hs). cbn [str_empty].
    now rewrite Bool.andb_false_r.
Qed.

(** What [collapse_runs] makes of trailing hyphens and underscores is a
    string of hyphens and underscores. *)
Lemma collapse_runs_stripped e : forall b,
  all_chars is_stripped e = true -> all_chars is_stripped (collapse_runs b e) = true.
Proof.
  induction e as [|ch e IH]; intros b He; [reflexivity|].
  cbn [all_chars] in He. apply Bool.andb_true_iff in He as [Hch He].
  cbn [collapse_runs].
  destruct (is_hyphen ch || is_space ch); [destruct b|]; cbn [all_chars];
    rewrite ?Hch, ?IH by assumption; reflexivity.
Qed.

Lemma collapse_runs_app_stripped e : forall s b,
  all_chars is_stripped e = true ->
  exists e', all_chars is_stripped e' = true
    /\ collapse_runs b (s +:+ e) = collapse_runs b s +:+ e'.
Proof.
  intros s b He. revert b. induction s as [|ch s IH]; intros b.
  - exists (collapse_runs b e). split; [now apply collapse_runs_stripped|reflexivity].
  - rewrite append_cons. cbn [collapse_runs].
    destruct (is_hyphen ch || is_space ch); [destruct b|].
    + exact (IH true).
    + destruct (IH true) as (e' & He' & ->). now exists e'.
    + destruct (IH false) as (e' & He' & ->). now exists e'.
Qed.

(** *** [slugify] as a whole *)

(** What [slugify] returns has the shape of a slug. *)
Lemma django_slugify_normal t : normal_slug (django_slugify t) = true.
Proof.
  rewrite django_slugify_stages. unfold normal_slug.
  destruct (collapse_runs_slug (slugify_kept t) false (slugify_kept_chars t))
    as (Hchars & Hrun & _).
  rewrite all_chars_rstrip by now apply all_chars_lstrip.
  rewrite no_hyphen_run_rstrip by now apply no_hyphen_run_lstrip.
  rewrite first_char_rstrip by apply first_char_lstrip.
  now rewrite last_char_rstrip.
Qed.

(** What has the shape of a slug is returned as it is. *)
Lemma django_slugify_same t : normal_slug t = true -> django_slugify t = t.
Proof.
  unfold normal_slug.
  intros [[[Hchars Hrun]%Bool.andb_true_iff Hfirst]%Bool.andb_true_iff Hlast]%Bool.andb_true_iff.
  rewrite django_slugify_stages.
  rewrite (slugify_kept_same is_slug_char t) by
    (try assumption; intros ch Hch; destruct (slug_char_kept ch Hch) as (? & ? & ? & _); auto).
  rewrite collapse_runs_same by (try assumption; discriminate).
  rewrite lstrip_same by assumption. now apply rstrip_same.
Qed.

Lemma normal_slug_ascii t : normal_slug t = true -> all_chars is_ascii t = true.
Proof.
  unfold normal_slug.
  intros [[[Hchars _]%Bool.andb_true_iff _]%Bool.andb_true_iff _]%Bool.andb_true_iff.
  revert Hchars. apply all_chars_impl. intros ch Hch. apply (slug_char_kept ch Hch).
Qed.

(** Letters count without their case. *)
Lemma django_slugify_lower t : django_slugify (lower t) = django_slugify t.
Proof. now rewrite !django_slugify_stages, slugify_kept_lower. Qed.

(** Punctuation is removed where it stands; nothing is put in its place. *)
Lemma django_slugify_punctuation t1 p t2 :
  all_chars is_punctuation p = true ->
  django_slugify (t1 +:+ p +:+ t2) = django_slugify (t1 +:+ t2).
Proof.
  intros Hp. rewrite !django_slugify_stages, !slugify_kept_app.
  now rewrite (slugify_kept_punctuation p Hp).
Qed.

(** A run of hyphens and white space counts as one hyphen. *)
Lemma django_slugify_separators t1 sep t2 :
  str_empty sep = false -> all_chars is_separator sep = true ->
  django_slugify (t1 +:+ sep +:+ t2) = django_slugify (t1 +:+ "-" +:+ t2).
Proof.
  intros Hne Hsep. rewrite !django_slugify_stages, !slugify_kept_app.
  rewrite (slugify_kept_same is_separator sep) by (try assumption; apply separator_kept).
  change (slugify_kept "-") with "-"%string.
  now rewrite collapse_runs_separators.
Qed.

(** Hyphens and underscores at the start are removed. *)
Lemma django_slugify_leading e t :
  all_chars is_stripped e = true -> django_slugify (e +:+ t) = django_slugify t.
Proof.
  intros He. rewrite !django_slugify_stages, slugify_kept_app.
  rewrite (slugify_kept_same is_stripped e)
    by (try assumption; intros ch Hch; destruct (stripped_kept ch Hch) as (? & ? & ? & _); auto).
  now rewrite lstrip_collapse_runs_stripped.
Qed.

(** Hyphens and underscores at the end are removed. *)
Lemma django_slugify_trailing t e :
  all_chars is_stripped e = true -> django_slugify (t +:+ e) = django_slugify t.
Proof.
  intros He. rewrite !django_slugify_stages, slugify_kept_app.
  rewrite (slugify_kept_same is_stripped e)
    by (try assumption; intros ch Hch; destruct (stripped_kept ch Hch) as (? & ? & ? & _); auto).
  destruct (collapse_runs_app_stripped e (slugify_kept t) false He) as (e1 & He1 & ->).
  destruct (lstrip_app_stripped e1 (collapse_runs false (slugify_kept t)) He1)
    as (e2 & He2 & ->).
  now apply rstrip_app_stripped.
Qed.

(** C2, as the code has it.  An article saved without a slug is stored
    with the framework's [slugify] of its title as slug when no stored
    article, soft-deleted ones included, has that slug; otherwise with that
    base followed by [-k], [k] the smallest positive number for which the
    slug is free.  The slug is that of no stored article, so slugs stay
    pairwise distinct.  On an ASCII title the base has the shape of a slug
    (lower-case letters, digits, underscores and hyphens, no two hyphens in
    a row, no hyphen or underscore at either end); a title of that shape is
    its own base; the case of letters does not count; a character other
    than a letter, a digit, an underscore, white space or a hyphen is
    removed, and nothing is put in its place; a run of hyphens and white
    space counts as one hyphen; hyphens and underscores at either end are
    removed. *)
Theorem slug_allocation (slugify : string -> string) (now : Z)
    (self : Article) (tbl : list Article) (c : Cache) :
  slugify_on_ascii slugify ->
  str_empty (slug (fields self)) = true ->
  let o := Article_save slugify now None self tbl c in
  let base_slug := slugify (title (fields self)) in
  let s := slug (fields (out_self o)) in
  (exists id, pk (out_self o) = Some id /\ get_pk id (out_table o) = Some (out_self o))
  /\ (forall row, In row tbl -> slug (fields row) <> s)
  /\ (slug_exists tbl base_slug = false -> s = base_slug)
  /\ (slug_exists tbl base_slug = true ->
      exists k, (1 <= k)%nat /\ s = suffixed base_slug k
        /\ (forall j, (1 <= j < k)%nat -> slug_exists tbl (suffixed base_slug j) = true))
  /\ (pk self = None -> List.NoDup (slugs tbl) -> List.NoDup (slugs (out_table o)))
  /\ (all_chars is_ascii (title (fields self)) = true ->
      base_slug = django_slugify (title (fields self))
      /\ normal_slug base_slug = true
      /\ (normal_slug (title (fields self)) = true -> base_slug = title (fields self))
      /\ base_slug = slugify (lower (title (fields self)))
      /\ (forall t1 p t2, title (fields self) = t1 +:+ p +:+ t2 ->
            all_chars is_punctuation p = true -> base_slug = slugify (t1 +:+ t2))
      /\ (forall t1 sep t2, title (fields self) = t1 +:+ sep +:+ t2 ->
            str_empty sep = false -> all_chars is_separator sep = true ->
            base_slug = slugify (t1 +:+ "-" +:+ t2))
      /\ (forall e t, title (fields self) = e +:+ t ->
            all_chars is_stripped e = true -> base_slug = slugify t)
      /\ (forall t e, title (fields self) = t +:+ e ->
            all_chars is_stripped e = true -> base_slug = slugify t)).
Proof.
  intros Hagree Hempty.
  pose proof (Article_save_allocates slugify now self tbl c Hempty) as Hsave.
  cbn zeta in *. destruct Hsave as (Hpk & Hfresh & Hbase & Hsuffix & Hnodup).
  do 5 (split; [assumption|]).
  intros Hascii. rewrite (Hagree _ Hascii).
  split; [reflexivity|]. split; [apply django_slugify_normal|].
  split; [apply django_slugify_same|].
  split; [rewrite Hagree by (now rewrite all_ascii_lower); now rewrite django_slugify_lower|].
  split; [|split; [|split]].
  - intros t1 p t2 Ht Hp. rewrite Ht in Hascii |- *.
    rewrite !all_chars_app in Hascii.
    apply Bool.andb_true_iff in Hascii as [H1 [_ H2]%Bool.andb_true_iff].
    rewrite Hagree by now rewrite all_chars_app, H1, H2.
    now apply django_slugify_punctuation.
  - intros t1 sep t2 Ht Hne Hsep. rewrite Ht in Hascii |- *.
    rewrite !all_chars_app in Hascii.
    apply Bool.andb_true_iff in Hascii as [H1 [_ H2]%Bool.andb_true_iff].
    rewrite Hagree by now rewrite !all_chars_app, H1, H2.
    now apply django_slugify_separators.
  - intros e t Ht He. rewrite Ht in Hascii |- *.
    rewrite all_chars_app in Hascii. apply Bool.andb_true_iff in Hascii as [_ H2].
    rewrite Hagree by assumption. now apply django_slugify_leading.
  - intros t e Ht He. rewrite Ht in Hascii |- *.
    rewrite all_chars_app in Hascii. apply Bool.andb_true_iff in Hascii as [H1 _].
    rewrite Hagree by assumption. now apply django_slugify_trailing.
Qed.

(** The second scenario of the specification: a second title with the same
    normalized form gets the suffix 1. *)
Lemma slug_allocation_witness :
  let tbl := [article_fixture 1 "Hello World!" "hello-world" true true] in
  let o := Article_save django_slugify 7 None (new_article "Hello, World" "0123456789")
             tbl live_cache in
  slugify_on_ascii django_slugify
  /\ str_empty (slug (fields (new_article "Hello, World" "0123456789"))) = true
  /\ slug (fields (out_self o)) = "hello-world-1"
  /\ (forall row, In row tbl -> slug (fields row) <> slug (fields (out_self o))).
Proof.
  cbn zeta. split; [intros t _; reflexivity|]. split; [reflexivity|].
  split; [reflexivity|].
  exact (proj1 (proj2 (slug_allocation django_slugify 7
                         (new_article "Hello, World" "0123456789")
                         [article_fixture 1 "Hello World!" "hello-world" true true]
                         live_cache (fun t _ => eq_refl) eq_refl))).
Defined.

(** C2, as stated, fails for the titles ["a.b"] and ["a_b"].  The
    normalization of the statement replaces the full stop and the
    underscore by a hyphen and gives ["a-b"], which no stored article has;
    the article is stored with the slug ["ab"], the full stop removed, and
    with the slug ["a_b"], the underscore kept. *)
Lemma slug_base_not_hyphenated :
  let o1 := Article_save django_slugify 7 None (new_article "a.b" "0123456789")
              [] live_cache in
  let o2 := Article_save django_slugify 7 None (new_article "a_b" "0123456789")
              [] live_cache in
  specified_base_slug "a.b" = "a-b"
  /\ slug_exists [] (specified_base_slug "a.b") = false
  /\ slug (fields (out_self o1)) = "ab"
  /\ specified_base_slug "a_b" = "a-b"
  /\ slug (fields (out_self o2)) = "a_b"
  /\ ~ (slug_exists [] (specified_base_slug "a.b") = false ->
        slug (fields (out_self o1)) = specified_base_slug "a.b").
Proof.
  cbn zeta. do 5 (split; [reflexivity|]).
  intros H. specialize (H eq_refl). discriminate H.
Qed.




(** C5, as the code has it.  An article saved with content and without an
    excerpt is stored with the content itself as excerpt when the content
    has at most 200 characters (which is then [content[:200]]), and with
    the first 200 characters followed by ["..."] when it is longer. *)
Theorem excerpt_default (slugify : string -> string) (now : Z)
    (self : Article) (tbl : list Article) (c : Cache) :
  str_empty (excerpt (fields self)) = true ->
  str_empty (content (fields self)) = false ->
  let o := Article_save slugify now None self tbl c in
  let body := content (fields self) in
  (exists id, pk (out_self o) = Some id /\ get_pk id (out_table o) = Some (out_self o))
  /\ ((String.length body <= 200)%nat ->
      excerpt (fields (out_self o)) = body
      /\ excerpt (fields (out_self o)) = slice_to 200 body)
  /\ ((200 < String.length body)%nat ->
      excerpt (fields (out_self o)) = slice_to 200 body +:+ "...").
Proof.
  intros Hex Hbody. cbn zeta. rewrite Article_save_defaults.
  rewrite Model_save_fields, Article_defaults_excerpt, Hex, Hbody. cbn [andb negb].
  split; [apply Model_save_stored|]. split; intros Hlen.
  - apply Nat.ltb_ge in Hlen as Hlt. rewrite Hlt.
    split; [reflexivity | now rewrite slice_to_all].
  - apply Nat.ltb_lt in Hlen. now rewrite Hlen.
Qed.

Lemma excerpt_default_witness :
  let self := new_article "Hello" "0123456789" in
  str_empty (excerpt (fields self)) = true
  /\ str_empty (content (fields self)) = false
  /\ excerpt (fields (out_self (Article_save django_slugify 7 None self [] live_cache)))
     = "0123456789".
Proof.
  cbn zeta. split; [reflexivity|]. split; [reflexivity|].
  refine (proj1 (proj1 (proj2 (excerpt_default django_slugify 7
                                 (new_article "Hello" "0123456789") [] live_cache
                                 eq_refl eq_refl)) _)).
  cbn. lia.
Defined.

(** C5, as stated, fails for a content of 201 characters: the stored
    excerpt has 203 characters and is not [content[:200]]. *)
Lemma excerpt_longer_than_slice :
  let body := string_of_list_ascii (List.repeat "a"%char 201) in
  let o := Article_save django_slugify 7 None (new_article "Hello" body) [] live_cache in
  String.length (excerpt (fields (out_self o))) = 203%nat
  /\ excerpt (fields (out_self o)) <> slice_to 200 body.
Proof.
  cbn zeta. split; [vm_compute; reflexivity|].
  intros H. apply (f_equal String.length) in H. vm_compute in H. discriminate.
Qed.

(** ** Cache invalidation on save *)

Section DeadCache.
Context {F : Type}.
Variable receiver : Model F -> Cache -> result Cache.
Hypothesis receiver_deletes : deleting_receiver receiver.

(** On a cache that cannot be reached, [save] writes what it writes on a
    reachable one, and raises: the error of the write if the write itself
    failed, the cache error otherwise. *)
Lemma Model_save_dead now uf (self : Model F) tbl c :
  available c = false -> uf <> Some [] ->
  let o := Model_save receiver now uf self tbl c in
  let o' := Model_save receiver now uf self tbl (reachable c) in
  out_self o = out_self o' /\ out_table o = out_table o' /\ out_cache o = c
  /\ out_exn o = Some (match out_exn o' with Some e => e | None => CacheError end).
Proof.
  intros Hc Huf. cbn zeta. unfold Model_save.
  assert (Hsend : forall s t,
    let o := send_post_save receiver s t c in
    let o' := send_post_save receiver s t (reachable c) in
    out_self o = out_self o' /\ out_table o = out_table o' /\ out_cache o = c
    /\ out_exn o = Some (match out_exn o' with Some e => e | None => CacheError end)).
  { intros s t. cbn zeta. rewrite (send_post_save_dead receiver s t c receiver_deletes Hc).
    rewrite send_post_save_self, send_post_save_table.
    destruct (send_post_save_live receiver s t (reachable c) receiver_deletes eq_refl)
      as [-> _]. now cbn. }
  destruct uf as [[|col cols]|]; [congruence| |].
  - destruct (pk self) as [id|]; [|now cbn].
    destruct (get_pk id tbl); [apply Hsend | now cbn].
  - destruct (pk self) as [id|]; [destruct (get_pk id tbl)|]; apply Hsend.
Qed.

Lemma Model_save_dead_full now (self : Model F) tbl c :
  available c = false ->
  out_exn (Model_save receiver now None self tbl c) = Some CacheError.
Proof.
  intros Hc.
  destruct (Model_save_dead now None self tbl c Hc ltac:(discriminate)) as (_ & _ & _ & ->).
  now rewrite (Model_save_live receiver now self tbl (reachable c) receiver_deletes).
Qed.
End DeadCache.

(** C8, as the code has it.  The receivers delete their keys with no guard
    around the deletes.  On a cache that cannot be reached, every save of
    an article or a comment that writes (create, update, or the save of a
    soft delete, which names two columns) writes the table as it does on a
    reachable cache, leaves the cache as it was, and raises to its caller;
    a create or an update raises the cache error.  On a reachable cache a
    create or an update returns normally. *)
Theorem invalidation_error_propagates (slugify : string -> string) (now : Z)
    (uf : option (list column)) (a : Article) (articles : list Article)
    (m : Comment) (comments : list Comment) (c : Cache) :
  available c = false -> uf <> Some [] ->
  (let o := Article_save slugify now uf a articles c in
   let o' := Article_save slugify now uf a articles (reachable c) in
   out_self o = out_self o' /\ out_table o = out_table o' /\ out_cache o = c
   /\ out_exn o = Some (match out_exn o' with Some e => e | None => CacheError end))
  /\ (let o := Comment_save now uf m comments c in
      let o' := Comment_save now uf m comments (reachable c) in
      out_self o = out_self o' /\ out_table o = out_table o' /\ out_cache o = c
      /\ out_exn o = Some (match out_exn o' with Some e => e | None => CacheError end))
  /\ out_exn (Article_save slugify now None a articles c) = Some CacheError
  /\ out_exn (Comment_save now None m comments c) = Some CacheError
  /\ out_exn (Article_save slugify now None a articles (reachable c)) = None
  /\ out_exn (Comment_save now None m comments (reachable c)) = None
  /\ soft_delete (Article_save slugify) now a articles c
     = Article_save slugify now (Some [col_is_deleted; col_deleted_at])
         (set_deleted_at (Some now) (set_is_deleted true a)) articles c
  /\ soft_delete Comment_save now m comments c
     = Comment_save now (Some [col_is_deleted; col_deleted_at])
         (set_deleted_at (Some now) (set_is_deleted true m)) comments c.
Proof.
  intros Hc Huf. rewrite !Article_save_defaults. unfold Comment_save.
  split; [now apply Model_save_dead; [apply invalidate_article_cache_deleting| |]|].
  split; [now apply Model_save_dead; [apply invalidate_comment_cache_deleting| |]|].
  split; [now apply Model_save_dead_full; [apply invalidate_article_cache_deleting|]|].
  split; [now apply Model_save_dead_full; [apply invalidate_comment_cache_deleting|]|].
  split; [now apply Model_save_live; [apply invalidate_article_cache_deleting|]|].
  split; [now apply Model_save_live; [apply invalidate_comment_cache_deleting|]|].
  split; reflexivity.
Qed.

Lemma invalidation_error_propagates_witness :
  available dead_cache = false
  /\ @None (list column) <> Some []
  /\ out_exn (Article_save django_slugify 7 None (new_article "Hello" "0123456789")
                [] dead_cache) = Some CacheError.
Proof.
  split; [reflexivity|]. split; [discriminate|].
  exact (proj1 (proj2 (proj2 (invalidation_error_propagates django_slugify 7 None
           (new_article "Hello" "0123456789") [] (comment_fixture 1 1 None 0 false) []
           dead_cache eq_refl ltac:(discriminate))))).
Defined.

(** C8, as stated, fails on a cache that cannot be reached: creating an
    article, creating a comment and soft-deleting a stored comment each
    raise the cache error to the caller, after the table was written. *)
Lemma invalidation_error_not_swallowed :
  let a := new_article "Hello" "0123456789" in
  let m := comment_fixture 1 1 None 0 false in
  let o1 := Article_save django_slugify 7 None a [] dead_cache in
  let o2 := Comment_save 7 None (set_pk None m) [] dead_cache in
  let o3 := soft_delete Comment_save 7 m [m] dead_cache in
  (out_exn o1 = Some CacheError /\ length (out_table o1) = 1%nat)
  /\ (out_exn o2 = Some CacheError /\ length (out_table o2) = 1%nat)
  /\ (out_exn o3 = Some CacheError /\ List.map is_deleted (out_table o3) = [true])
  /\ ~ (out_exn o1 = None).
Proof. cbn zeta. repeat split; discriminate. Qed.

(** ** Soft delete and restore *)

Lemma clear_deleted_active {F : Type} (row : Model F) :
  is_deleted row = false -> deleted_at row = None -> clear_deleted row = row.
Proof. destruct row. cbn. now intros -> ->. Qed.

Section SoftDeleteFacts.
Context {F : Type}.
Variable receiver : Model F -> Cache -> result Cache.
Variable defaults : Model F -> list (Model F) -> Model F.
Hypothesis receiver_deletes : deleting_receiver receiver.
Hypothesis defaults_mixins : forall self tbl, same_mixins (defaults self tbl) self.

Let flags : list column := [col_is_deleted; col_deleted_at].

Lemma save_flags now (self : Model F) tbl c id row :
  available c = true -> pk self = Some id -> get_pk id tbl = Some row ->
  let o := overridden_save receiver defaults now (Some flags) self tbl c in
  out_exn o = None /\ available (out_cache o) = true
  /\ out_self o = defaults self tbl
  /\ out_table o
     = update_pk id (fun r => set_deleted_at (deleted_at self)
                                (set_is_deleted (is_deleted self) r)) tbl.
Proof.
  intros Hc Hpk Hget. cbn zeta. unfold overridden_save, Model_save.
  destruct (defaults_mixins self tbl) as (Hp & _ & _ & Hd & Ha).
  rewrite Hp, Hpk. cbn [flags has_column existsb column_eqb orb]. rewrite Hget.
  rewrite send_post_save_self, send_post_save_table.
  destruct (send_post_save_live receiver (defaults self tbl)
              (update_pk id (write_columns (defaults self tbl) flags) tbl) c
              receiver_deletes Hc) as [He Hav].
  repeat split; try assumption.
  unfold write_columns. cbn [flags fold_left write_column]. now rewrite Hd, Ha.
Qed.

Lemma soft_delete_then_restore now1 now2 (self : Model F) tbl c id row :
  available c = true -> pk self = Some id -> get_pk id tbl = Some row ->
  let o1 := soft_delete (overridden_save receiver defaults) now1 self tbl c in
  let o2 := restore (overridden_save receiver defaults) now2 (out_self o1) (out_table o1) (out_cache o1) in
  (out_exn o1 = None /\ is_deleted (out_self o1) = true
   /\ deleted_at (out_self o1) = Some now1
   /\ get_pk id (out_table o1) = Some (mark_deleted now1 row))
  /\ out_exn o2 = None
  /\ same_mixins (out_self o2) (clear_deleted self)
  /\ out_self o2
     = defaults (clear_deleted (defaults (mark_deleted now1 self) tbl)) (out_table o1)
  /\ out_table o2 = update_pk id clear_deleted tbl.
Proof.
  intros Hc Hpk Hget. cbn zeta. unfold soft_delete.
  destruct (save_flags now1 (set_deleted_at (Some now1) (set_is_deleted true self))
              tbl c id row Hc Hpk Hget) as (He1 & Hav1 & Hs1 & Ht1).
  fold flags. cbn [deleted_at is_deleted set_deleted_at set_is_deleted] in Ht1.
  set (o1 := overridden_save receiver defaults now1 (Some flags) _ tbl c) in *.
  destruct (defaults_mixins (set_deleted_at (Some now1) (set_is_deleted true self)) tbl)
    as (Hp & Hcr & Hup & Hd & Ha).
  assert (Hget1 : get_pk id (out_table o1) = Some (mark_deleted now1 row)).
  { rewrite Ht1, get_pk_update_pk, Hget by (intros; assumption). reflexivity. }
  split.
  { rewrite Hs1. repeat split; assumption. }
  unfold restore. fold flags.
  assert (Hpk1 : pk (set_deleted_at None (set_is_deleted false (out_self o1))) = Some id).
  { cbn [pk set_deleted_at set_is_deleted]. rewrite Hs1, Hp. exact Hpk. }
  destruct (save_flags now2 (set_deleted_at None (set_is_deleted false (out_self o1)))
              (out_table o1) (out_cache o1) id _ Hav1 Hpk1 Hget1)
    as (He2 & _ & Hs2 & Ht2).
  split; [exact He2|]. split; [|split].
  - rewrite Hs2.
    destruct (defaults_mixins (set_deleted_at None (set_is_deleted false (out_self o1)))
                (out_table o1)) as (Hp2 & Hcr2 & Hup2 & Hd2 & Ha2).
    unfold same_mixins. rewrite Hp2, Hcr2, Hup2, Hd2, Ha2.
    unfold clear_deleted.
    cbn [pk created_at updated_at is_deleted deleted_at set_deleted_at set_is_deleted].
    rewrite Hs1, Hp, Hcr, Hup.
    cbn [pk created_at updated_at is_deleted deleted_at set_deleted_at set_is_deleted].
    repeat split.
  - rewrite Hs2, Hs1. reflexivity.
  - rewrite Ht2, Ht1. cbn [deleted_at is_deleted set_deleted_at set_is_deleted].
    rewrite update_pk_compose by (intros; assumption). reflexivity.
Qed.
End SoftDeleteFacts.

Lemma Article_defaults_mixins slugify (self : Article) tbl :
  same_mixins (Article_defaults slugify self tbl) self.
Proof.
  unfold Article_defaults, same_mixins.
  destruct (str_empty (slug (fields self)));
    match goal with |- context [if ?b then _ else _] => destruct b end;
    cbn; repeat split.
Qed.

Lemma Article_defaults_set slugify (self : Article) tbl :
  str_empty (slug (fields self)) = false ->
  str_empty (excerpt (fields self)) = false ->
  Article_defaults slugify self tbl = self.
Proof. intros Hs He. unfold Article_defaults. now rewrite Hs, He. Qed.

Lemma Comment_soft_delete_then_restore now1 now2 (self : Comment) tbl c id row :
  available c = true -> pk self = Some id -> get_pk id tbl = Some row ->
  let o1 := soft_delete Comment_save now1 self tbl c in
  let o2 := restore Comment_save now2 (out_self o1) (out_table o1) (out_cache o1) in
  (out_exn o1 = None /\ is_deleted (out_self o1) = true
   /\ deleted_at (out_self o1) = Some now1
   /\ get_pk id (out_table o1) = Some (mark_deleted now1 row))
  /\ out_exn o2 = None
  /\ same_mixins (out_self o2) (clear_deleted self)
  /\ out_self o2 = clear_deleted (mark_deleted now1 self)
  /\ out_table o2 = update_pk id clear_deleted tbl.
Proof.
  exact (soft_delete_then_restore invalidate_comment_cache (fun s _ => s)
           invalidate_comment_cache_deleting
           (fun s _ => conj eq_refl (conj eq_refl (conj eq_refl (conj eq_refl eq_refl))))
           now1 now2 self tbl c id row).
Qed.

Lemma Article_soft_delete_then_restore slugify now1 now2 (self : Article) tbl c id row :
  available c = true -> pk self = Some id -> get_pk id tbl = Some row ->
  let o1 := soft_delete (Article_save slugify) now1 self tbl c in
  let o2 := restore (Article_save slugify) now2
              (out_self o1) (out_table o1) (out_cache o1) in
  (out_exn o1 = None /\ is_deleted (out_self o1) = true
   /\ deleted_at (out_self o1) = Some now1
   /\ get_pk id (out_table o1) = Some (mark_deleted now1 row))
  /\ out_exn o2 = None
  /\ same_mixins (out_self o2) (clear_deleted self)
  /\ out_self o2
     = Article_defaults slugify
         (clear_deleted (Article_defaults slugify (mark_deleted now1 self) tbl))
         (out_table o1)
  /\ out_table o2 = update_pk id clear_deleted tbl.
Proof.
  exact (soft_delete_then_restore invalidate_article_cache (Article_defaults slugify)
           invalidate_article_cache_deleting (Article_defaults_mixins slugify)
           now1 now2 self tbl c id row).
Qed.

(** C4, as the code has it.  For a stored article or comment, on a cache
    that can be reached, [soft_delete] then [restore] both return
    normally; in between the instance and the stored row are marked
    deleted at the time of the call; afterwards [is_deleted] is false and
    [deleted_at] is null in the instance and in the stored row, and every
    other column, [updated_at] included, is what it was before: the two
    saves write [is_deleted] and [deleted_at] only, so [updated_at] does
    not advance.  A row that was active is stored unchanged; a comment
    that was active is unchanged in memory, and so is an article whose
    slug and excerpt are set. *)
Theorem soft_delete_restore (slugify : string -> string) (now1 now2 id : Z) (c : Cache) :
  available c = true ->
  (forall (self : Comment) tbl row,
     pk self = Some id -> get_pk id tbl = Some row ->
     let o1 := soft_delete Comment_save now1 self tbl c in
     let o2 := restore Comment_save now2 (out_self o1) (out_table o1) (out_cache o1) in
     out_exn o1 = None /\ out_exn o2 = None
     /\ is_deleted (out_self o1) = true /\ deleted_at (out_self o1) = Some now1
     /\ get_pk id (out_table o1) = Some (mark_deleted now1 row)
     /\ out_self o2 = clear_deleted self
     /\ updated_at (out_self o2) = updated_at self
     /\ get_pk id (out_table o2) = Some (clear_deleted row)
     /\ out_table o2 = update_pk id clear_deleted tbl
     /\ (is_deleted self = false -> deleted_at self = None -> out_self o2 = self)
     /\ (is_deleted row = false -> deleted_at row = None ->
         get_pk id (out_table o2) = Some row))
  /\ (forall (self : Article) tbl row,
        pk self = Some id -> get_pk id tbl = Some row ->
        let o1 := soft_delete (Article_save slugify) now1 self tbl c in
        let o2 := restore (Article_save slugify) now2
                    (out_self o1) (out_table o1) (out_cache o1) in
        out_exn o1 = None /\ out_exn o2 = None
        /\ is_deleted (out_self o1) = true /\ deleted_at (out_self o1) = Some now1
        /\ get_pk id (out_table o1) = Some (mark_deleted now1 row)
        /\ same_mixins (out_self o2) (clear_deleted self)
        /\ updated_at (out_self o2) = updated_at self
        /\ get_pk id (out_table o2) = Some (clear_deleted row)
        /\ out_table o2 = update_pk id clear_deleted tbl
        /\ (is_deleted self = false -> deleted_at self = None ->
            str_empty (slug (fields self)) = false ->
            str_empty (excerpt (fields self)) = false -> out_self o2 = self)
        /\ (is_deleted row = false -> deleted_at row = None ->
            get_pk id (out_table o2) = Some row)).
Proof.
  intros Hc. split.
  - intros self tbl row Hpk Hget. cbn zeta.
    destruct (Comment_soft_delete_then_restore now1 now2 self tbl c id row Hc Hpk Hget)
      as ((He1 & Hd1 & Ha1 & Hg1) & He2 & Hm & Hs2 & Ht2).
    cbn zeta in *.
    set (o1 := soft_delete Comment_save now1 self tbl c) in *.
    set (o2 := restore Comment_save now2 (out_self o1) (out_table o1) (out_cache o1)) in *.
    assert (Hg2 : get_pk id (out_table o2) = Some (clear_deleted row)).
    { rewrite Ht2, get_pk_update_pk, Hget by (intros; assumption). reflexivity. }
    repeat (split; [assumption|]).
    split; [now rewrite Hs2|]. split; [exact Hg2|].
    split; [exact Ht2|]. split.
    + intros Hd Ha. rewrite Hs2. now apply (clear_deleted_active self).
    + intros Hd Ha. now rewrite Hg2, clear_deleted_active.
  - intros self tbl row Hpk Hget. cbn zeta.
    destruct (Article_soft_delete_then_restore slugify now1 now2 self tbl c id row
                Hc Hpk Hget) as ((He1 & Hd1 & Ha1 & Hg1) & He2 & Hm & Hs2 & Ht2).
    cbn zeta in *.
    set (o1 := soft_delete (Article_save slugify) now1 self tbl c) in *.
    set (o2 := restore (Article_save slugify) now2
                 (out_self o1) (out_table o1) (out_cache o1)) in *.
    assert (Hg2 : get_pk id (out_table o2) = Some (clear_deleted row)).
    { rewrite Ht2, get_pk_update_pk, Hget by (intros; assumption). reflexivity. }
    repeat (split; [assumption|]).
    split; [apply Hm|]. split; [exact Hg2|].
    split; [exact Ht2|]. split.
    + intros Hd Ha Hsl Hex. rewrite Hs2.
      rewrite (Article_defaults_set slugify (mark_deleted now1 self)) by assumption.
      rewrite Article_defaults_set by assumption.
      now apply (clear_deleted_active self).
    + intros Hd Ha. now rewrite Hg2, clear_deleted_active.
Qed.

Lemma soft_delete_restore_witness :
  let m := comment_fixture 1 5 None 3 false in
  let o1 := soft_delete Comment_save 10 m [m] live_cache in
  let o2 := restore Comment_save 20 (out_self o1) (out_table o1) (out_cache o1) in
  available live_cache = true
  /\ updated_at (out_self o2) = updated_at m
  /\ get_pk 1 (out_table o2) = Some m.
Proof.
  cbn zeta. split; [reflexivity|].
  destruct (soft_delete_restore django_slugify 10 20 1 live_cache eq_refl) as [HC _].
  specialize (HC (comment_fixture 1 5 None 3 false) [comment_fixture 1 5 None 3 false]
                (comment_fixture 1 5 None 3 false) eq_refl eq_refl).
  cbn zeta in HC.
  destruct HC as (_ & _ & _ & _ & _ & _ & Hup & _ & _ & _ & Hrow).
  split; [exact Hup | exact (Hrow eq_refl eq_refl)].
Defined.

(** C4, as stated, fails in its clause on [updated_at]: a comment last
    updated at time 3, soft-deleted at time 10 and restored at time 20, is
    still marked as updated at time 3, in memory and in the table. *)
Lemma soft_delete_restore_keeps_updated_at :
  let m := comment_fixture 1 5 None 3 false in
  let o1 := soft_delete Comment_save 10 m [m] live_cache in
  let o2 := restore Comment_save 20 (out_self o1) (out_table o1) (out_cache o1) in
  out_exn o1 = None /\ out_exn o2 = None
  /\ updated_at m = 3
  /\ updated_at (out_self o2) = 3
  /\ List.map updated_at (out_table o2) = [3]
  /\ ~ (updated_at m < updated_at (out_self o2)).
Proof. cbn zeta. repeat split. vm_compute. discriminate. Qed.

(** ** Comment threading *)

Lemma In_take {A : Type} (x : A) n : forall l, In x (take n l) -> In x l.
Proof.
  induction n as [|n IH]; intros [|y l] H; cbn in *; try contradiction.
  destruct H as [->|H]; [now left | right; now apply IH].
Qed.

Lemma replies_queryset_spec id tbl r :
  In r (replies_queryset id tbl) ->
  In r tbl /\ parent (fields r) = Some id /\ is_deleted r = false.
Proof.
  unfold replies_queryset, Manager_get_queryset. intros H.
  apply In_take in H.
  apply (Permutation_in _ (merge_sort_Permutation newer_first _)) in H.
  apply filter_In in H as [H Hlive]. apply filter_In in H as [Hin Hchild].
  apply Bool.eqb_prop in Hlive. unfold is_child_of in Hchild.
  destruct (parent (fields r)) as [p|]; [|discriminate].
  apply Z.eqb_eq in Hchild. subst p. auto.
Qed.

(** C6. On a comment that is itself a reply, [get_replies] returns the
    empty sequence, whatever children the comment has.  On a stored
    top-level comment it returns the rendering of at most 5 rows, each a
    child of the comment in the table that is not deleted. *)
Theorem get_replies_spec (obj : Comment) (tbl : list Comment) :
  (parent (fields obj) <> None -> get_replies obj tbl = Ok [])
  /\ (parent (fields obj) = None ->
      forall id, pk obj = Some id ->
      exists rows,
        get_replies obj tbl = Ok (List.map CommentListSerializer_data rows)
        /\ (length (List.map CommentListSerializer_data rows) <= 5)%nat
        /\ (forall r, In r rows ->
              In r tbl /\ parent (fields r) = Some id /\ is_deleted r = false)).
Proof.
  unfold get_replies, is_reply. split.
  - intros Hp. destruct (parent (fields obj)); [reflexivity | congruence].
  - intros -> id ->. exists (replies_queryset id tbl).
    split; [reflexivity|]. split.
    + rewrite length_map. unfold replies_queryset. apply firstn_le_length.
    + intros r. apply replies_queryset_spec.
Qed.

(** A reply with a child of its own, and a top-level comment with seven
    children, one of them deleted: the newest five that are left. *)
Example get_replies_example :
  let top := comment_fixture 1 5 None 0 false in
  let reply := comment_fixture 2 5 (Some 1) 1 false in
  let nested := comment_fixture 3 5 (Some 2) 2 false in
  let tbl := [top; reply; nested;
              comment_fixture 4 5 (Some 1) 3 true; comment_fixture 5 5 (Some 1) 4 false;
              comment_fixture 6 5 (Some 1) 5 false; comment_fixture 7 5 (Some 1) 6 false;
              comment_fixture 8 5 (Some 1) 7 false; comment_fixture 9 5 (Some 1) 8 false] in
  get_replies reply tbl = Ok []
  /\ (l ← get_replies top tbl; Ok (List.map data_id l))
     = Ok [Some 9; Some 8; Some 7; Some 6; Some 5].
Proof. cbn zeta. split; vm_compute; reflexivity. Qed.

(** ** Parent validation *)

(** The check passes exactly when the text of the payload's [article] is
    the decimal text of the key of the parent's article. *)
Lemma validate_parent_passes raw (p : Comment) :
  validate_parent raw (Some p) = Ok (Some p)
  <-> py_str raw = pretty (article (fields p)).
Proof.
  unfold validate_parent.
  destruct (String.eqb (pretty (article (fields p))) (py_str raw)) eqn:E; cbn [negb].
  - apply String.eqb_eq in E. split; [congruence | reflexivity].
  - apply String.eqb_neq in E. split; [discriminate | congruence].
Qed.

Lemma validate_parent_none raw : validate_parent raw None = Ok None.
Proof. reflexivity. Qed.

(** When the payload names the article [a] by its key, as a number or as
    its decimal text, a parent of another article is rejected, a parent of
    the same article passes, and a rejected create writes nothing. *)
Lemma validate_parent_named raw a (p : Comment) :
  raw = Some (PyInt a) \/ raw = Some (PyStr (pretty a)) ->
  (article (fields p) <> a -> validate_parent raw (Some p) = Raise parent_error)
  /\ (article (fields p) = a -> validate_parent raw (Some p) = Ok (Some p))
  /\ (article (fields p) <> a -> forall now user text tbl c,
        create_comment now user raw a text (Some p) tbl c = (tbl, c, Some parent_error)).
Proof.
  intros Hraw.
  assert (Hstr : py_str raw = pretty a) by (destruct Hraw as [->| ->]; reflexivity).
  assert (Hrej : article (fields p) <> a -> validate_parent raw (Some p) = Raise parent_error).
  { intros Hne. unfold validate_parent. rewrite Hstr.
    destruct (String.eqb (pretty (article (fields p))) (pretty a)) eqn:E; [|reflexivity].
    apply String.eqb_eq, (inj pretty) in E. contradiction. }
  split; [exact Hrej|]. split.
  - intros <-. now apply validate_parent_passes.
  - intros Hne now user text tbl c. unfold create_comment. now rewrite (Hrej Hne).
Qed.

(** C7 at a partial update that sends [parent] and not [article]: the
    stored comment 3 and the parent 2 belong to the same article 5, and
    the check rejects the parent, because the payload has no [article] and
    [str(None)] is not ["5"]. *)
Lemma validate_parent_rejects_same_article :
  let p := comment_fixture 2 5 None 1 false in
  let instance := comment_fixture 3 5 None 2 false in
  article (fields p) = article (fields instance)
  /\ validate_parent None (Some p) = Raise parent_error
  /\ partial_update_parent 9 instance None (Some p) [p; instance] live_cache
     = ([p; instance], live_cache, Some parent_error).
Proof. cbn zeta. repeat split. Qed.

(** The same on a create whose payload writes the key as ["05"]. *)
Example validate_parent_leading_zero :
  validate_parent (Some (PyStr "05")) (Some (comment_fixture 2 5 None 1 false))
  = Raise parent_error.
Proof. reflexivity. Qed.

(** ** Title validation *)

Lemma lower_length s : String.length (lower s) = String.length s.
Proof. induction s as [|ch s IH]; cbn; [reflexivity | now rewrite IH]. Qed.

Lemma iexact_length a b : iexact a b = true -> String.length a = String.length b.
Proof.
  unfold iexact. intros H. apply String.eqb_eq in H.
  apply (f_equal String.length) in H. now rewrite !lower_length in H.
Qed.

Lemma exists__iff (qs : list Article) : exists_ qs = true <-> exists row, In row qs.
Proof.
  destruct qs as [|row qs]; cbn; split.
  - discriminate.
  - intros [row []].
  - eauto.
  - reflexivity.
Qed.

Lemma exclude_instance_In (instance : option Article) qs row :
  In row (match instance with
          | Some i => exclude_pk (pk i) qs
          | None => qs
          end)
  <-> In row qs /\ other_than instance row.
Proof.
  unfold other_than, exclude_pk. destruct instance as [i|]; [|tauto].
  destruct (pk i) as [id|]; [|tauto].
  rewrite filter_In, Bool.negb_true_iff, <- Bool.not_true_iff_false, has_pk_iff. tauto.
Qed.

(** C10. On a table whose titles have the 3 characters the model asks for,
    title validation raises the duplicate-title error exactly when a row
    that is not deleted, other than the article being updated, has the same
    title up to case; so a title carried only by soft-deleted rows is
    accepted again, verbatim. *)
Theorem validate_title_duplicate (value : string) (instance : option Article)
    (tbl : list Article) :
  (forall row, In row tbl -> (3 <= String.length (title (fields row)))%nat) ->
  (validate_title value instance tbl = Raise duplicate_title_error
   <-> exists row, In row tbl /\ is_deleted row = false
         /\ lower (title (fields row)) = lower value /\ other_than instance row)
  /\ ((3 <= String.length value)%nat ->
      (forall row, In row tbl -> lower (title (fields row)) = lower value ->
         is_deleted row = true) ->
      validate_title value instance tbl = Ok value).
Proof.
  intros Hinv. unfold validate_title, Article_objects, Manager_get_queryset.
  set (qs := List.filter _ tbl).
  assert (Hqs : forall row, In row qs <->
            In row tbl /\ lower (title (fields row)) = lower value /\ is_deleted row = false).
  { intros row. unfold qs, iexact.
    rewrite filter_In, Bool.andb_true_iff, String.eqb_eq, Bool.eqb_true_iff. tauto. }
  assert (Hdup : exists_ (match instance with
                          | Some i => exclude_pk (pk i) qs
                          | None => qs
                          end) = true
                 <-> exists row, In row tbl /\ is_deleted row = false
                       /\ lower (title (fields row)) = lower value
                       /\ other_than instance row).
  { rewrite exists__iff. split; intros (row & H); exists row.
    - apply exclude_instance_In in H as [H Ho]. apply Hqs in H. tauto.
    - apply exclude_instance_In. rewrite Hqs. tauto. }
  destruct (Nat.ltb (String.length value) 3) eqn:Hlen.
  - apply Nat.ltb_lt in Hlen. split; [split|].
    + discriminate.
    + intros (row & Hin & _ & Heq & _). exfalso.
      specialize (Hinv row Hin).
      apply (f_equal String.length) in Heq. rewrite !lower_length in Heq. lia.
    + lia.
  - split.
    + destruct (exists_ _) eqn:E.
      * split; [intros _; now apply Hdup | reflexivity].
      * split; [discriminate|]. intros H. apply Hdup in H. discriminate.
    + intros _ Hdel. destruct (exists_ _) eqn:E; [|reflexivity].
      destruct (proj1 Hdup eq_refl) as (row & Hin & Hlive & Heq & _).
      rewrite (Hdel row Hin Heq) in Hlive. discriminate.
Qed.

Lemma validate_title_duplicate_witness :
  let tbl := [article_fixture 1 "Hello World" "hello-world" true true;
              article_fixture 2 "Other" "other" true false] in
  (forall row, In row tbl -> (3 <= String.length (title (fields row)))%nat)
  /\ validate_title "Hello World" None tbl = Ok "Hello World"
  /\ validate_title "OTHER" None tbl = Raise duplicate_title_error
  /\ validate_title "OTHER" (Some (article_fixture 2 "Other" "other" true false)) tbl
     = Ok "OTHER".
Proof.
  cbn zeta.
  assert (Hinv : forall row,
            In row [article_fixture 1 "Hello World" "hello-world" true true;
                    article_fixture 2 "Other" "other" true false] ->
            (3 <= String.length (title (fields row)))%nat).
  { intros row [<-|[<-|[]]]; cbn; lia. }
  split; [exact Hinv|]. split; [|split; reflexivity].
  refine (proj2 (validate_title_duplicate "Hello World" None _ Hinv) _ _).
  - cbn. lia.
  - intros row [<-|[<-|[]]]; [reflexivity | discriminate].
Defined.

(** ** View counter *)

Lemma stored_views_update_views id (self : Article) tbl :
  pk self = Some id ->
  stored_views id (update_views self tbl) = Z.succ <$> stored_views id tbl.
Proof.
  intros Hpk. unfold stored_views, update_views. rewrite Hpk.
  rewrite get_pk_update_pk by (intros; assumption).
  destruct (get_pk id tbl) as [row|]; reflexivity.
Qed.

Lemma refresh_views_stored id v (self : Article) tbl :
  pk self = Some id -> stored_views id tbl = Some v ->
  refresh_views self tbl = Ok (set_views_count v self).
Proof.
  unfold stored_views, refresh_views. intros -> H.
  destruct (get_pk id tbl); [|discriminate]. now injection H as ->.
Qed.

Lemma updates_done_app l1 l2 : updates_done (l1 ++ l2) = updates_done l1 + updates_done l2.
Proof. induction l1 as [|r l1 IH]; cbn [app updates_done]; lia. Qed.

Lemma updates_done_bounds reqs : 0 <= updates_done reqs <= Z.of_nat (length reqs).
Proof.
  induction reqs as [|r reqs IH]; cbn [updates_done length]; [lia|].
  destruct (req_at r); lia.
Qed.

Lemma updates_done_all reqs :
  all_returned reqs = true -> updates_done reqs = Z.of_nat (length reqs).
Proof.
  unfold all_returned. induction reqs as [|r reqs IH]; cbn [forallb updates_done length];
    [reflexivity|].
  intros H. apply Bool.andb_true_iff in H as [Hr Hrest]. unfold has_returned in Hr.
  destruct (req_at r); try discriminate. rewrite IH by assumption. lia.
Qed.

(** A turn either changes nothing or lets one request of the list take a
    step. *)
Lemma step_at_cases i : forall reqs tbl,
  step_at i reqs tbl = (reqs, tbl)
  \/ exists l1 r l2, reqs = l1 ++ r :: l2
       /\ step_at i reqs tbl
          = (l1 ++ fst (step_request r tbl) :: l2, snd (step_request r tbl)).
Proof.
  induction i as [|i IH]; intros [|r reqs] tbl; cbn [step_at]; try (now left).
  - right. exists [], r, reqs. split; [reflexivity|]. now destruct (step_request r tbl).
  - destruct (IH reqs tbl) as [->|(l1 & r' & l2 & -> & ->)]; [now left|].
    right. exists (r :: l1), r', l2. split; reflexivity.
Qed.

Section Counter.
Variables (id v0 : Z).

Lemma returned_within_wider lo hi hi' r :
  hi <= hi' -> returned_within lo hi r -> returned_within lo hi' r.
Proof.
  unfold returned_within. intros Hle. destruct (req_at r); [auto | auto |].
  intros [He Hv]. split; [assumption | lia].
Qed.

Lemma counter_inv_step_request l1 r l2 tbl :
  counter_inv id v0 (l1 ++ r :: l2) tbl ->
  counter_inv id v0 (l1 ++ fst (step_request r tbl) :: l2) (snd (step_request r tbl)).
Proof.
  unfold counter_inv. intros (Hpk & Hst & Hret).
  rewrite Forall_app, Forall_cons_iff in Hpk. destruct Hpk as (Hpk1 & Hpkr & Hpk2).
  rewrite Forall_app, Forall_cons_iff in Hret. destruct Hret as (Hr1 & Hrr & Hr2).
  rewrite updates_done_app in *. cbn [updates_done] in *.
  pose proof (updates_done_bounds l1) as Hb1. pose proof (updates_done_bounds l2) as Hb2.
  unfold step_request. destruct (req_at r) eqn:Hat.
  - cbn [fst snd]. rewrite !Forall_app, !Forall_cons_iff.
    rewrite ?updates_done_app. cbn [updates_done req_at req_self].
    split; [auto|]. split.
    + rewrite (stored_views_update_views id) by assumption. rewrite Hst. cbn. f_equal. lia.
    + split; [|split].
      * eapply Forall_impl; [exact Hr1|]. intros q. apply returned_within_wider. lia.
      * exact I.
      * eapply Forall_impl; [exact Hr2|]. intros q. apply returned_within_wider. lia.
  - rewrite (refresh_views_stored id _ _ _ Hpkr Hst). cbn [fst snd].
    rewrite !Forall_app, !Forall_cons_iff.
    rewrite ?updates_done_app. cbn [updates_done req_at req_self].
    split; [auto|]. split; [exact Hst|]. split; [exact Hr1|]. split; [|exact Hr2].
    unfold returned_within. cbn. split; [reflexivity | lia].
  - cbn [fst snd]. rewrite !Forall_app, !Forall_cons_iff.
    rewrite ?updates_done_app. cbn [updates_done]. rewrite Hat. auto.
Qed.

Lemma counter_inv_step_at i reqs tbl :
  counter_inv id v0 reqs tbl ->
  counter_inv id v0 (fst (step_at i reqs tbl)) (snd (step_at i reqs tbl)).
Proof.
  intros Hinv. destruct (step_at_cases i reqs tbl) as [->|(l1 & r & l2 & -> & ->)];
    [exact Hinv|].
  now apply counter_inv_step_request.
Qed.

Lemma counter_inv_run schedule : forall reqs tbl,
  counter_inv id v0 reqs tbl ->
  counter_inv id v0 (fst (run_schedule schedule reqs tbl)) (snd (run_schedule schedule reqs tbl)).
Proof.
  induction schedule as [|i later IH]; intros reqs tbl Hinv; cbn [run_schedule];
    [exact Hinv|].
  pose proof (counter_inv_step_at i reqs tbl Hinv) as Hstep.
  destruct (step_at i reqs tbl) as [reqs' tbl']. now apply IH.
Qed.

Lemma counter_inv_start selves tbl :
  Forall (fun self : Article => pk self = Some id) selves ->
  stored_views id tbl = Some v0 ->
  counter_inv id v0 (List.map start_request selves) tbl.
Proof.
  intros Hpk Hst. unfold counter_inv.
  assert (Hzero : updates_done (List.map start_request selves) = 0).
  { clear. induction selves as [|s l IH]; cbn; [reflexivity | now rewrite IH]. }
  rewrite Hzero, Z.add_0_r. split; [|split; [exact Hst|]].
  - apply Forall_map. eapply Forall_impl; [exact Hpk|]. auto.
  - apply Forall_map. apply Forall_forall. intros s _. exact I.
Qed.
End Counter.

Lemma length_step_at i : forall reqs tbl, length (fst (step_at i reqs tbl)) = length reqs.
Proof.
  induction i as [|i IH]; intros [|r reqs] tbl; cbn [step_at]; try reflexivity.
  - now destruct (step_request r tbl).
  - specialize (IH reqs tbl). destruct (step_at i reqs tbl). cbn in *. now rewrite IH.
Qed.

Lemma length_run_schedule schedule : forall reqs tbl,
  length (fst (run_schedule schedule reqs tbl)) = length reqs.
Proof.
  induction schedule as [|i later IH]; intros reqs tbl; cbn [run_schedule]; [reflexivity|].
  pose proof (length_step_at i reqs tbl) as H.
  destruct (step_at i reqs tbl) as [reqs' tbl']. cbn in H. now rewrite IH.
Qed.

(** C1. Let [N] requests call [increment_views] on instances of one stored
    article, their statements interleaved by any schedule that lets every
    call return.  Then the stored [views_count] is its value before plus
    [N], and every call has returned normally with an in-memory count
    between that value plus 1 and that value plus [N].  The UPDATE does
    not read the caller's in-memory count; whenever a call returns, its
    in-memory count is the count stored at that moment; and a call that
    runs alone adds exactly 1 and returns holding the stored result. *)
Theorem concurrent_increments (tbl : list Article) (id v0 : Z)
    (selves : list Article) (schedule : list nat) :
  stored_views id tbl = Some v0 ->
  Forall (fun self : Article => pk self = Some id) selves ->
  all_returned (fst (run_schedule schedule (List.map start_request selves) tbl)) = true ->
  let N := Z.of_nat (length selves) in
  let reqs' := fst (run_schedule schedule (List.map start_request selves) tbl) in
  let tbl' := snd (run_schedule schedule (List.map start_request selves) tbl) in
  stored_views id tbl' = Some (v0 + N)
  /\ length reqs' = length selves
  /\ Forall (fun r => req_at r = Returned None
                      /\ v0 + 1 <= views_count (fields (req_self r)) <= v0 + N) reqs'
  /\ (forall (self : Article) v,
        update_views (set_views_count v self) tbl = update_views self tbl)
  /\ (forall (r : Request) t v,
        req_at r = AtRefresh -> pk (req_self r) = Some id -> stored_views id t = Some v ->
        step_request r t = (mkRequest (Returned None) (set_views_count v (req_self r)), t))
  /\ (forall self : Article, pk self = Some id ->
        stored_views id (fst (increment_views self tbl)) = Some (v0 + 1)
        /\ snd (increment_views self tbl) = Ok (set_views_count (v0 + 1) self)).
Proof.
  intros Hst Hpk Hall. cbn zeta.
  pose proof (counter_inv_run id v0 schedule _ _ (counter_inv_start id v0 selves tbl Hpk Hst))
    as (_ & Hst' & Hret).
  pose proof (length_run_schedule schedule (List.map start_request selves) tbl) as Hlen.
  rewrite length_map in Hlen.
  rewrite (updates_done_all _ Hall), Hlen in Hst', Hret.
  split; [exact Hst'|]. split; [exact Hlen|]. split.
  - apply Forall_forall. intros r Hin.
    rewrite Forall_forall in Hret. specialize (Hret r Hin).
    unfold all_returned in Hall. rewrite forallb_forall in Hall.
    assert (Hr : has_returned r = true) by (apply Hall; now apply list_elem_of_In).
    unfold returned_within in Hret. unfold has_returned in Hr.
    destruct (req_at r); try discriminate. destruct Hret as [-> Hv]. now split.
  - split; [reflexivity|]. split.
    + intros r t v Hat Hp Hv. unfold step_request. rewrite Hat.
      now rewrite (refresh_views_stored id v).
    + intros self Hp. unfold increment_views. cbn [fst snd].
      assert (Hup : stored_views id (update_views self tbl) = Some (v0 + 1)).
      { rewrite (stored_views_update_views id), Hst by assumption. reflexivity. }
      split; [exact Hup|]. now apply (refresh_views_stored id).
Qed.

(** Three requests, the third overtaking the first two between their
    UPDATE and their reload. *)
Lemma concurrent_increments_witness :
  let a := article_fixture 1 "Hello" "hello" true false in
  let tbl := [a; article_fixture 2 "Other" "other" true false] in
  let selves := [a; set_views_count 40 a; a] in
  let schedule := [0; 1; 2; 2; 0; 1]%nat in
  stored_views 1 tbl = Some 0
  /\ all_returned (fst (run_schedule schedule (List.map start_request selves) tbl)) = true
  /\ stored_views 1 (snd (run_schedule schedule (List.map start_request selves) tbl))
     = Some 3.
Proof.
  cbn zeta. split; [reflexivity|]. split; [reflexivity|].
  refine (proj1 (concurrent_increments
                   [article_fixture 1 "Hello" "hello" true false;
                    article_fixture 2 "Other" "other" true false] 1 0
                   [article_fixture 1 "Hello" "hello" true false;
                    set_views_count 40 (article_fixture 1 "Hello" "hello" true false);
                    article_fixture 1 "Hello" "hello" true false]
                   [0; 1; 2; 2; 0; 1]%nat eq_refl _ eq_refl)).
  repeat constructor.
Defined.

(** *** Every number of requests has a schedule that lets all return *)

Lemma phase_step_request r tbl :
  phase (fst (step_request r tbl)) = Nat.min 2 (S (phase r)).
Proof.
  unfold step_request, phase. destruct (req_at r) eqn:E; cbn [fst req_at].
  - reflexivity.
  - now destruct (refresh_views (req_self r) tbl).
  - now rewrite E.
Qed.

Lemma step_at_middle pre r rest tbl :
  step_at (length pre) (pre ++ r :: rest) tbl
  = (pre ++ fst (step_request r tbl) :: rest, snd (step_request r tbl)).
Proof.
  induction pre as [|q pre IH]; cbn [length app step_at].
  - now destruct (step_request r tbl).
  - now rewrite IH.
Qed.

Lemma run_schedule_app s1 : forall s2 reqs tbl,
  run_schedule (s1 ++ s2) reqs tbl
  = run_schedule s2 (fst (run_schedule s1 reqs tbl)) (snd (run_schedule s1 reqs tbl)).
Proof.
  induction s1 as [|i s1 IH]; intros s2 reqs tbl; cbn [app run_schedule]; [reflexivity|].
  destruct (step_at i reqs tbl) as [reqs' tbl']. apply IH.
Qed.

(** One round over the requests moves each of them one statement on. *)
Lemma round_advances (k : nat) reqs : forall pre tbl,
  Forall (fun r => (k <= phase r)%nat) reqs ->
  exists reqs',
    fst (run_schedule (seq (length pre) (length reqs)) (pre ++ reqs) tbl) = pre ++ reqs'
    /\ length reqs' = length reqs
    /\ Forall (fun r' => (Nat.min 2 (S k) <= phase r')%nat) reqs'.
Proof.
  induction reqs as [|r reqs IH]; intros pre tbl Hk; cbn [length seq run_schedule].
  - exists []. split; [reflexivity | split; [reflexivity | constructor]].
  - rewrite step_at_middle. apply Forall_cons_iff in Hk as [Hr Hk].
    destruct (IH (pre ++ [fst (step_request r tbl)]) (snd (step_request r tbl)) Hk)
      as (reqs' & Hrun & Hlen & Hall).
    rewrite length_app, Nat.add_1_r, <- app_assoc in Hrun. cbn [app] in Hrun.
    exists (fst (step_request r tbl) :: reqs'). split; [|split].
    + rewrite Hrun, <- app_assoc. reflexivity.
    + cbn [length]. now rewrite Hlen.
    + constructor; [|exact Hall]. rewrite phase_step_request. lia.
Qed.

(** Two rounds let every call return, whatever the table holds. *)
Lemma round_robin_returns (selves : list Article) (tbl : list Article) :
  let n := length selves in
  all_returned (fst (run_schedule (seq 0 n ++ seq 0 n)
                       (List.map start_request selves) tbl)) = true.
Proof.
  cbn zeta. rewrite run_schedule_app.
  set (reqs := List.map start_request selves).
  assert (Hn : length selves = length reqs) by (unfold reqs; now rewrite length_map).
  rewrite Hn.
  destruct (round_advances 0 reqs [] tbl) as (reqs1 & Hrun1 & Hlen1 & Hall1).
  { apply Forall_forall. intros r _. lia. }
  cbn [length app] in Hrun1.
  destruct (round_advances 1 reqs1 []
              (snd (run_schedule (seq 0 (length reqs)) reqs tbl)) Hall1)
    as (reqs2 & Hrun2 & _ & Hall2).
  cbn [length app] in Hrun2.
  rewrite Hrun1. rewrite Hlen1 in Hrun2. rewrite Hrun2.
  unfold all_returned. apply forallb_forall. intros r2 Hin.
  apply list_elem_of_In in Hin. rewrite Forall_forall in Hall2.
  specialize (Hall2 r2 Hin). unfold has_returned. unfold phase in Hall2.
  destruct (req_at r2); cbn in Hall2; [lia | lia | reflexivity].
Qed.

(** * Further properties of the code *)

(** ** What the receivers delete, and what they leave *)

Lemma lookup_delete_all (keys : list string) : forall (m : gmap string string) key,
  fold_left (fun m key => delete key m) keys m !! key
  = if bool_decide (key ∈ keys) then None else m !! key.
Proof.
  induction keys as [|k keys IH]; intros m key; cbn [fold_left].
  - now rewrite bool_decide_eq_false_2 by (apply not_elem_of_nil).
  - rewrite IH. destruct (bool_decide (key ∈ keys)) eqn:E.
    + apply bool_decide_eq_true in E.
      now rewrite bool_decide_eq_true_2 by (rewrite elem_of_cons; now right).
    + apply bool_decide_eq_false in E. destruct (decide (k = key)) as [->|Hne].
      * rewrite bool_decide_eq_true_2 by (rewrite elem_of_cons; now left). apply lookup_delete_eq.
      * rewrite bool_decide_eq_false_2
          by (rewrite elem_of_cons; intros [?|?]; congruence).
        now apply lookup_delete_ne.
Qed.

Lemma delete_keys_exact keys c c' :
  delete_keys keys c = Ok c' ->
  keys = [] \/ (available c = true /\ available c' = true
                /\ forall key, entries c' !! key
                   = if bool_decide (key ∈ keys) then None else entries c !! key).
Proof.
  destruct keys as [|k keys]; [now left|]. intros H. right.
  destruct (available c) eqn:Hc; [|now rewrite delete_keys_dead in H].
  destruct (delete_keys_live (k :: keys) c Hc) as (c2 & H2 & Hav & Hent).
  rewrite H2 in H. injection H as <-. split; [reflexivity|]. split; [exact Hav|].
  intros key. rewrite Hent. apply lookup_delete_all.
Qed.

(** A save that wrote and returned normally has run its receiver. *)
Lemma Model_save_receiver {F : Type} (receiver : Model F -> Cache -> result Cache)
    now uf (self : Model F) tbl c :
  uf <> Some [] ->
  out_exn (Model_save receiver now uf self tbl c) = None ->
  receiver (out_self (Model_save receiver now uf self tbl c)) c
  = Ok (out_cache (Model_save receiver now uf self tbl c)).
Proof.
  intros Huf. unfold Model_save.
  assert (Hsend : forall s t,
            out_exn (send_post_save receiver s t c) = None ->
            receiver (out_self (send_post_save receiver s t c)) c
            = Ok (out_cache (send_post_save receiver s t c))).
  { intros s t. unfold send_post_save. destruct (receiver s c) eqn:E; cbn; congruence. }
  destruct uf as [[|col cols]|]; [congruence| |].
  - destruct (pk self) as [id|]; [|discriminate].
    destruct (get_pk id tbl); [apply Hsend | discriminate].
  - destruct (pk self) as [id|]; [destruct (get_pk id tbl)|]; apply Hsend.
Qed.

(** X1. After a save of an article that wrote and returned normally (a
    create, an update, or the save of a soft delete), the cache has no
    entry under the three keys of the saved instance, [article:<id>],
    [article:slug:<slug>] and the literal key [articles:list:*], and every
    other entry is what it was: the last key is deleted as a key, not as a
    pattern. *)
Theorem article_invalidation_exact (slugify : string -> string) (now : Z)
    (uf : option (list column)) (self : Article) (tbl : list Article) (c : Cache) :
  uf <> Some [] ->
  out_exn (Article_save slugify now uf self tbl c) = None ->
  let o := Article_save slugify now uf self tbl c in
  forall key,
    entries (out_cache o) !! key
    = if bool_decide (key ∈ article_cache_keys (out_self o)) then None
      else entries c !! key.
Proof.
  intros Huf Hok. cbn zeta. rewrite Article_save_defaults in *.
  pose proof (Model_save_receiver invalidate_article_cache now uf _ tbl c Huf Hok) as H.
  change (invalidate_article_cache ?a c) with (delete_keys (article_cache_keys a) c) in H.
  apply delete_keys_exact in H as [H|(_ & _ & H)]; [discriminate | exact H].
Qed.

Lemma article_invalidation_exact_witness :
  let c := mkCache (<["articles:list:page=1" := "cached"]>
                      (<["article:slug:hello" := "cached"]> ∅)) true in
  let o := Article_save django_slugify 7 None (new_article "Hello" "0123456789") [] c in
  @None (list column) <> Some []
  /\ out_exn o = None
  /\ entries (out_cache o) !! "article:slug:hello" = None
  /\ entries (out_cache o) !! "articles:list:page=1" = Some "cached".
Proof.
  cbn zeta. split; [discriminate|]. split; [reflexivity|].
  pose proof (article_invalidation_exact django_slugify 7 None
                (new_article "Hello" "0123456789") []
                (mkCache (<["articles:list:page=1" := "cached"]>
                            (<["article:slug:hello" := "cached"]> ∅)) true)
                ltac:(discriminate) eq_refl) as H.
  cbn zeta in H.
  split; [rewrite (H "article:slug:hello") | rewrite (H "articles:list:page=1")];
    reflexivity.
Defined.

(** X2. After a save of a comment that wrote and returned normally, the
    cache has no entry under [comment:<id>] and [article:<article>:comments],
    and every other entry, the cached article of the comment included, is
    what it was. *)
Theorem comment_invalidation_exact (now : Z) (uf : option (list column))
    (self : Comment) (tbl : list Comment) (c : Cache) :
  uf <> Some [] ->
  out_exn (Comment_save now uf self tbl c) = None ->
  let o := Comment_save now uf self tbl c in
  forall key,
    entries (out_cache o) !! key
    = if bool_decide (key ∈ comment_cache_keys (out_self o)) then None
      else entries c !! key.
Proof.
  intros Huf Hok. cbn zeta. unfold Comment_save in *.
  pose proof (Model_save_receiver invalidate_comment_cache now uf _ tbl c Huf Hok) as H.
  change (invalidate_comment_cache ?a c) with (delete_keys (comment_cache_keys a) c) in H.
  apply delete_keys_exact in H as [H|(_ & _ & H)]; [discriminate | exact H].
Qed.

Lemma comment_invalidation_exact_witness :
  let c := mkCache (<["article:5:comments" := "cached"]>
                      (<["article:slug:hello" := "cached"]> ∅)) true in
  let o := Comment_save 7 None (set_pk None (comment_fixture 1 5 None 0 false)) [] c in
  @None (list column) <> Some []
  /\ out_exn o = None
  /\ entries (out_cache o) !! "article:5:comments" = None
  /\ entries (out_cache o) !! "article:slug:hello" = Some "cached".
Proof.
  cbn zeta. split; [discriminate|]. split; [reflexivity|].
  pose proof (comment_invalidation_exact 7 None
                (set_pk None (comment_fixture 1 5 None 0 false)) []
                (mkCache (<["article:5:comments" := "cached"]>
                            (<["article:slug:hello" := "cached"]> ∅)) true)
                ltac:(discriminate) eq_refl) as H.
  cbn zeta in H.
  split; [rewrite (H "article:5:comments") | rewrite (H "article:slug:hello")];
    reflexivity.
Defined.

(** ** Who sees which article *)

Lemma get_queryset_In (user : RequestUser) (tbl : list Article) (row : Article) :
  In row (ArticleViewSet_get_queryset user tbl)
  <-> In row tbl /\ is_deleted row = false
      /\ (is_published (fields row) = true
          \/ exists u, user = Authenticated u
               /\ user_id (author (fields row)) = user_id u).
Proof.
  unfold ArticleViewSet_get_queryset.
  rewrite <- list_elem_of_In, elem_of_remove_dups, list_elem_of_In.
  destruct user as [|u].
  - unfold Article_published, PublishedArticleManager_get_queryset, Manager_get_queryset.
    rewrite filter_In, Bool.andb_true_iff, !Bool.eqb_true_iff.
    split; [tauto|]. intros (? & ? & [?|(u & Hu & _)]); [tauto | discriminate].
  - unfold Manager_get_queryset, authored_by.
    rewrite filter_In, Bool.orb_true_iff, !Bool.andb_true_iff, !Bool.eqb_true_iff,
      Z.eqb_eq.
    split.
    + intros (Hin & [[Hp Hd]|[Hd Ha]]); (split; [assumption|]); (split; [assumption|]);
        [now left | right; eauto].
    + intros (Hin & Hd & [Hp|(u' & Hu & Ha)]); (split; [assumption|]);
        [left; tauto | right; injection Hu as <-; tauto].
Qed.

(** X3. An article is in the queryset of [ArticleViewSet] for a user
    exactly when it is stored, is not deleted, and is published or written
    by that user; an anonymous user sees the published ones only.  No row
    is listed twice. *)
Theorem get_queryset_visible (user : RequestUser) (tbl : list Article) (row : Article) :
  (In row (ArticleViewSet_get_queryset user tbl)
   <-> In row tbl /\ is_deleted row = false
       /\ (is_published (fields row) = true
           \/ exists u, user = Authenticated u
                /\ user_id (author (fields row)) = user_id u))
  /\ List.NoDup (ArticleViewSet_get_queryset user tbl).
Proof.
  split; [apply get_queryset_In|].
  unfold ArticleViewSet_get_queryset. apply NoDup_ListNoDup, NoDup_remove_dups.
Qed.

(** X4. [my_articles] asks an anonymous user to authenticate; for a user
    it lists exactly the stored articles of that user that are not deleted,
    unpublished ones included, and each of them is also in the queryset of
    the view for that user. *)
Theorem my_articles_spec (user : RequestUser) (tbl : list Article) :
  (user = AnonymousUser ->
   ArticleViewSet_my_articles user tbl = Detail 401 "Authentication required.")
  /\ (forall u, user = Authenticated u ->
      exists rows, ArticleViewSet_my_articles user tbl = Data 200 rows
        /\ (forall row, In row rows <->
              In row tbl /\ is_deleted row = false
              /\ user_id (author (fields row)) = user_id u)
        /\ (forall row, In row rows -> In row (ArticleViewSet_get_queryset user tbl))).
Proof.
  split; [now intros ->|]. intros u ->. cbn [ArticleViewSet_my_articles].
  eexists. split; [reflexivity|].
  assert (Hrows : forall row,
            In row (List.filter (authored_by u) (Article_active_objects tbl)) <->
            In row tbl /\ is_deleted row = false
            /\ user_id (author (fields row)) = user_id u).
  { intros row. unfold Article_active_objects, ActiveObjectsManager_get_queryset,
      Manager_get_queryset, authored_by.
    rewrite !filter_In, Bool.eqb_true_iff, Z.eqb_eq. tauto. }
  split; [exact Hrows|].
  intros row Hin. apply Hrows in Hin as (Hin & Hd & Ha).
  apply get_queryset_In. eauto 8.
Qed.

(** ** Soft delete, seen from the table and from the views *)

Lemma update_pk_mark_frame {F : Type} id (f : Model F -> Model F) (tbl : list (Model F)) :
  (forall r, pk (f r) = pk r /\ fields (f r) = fields r
             /\ created_at (f r) = created_at r /\ updated_at (f r) = updated_at r) ->
  List.map pk (update_pk id f tbl) = List.map pk tbl
  /\ List.map fields (update_pk id f tbl) = List.map fields tbl
  /\ List.map created_at (update_pk id f tbl) = List.map created_at tbl
  /\ List.map updated_at (update_pk id f tbl) = List.map updated_at tbl
  /\ (forall r, In r tbl -> pk r <> Some id -> In r (update_pk id f tbl)).
Proof.
  intros Hf. unfold update_pk. rewrite !List.map_map.
  repeat split;
    try (apply List.map_ext; intros r; destruct (has_pk id r); [apply Hf | reflexivity]).
  intros r Hin Hne. apply in_map_iff. exists r. split; [|assumption].
  destruct (has_pk id r) eqn:E; [|reflexivity]. apply has_pk_iff in E. contradiction.
Qed.

Lemma Article_soft_delete_table slugify now (self : Article) tbl c id row :
  available c = true -> pk self = Some id -> get_pk id tbl = Some row ->
  let o := soft_delete (Article_save slugify) now self tbl c in
  out_exn o = None /\ out_table o = update_pk id (mark_deleted now) tbl.
Proof.
  intros Hc Hpk Hget.
  destruct (save_flags invalidate_article_cache (Article_defaults slugify)
              invalidate_article_cache_deleting (Article_defaults_mixins slugify)
              now (mark_deleted now self) tbl c id row Hc Hpk Hget) as (He & _ & _ & Ht).
  split; [exact He | exact Ht].
Qed.

Lemma Comment_soft_delete_table now (self : Comment) tbl c id row :
  available c = true -> pk self = Some id -> get_pk id tbl = Some row ->
  let o := soft_delete Comment_save now self tbl c in
  out_exn o = None /\ out_table o = update_pk id (mark_deleted now) tbl.
Proof.
  intros Hc Hpk Hget.
  destruct (save_flags invalidate_comment_cache (fun s _ => s)
              invalidate_comment_cache_deleting
              (fun s _ => conj eq_refl (conj eq_refl (conj eq_refl (conj eq_refl eq_refl))))
              now (mark_deleted now self) tbl c id row Hc Hpk Hget) as (He & _ & _ & Ht).
  split; [exact He | exact Ht].
Qed.

(** X5. A soft delete removes no row and rewrites nothing but the two
    columns: after [soft_delete] of a stored article or comment the table
    has the same keys in the same order, the same own columns (title,
    slug, content, ...) and the same time stamps, and every row with
    another key is stored as it was. *)
Theorem soft_delete_frame (slugify : string -> string) (now id : Z) (c : Cache) :
  available c = true ->
  (forall (self : Article) tbl row,
     pk self = Some id -> get_pk id tbl = Some row ->
     let o := soft_delete (Article_save slugify) now self tbl c in
     out_exn o = None
     /\ List.map pk (out_table o) = List.map pk tbl
     /\ List.map fields (out_table o) = List.map fields tbl
     /\ List.map created_at (out_table o) = List.map created_at tbl
     /\ List.map updated_at (out_table o) = List.map updated_at tbl
     /\ (forall r, In r tbl -> pk r <> Some id -> In r (out_table o)))
  /\ (forall (self : Comment) tbl row,
        pk self = Some id -> get_pk id tbl = Some row ->
        let o := soft_delete Comment_save now self tbl c in
        out_exn o = None
        /\ List.map pk (out_table o) = List.map pk tbl
        /\ List.map fields (out_table o) = List.map fields tbl
        /\ List.map created_at (out_table o) = List.map created_at tbl
        /\ List.map updated_at (out_table o) = List.map updated_at tbl
        /\ (forall r, In r tbl -> pk r <> Some id -> In r (out_table o))).
Proof.
  intros Hc. split; intros self tbl row Hpk Hget; cbn zeta.
  - destruct (Article_soft_delete_table slugify now self tbl c id row Hc Hpk Hget)
      as [He Ht]. cbn zeta in He, Ht. rewrite Ht. split; [exact He|].
    apply update_pk_mark_frame. intros r. repeat split.
  - destruct (Comment_soft_delete_table now self tbl c id row Hc Hpk Hget) as [He Ht].
    cbn zeta in He, Ht. rewrite Ht. split; [exact He|].
    apply update_pk_mark_frame. intros r. repeat split.
Qed.

Lemma soft_delete_frame_witness :
  let a := article_fixture 1 "Hello" "hello" true false in
  let b := article_fixture 2 "Other" "other" true false in
  let o := soft_delete (Article_save django_slugify) 9 a [a; b] live_cache in
  available live_cache = true
  /\ List.map pk (out_table o) = [Some 1; Some 2]
  /\ In b (out_table o).
Proof.
  cbn zeta. split; [reflexivity|].
  destruct (soft_delete_frame django_slugify 9 1 live_cache eq_refl) as [HA _].
  specialize (HA (article_fixture 1 "Hello" "hello" true false)
                [article_fixture 1 "Hello" "hello" true false;
                 article_fixture 2 "Other" "other" true false]
                (article_fixture 1 "Hello" "hello" true false) eq_refl eq_refl).
  cbn zeta in HA. destruct HA as (_ & Hk & _ & _ & _ & Hr).
  split; [exact Hk|]. apply Hr; [right; now left | discriminate].
Defined.

Lemma Article_active_In (tbl : list Article) (a : Article) :
  In a (Article_active_objects tbl) <-> In a tbl /\ is_deleted a = false.
Proof.
  unfold Article_active_objects, ActiveObjectsManager_get_queryset, Manager_get_queryset.
  rewrite filter_In, Bool.eqb_true_iff. tauto.
Qed.

Lemma Article_published_In (tbl : list Article) (a : Article) :
  In a (Article_published tbl)
  <-> In a tbl /\ is_deleted a = false /\ is_published (fields a) = true.
Proof.
  unfold Article_published, PublishedArticleManager_get_queryset, Manager_get_queryset.
  rewrite filter_In, Bool.andb_true_iff, !Bool.eqb_true_iff. tauto.
Qed.

(** X6. After [soft_delete] of a stored article no row with its key is in
    the active view, in the published view or in the queryset of the view
    for any user, while the row is still stored, marked deleted; after
    [restore] the row is in the active view again. *)
Theorem soft_delete_hides (slugify : string -> string) (now1 now2 id : Z)
    (self : Article) (tbl : list Article) (row : Article) (c : Cache) :
  available c = true -> pk self = Some id -> get_pk id tbl = Some row ->
  let o1 := soft_delete (Article_save slugify) now1 self tbl c in
  let o2 := restore (Article_save slugify) now2
              (out_self o1) (out_table o1) (out_cache o1) in
  (forall r, In r (Article_active_objects (out_table o1)) -> pk r <> Some id)
  /\ (forall r, In r (Article_published (out_table o1)) -> pk r <> Some id)
  /\ (forall user r, In r (ArticleViewSet_get_queryset user (out_table o1)) ->
        pk r <> Some id)
  /\ get_pk id (Article_objects (out_table o1)) = Some (mark_deleted now1 row)
  /\ In (clear_deleted row) (Article_active_objects (out_table o2)).
Proof.
  intros Hc Hpk Hget. cbn zeta.
  destruct (Article_soft_delete_then_restore slugify now1 now2 self tbl c id row
              Hc Hpk Hget) as ((He1 & _ & _ & Hg1) & _ & _ & _ & Ht2).
  destruct (Article_soft_delete_table slugify now1 self tbl c id row Hc Hpk Hget)
    as [_ Ht1].
  cbn zeta in *.
  set (o1 := soft_delete (Article_save slugify) now1 self tbl c) in *.
  assert (Hdel : forall r, In r (out_table o1) -> is_deleted r = false -> pk r <> Some id).
  { intros r Hin Hlive Hk. rewrite Ht1 in Hin. unfold update_pk in Hin.
    apply in_map_iff in Hin as (r0 & <- & _).
    destruct (has_pk id r0) eqn:E; [discriminate|].
    apply has_pk_iff in Hk. congruence. }
  split; [|split; [|split; [|split]]].
  - intros r Hin. apply Article_active_In in Hin as [Hin Hlive]. auto.
  - intros r Hin. apply Article_published_In in Hin as (Hin & Hlive & _). auto.
  - intros user r Hin.
    apply get_queryset_In in Hin as (Hin & Hlive & _). auto.
  - exact Hg1.
  - apply Article_active_In. split; [|reflexivity].
    rewrite Ht2. unfold update_pk. apply in_map_iff. exists row.
    apply get_pk_Some in Hget as [Hin Hk]. split; [|exact Hin].
    apply has_pk_iff in Hk. now rewrite Hk.
Qed.

Lemma soft_delete_hides_witness :
  let a := article_fixture 1 "Hello" "hello" true false in
  let o1 := soft_delete (Article_save django_slugify) 9 a [a] live_cache in
  available live_cache = true
  /\ get_pk 1 (Article_objects (out_table o1)) = Some (mark_deleted 9 a)
  /\ Article_published (out_table o1) = [].
Proof.
  cbn zeta. split; [reflexivity|].
  split; [|reflexivity].
  exact (proj1 (proj2 (proj2 (proj2
           (soft_delete_hides django_slugify 9 10 1
              (article_fixture 1 "Hello" "hello" true false)
              [article_fixture 1 "Hello" "hello" true false]
              (article_fixture 1 "Hello" "hello" true false)
              live_cache eq_refl eq_refl eq_refl))))).
Defined.

(** The table a save of the two soft-delete columns leaves: the table as
    it was when the save raised before writing, the marked table
    otherwise, whatever the cache did afterwards. *)
Lemma Model_save_flags_table {F : Type} (receiver : Model F -> Cache -> result Cache)
    now (self : Model F) tbl c :
  let o := Model_save receiver now (Some [col_is_deleted; col_deleted_at]) self tbl c in
  (out_table o = tbl /\ out_cache o = c /\ out_self o = self
   /\ ((pk self = None
        /\ out_exn o
           = Some (ValueError "Cannot force an update in save() with no primary key."))
       \/ (exists id, pk self = Some id /\ get_pk id tbl = None
             /\ out_exn o
                = Some (DatabaseError "Save with update_fields did not affect any rows."))))
  \/ (exists id row, pk self = Some id /\ get_pk id tbl = Some row
        /\ out_table o
           = update_pk id (fun r => set_deleted_at (deleted_at self)
                                      (set_is_deleted (is_deleted self) r)) tbl).
Proof.
  cbn zeta. unfold Model_save. cbn [has_column existsb column_eqb orb].
  destruct (pk self) as [id|] eqn:Hpk.
  - destruct (get_pk id tbl) as [row|] eqn:Hget.
    + right. exists id, row. rewrite send_post_save_table. auto.
    + left. cbn. repeat split. right. exists id. auto.
  - left. cbn. repeat split. now left.
Qed.

(** X7. A soft delete of an instance that has no stored row raises and
    writes nothing, to the table or to the cache: an instance without a
    key raises the error of a forced update, an instance whose row is gone
    the error of an update that affected no row.  The instance in memory
    is marked deleted all the same, as it was marked before the save. *)
Theorem soft_delete_missing (slugify : string -> string) (now : Z)
    (a : Article) (articles : list Article) (m : Comment) (comments : list Comment)
    (c : Cache) :
  (pk a = None \/ exists id, pk a = Some id /\ get_pk id articles = None) ->
  (pk m = None \/ exists id, pk m = Some id /\ get_pk id comments = None) ->
  let oa := soft_delete (Article_save slugify) now a articles c in
  let om := soft_delete Comment_save now m comments c in
  (out_table oa = articles /\ out_cache oa = c /\ out_exn oa <> None
   /\ is_deleted (out_self oa) = true /\ deleted_at (out_self oa) = Some now)
  /\ (out_table om = comments /\ out_cache om = c /\ out_exn om <> None
      /\ out_self om = mark_deleted now m).
Proof.
  intros Ha Hm. cbn zeta. unfold soft_delete. rewrite Article_save_defaults.
  unfold Comment_save. split.
  - destruct (Article_defaults_mixins slugify (mark_deleted now a) articles)
      as (Hp & _ & _ & Hd & Hat).
    destruct (Model_save_flags_table invalidate_article_cache now
                (Article_defaults slugify (mark_deleted now a) articles) articles c)
      as [(Ht & Hc & Hs & He)|(id & row & Hk & Hget & _)].
    + fold (@mark_deleted ArticleFields now a).
      rewrite Ht, Hc, Hs, Hd, Hat. repeat split.
      destruct He as [[_ ->]|(id & _ & _ & ->)]; discriminate.
    + exfalso. rewrite Hp in Hk. cbn in Hk.
      destruct Ha as [Ha|(id' & Ha & Hn)]; congruence.
  - destruct (Model_save_flags_table invalidate_comment_cache now
                (mark_deleted now m) comments c)
      as [(Ht & Hc & Hs & He)|(id & row & Hk & Hget & _)].
    + fold (@mark_deleted CommentFields now m).
      rewrite Ht, Hc, Hs. repeat split.
      destruct He as [[_ ->]|(id & _ & _ & ->)]; discriminate.
    + exfalso. cbn in Hk. destruct Hm as [Hm|(id' & Hm & Hn)]; congruence.
Qed.

Lemma soft_delete_missing_witness :
  let a := new_article "Hello" "0123456789" in
  let m := comment_fixture 4 5 None 0 false in
  (pk a = None \/ exists id, pk a = Some id /\ get_pk id (@nil Article) = None)
  /\ (pk m = None \/ exists id, pk m = Some id /\ get_pk id (@nil Comment) = None)
  /\ out_table (soft_delete Comment_save 9 m [] live_cache) = [].
Proof.
  cbn zeta.
  assert (Ha : pk (new_article "Hello" "0123456789") = None
               \/ exists id, pk (new_article "Hello" "0123456789") = Some id
                    /\ get_pk id (@nil Article) = None) by (now left).
  assert (Hm : pk (comment_fixture 4 5 None 0 false) = None
               \/ exists id, pk (comment_fixture 4 5 None 0 false) = Some id
                    /\ get_pk id (@nil Comment) = None) by (right; exists 4; now split).
  split; [exact Ha|]. split; [exact Hm|].
  exact (proj1 (proj2 (soft_delete_missing django_slugify 9
                         (new_article "Hello" "0123456789") []
                         (comment_fixture 4 5 None 0 false) [] live_cache Ha Hm))).
Defined.

(** ** The view counter at its edges *)

(** X8. [increment_views] on an instance that has no stored row (no key,
    or a key no row has) raises [DoesNotExist] and leaves the table as it
    was. *)
Theorem increment_views_missing (self : Article) (tbl : list Article) :
  (pk self = None \/ exists id, pk self = Some id /\ get_pk id tbl = None) ->
  increment_views self tbl = (tbl, Raise DoesNotExist).
Proof.
  unfold increment_views, update_views, refresh_views.
  intros [->|(id & -> & Hnone)]; [reflexivity|].
  assert (Hsame : update_pk id
            (fun row => set_views_count (views_count (fields row) + 1) row) tbl = tbl).
  { apply update_pk_id. intros row Hin Hk.
    apply (proj1 (get_pk_None id tbl) Hnone) in Hin. contradiction. }
  now rewrite Hsame, Hnone.
Qed.

Lemma increment_views_missing_witness :
  let gone := article_fixture 7 "Gone" "gone" true false in
  let tbl := [article_fixture 1 "Hello" "hello" true false] in
  (pk gone = None \/ exists id, pk gone = Some id /\ get_pk id tbl = None)
  /\ increment_views gone tbl = (tbl, Raise DoesNotExist).
Proof.
  cbn zeta.
  assert (H : pk (article_fixture 7 "Gone" "gone" true false) = None
              \/ exists id, pk (article_fixture 7 "Gone" "gone" true false) = Some id
                   /\ get_pk id [article_fixture 1 "Hello" "hello" true false] = None)
    by (right; exists 7; now split).
  split; [exact H|].
  exact (increment_views_missing _ _ H).
Defined.

(** X9. [increment_views] changes nothing but view counts: the table it
    leaves agrees with the table before on every column but [views_count],
    [updated_at] included; no count goes down and none goes up by more
    than one; and the instance it returns agrees with the caller's
    instance on every column but [views_count]. *)
Theorem increment_views_frame (self : Article) (tbl : list Article) :
  let tbl' := fst (increment_views self tbl) in
  List.map without_views tbl' = List.map without_views tbl
  /\ Forall2 (fun row row' =>
                views_count (fields row) <= views_count (fields row')
                                         <= views_count (fields row) + 1) tbl tbl'
  /\ (forall self', snd (increment_views self tbl) = Ok self' ->
        without_views self' = without_views self).
Proof.
  cbn zeta. unfold increment_views. cbn [fst snd]. split; [|split].
  - unfold update_views. destruct (pk self) as [id|]; [|reflexivity].
    unfold update_pk. rewrite List.map_map. apply List.map_ext. intros row.
    now destruct (has_pk id row).
  - unfold update_views. destruct (pk self) as [id|].
    + unfold update_pk. induction tbl as [|row tbl IH]; cbn [List.map]; constructor.
      * destruct (has_pk id row); cbn; lia.
      * exact IH.
    + induction tbl as [|row tbl IH]; constructor; [lia | exact IH].
  - intros self'. unfold refresh_views. destruct (pk self) as [id|]; [|discriminate].
    destruct (get_pk id (update_views self tbl)); [|discriminate].
    now intros [= <-].
Qed.

(** ** What [Article.save] keeps *)

(** X10. A slug that is set is never recomputed: whatever the title has
    become, a save of an article whose slug is not empty keeps the slug,
    in memory and, for a full save, in the stored row; an excerpt that is
    set is kept in the same way, and no save changes the title or the
    content. *)
Theorem save_keeps_slug (slugify : string -> string) (now : Z)
    (uf : option (list column)) (self : Article) (tbl : list Article) (c : Cache) :
  let o := Article_save slugify now uf self tbl c in
  (str_empty (slug (fields self)) = false ->
   slug (fields (out_self o)) = slug (fields self)
   /\ (uf = None -> exists id row, pk (out_self o) = Some id
         /\ get_pk id (out_table o) = Some row
         /\ slug (fields row) = slug (fields self)))
  /\ (str_empty (excerpt (fields self)) = false ->
      excerpt (fields (out_self o)) = excerpt (fields self))
  /\ title (fields (out_self o)) = title (fields self)
  /\ content (fields (out_self o)) = content (fields self).
Proof.
  cbn zeta. rewrite Article_save_defaults, Model_save_fields.
  split; [|split; [|split]].
  - intros Hs. rewrite Article_defaults_slug, Hs. split; [reflexivity|].
    intros ->.
    destruct (Model_save_stored invalidate_article_cache now
                (Article_defaults slugify self tbl) tbl c) as (id & Hk & Hget).
    exists id, (out_self (Model_save invalidate_article_cache now None
                            (Article_defaults slugify self tbl) tbl c)).
    split; [exact Hk|]. split; [exact Hget|].
    now rewrite Model_save_fields, Article_defaults_slug, Hs.
  - intros He. now rewrite Article_defaults_excerpt, He.
  - unfold Article_defaults.
    destruct (str_empty (slug (fields self)));
      match goal with |- context [if ?b then _ else _] => destruct b end; reflexivity.
  - unfold Article_defaults.
    destruct (str_empty (slug (fields self)));
      match goal with |- context [if ?b then _ else _] => destruct b end; reflexivity.
Qed.

Lemma length_slice_to n : forall s, String.length (slice_to n s) = Nat.min n (String.length s).
Proof.
  induction n as [|n IH]; intros [|ch s]; cbn; try reflexivity. now rewrite IH.
Qed.

Lemma slice_to_app n : forall s t,
  (n <= String.length s)%nat -> slice_to n (s +:+ t) = slice_to n s.
Proof.
  induction n as [|n IH]; intros [|ch s] t Hlen; cbn in *;
    try reflexivity; try lia; try (now destruct t).
  f_equal. apply IH. lia.
Qed.

Lemma slice_to_idem n s : slice_to n (slice_to n s) = slice_to n s.
Proof.
  apply slice_to_all. rewrite length_slice_to. lia.
Qed.

(** X11. The excerpt [Article.save] derives is short and true to the
    content: for an article saved without an excerpt the excerpt has at
    most 203 characters, within the 500 the column allows, and its first
    200 characters are the first 200 characters of the content. *)
Theorem excerpt_bound (slugify : string -> string) (now : Z)
    (uf : option (list column)) (self : Article) (tbl : list Article) (c : Cache) :
  str_empty (excerpt (fields self)) = true ->
  let o := Article_save slugify now uf self tbl c in
  (String.length (excerpt (fields (out_self o))) <= 203)%nat
  /\ slice_to 200 (excerpt (fields (out_self o))) = slice_to 200 (content (fields self)).
Proof.
  intros He. cbn zeta.
  rewrite Article_save_defaults, Model_save_fields, Article_defaults_excerpt, He.
  cbn [andb]. apply str_empty_iff in He.
  destruct (str_empty (content (fields self))) eqn:Hc; cbn [negb].
  - apply str_empty_iff in Hc. rewrite He, Hc. cbn. split; [lia | reflexivity].
  - destruct (Nat.ltb 200 (String.length (content (fields self)))) eqn:Hlen.
    + apply Nat.ltb_lt in Hlen. split.
      * rewrite string_app_length, length_slice_to. cbn [String.length]. lia.
      * rewrite slice_to_app by (rewrite length_slice_to; lia). apply slice_to_idem.
    + apply Nat.ltb_ge in Hlen. split; [lia | reflexivity].
Qed.

Lemma excerpt_bound_witness :
  let self := new_article "Hello" (string_of_list_ascii (List.repeat "a"%char 300)) in
  let o := Article_save django_slugify 7 None self [] live_cache in
  str_empty (excerpt (fields self)) = true
  /\ (String.length (excerpt (fields (out_self o))) <= 203)%nat.
Proof.
  cbn zeta. split; [reflexivity|].
  exact (proj1 (excerpt_bound django_slugify 7 None
                  (new_article "Hello" (string_of_list_ascii (List.repeat "a"%char 300)))
                  [] live_cache eq_refl)).
Defined.

(** ** Deleting through the view *)

(** X12. [DELETE /articles/<slug>/] never removes a row, and changes the
    table only for the author: when the table it leaves is not the table
    it found, the request came from an authenticated user, and a stored
    article with that slug, not deleted, was written by that user. *)
Theorem destroy_only_author (slugify : string -> string) (now : Z)
    (user : RequestUser) (slug_ : string) (tbl : list Article) (c : Cache) :
  let tbl' := snd (fst (ArticleViewSet_destroy slugify now user slug_ tbl c)) in
  List.map pk tbl' = List.map pk tbl
  /\ List.map fields tbl' = List.map fields tbl
  /\ (tbl' <> tbl ->
      exists u obj, user = Authenticated u /\ In obj tbl
        /\ slug (fields obj) = slug_ /\ is_deleted obj = false
        /\ user_id (author (fields obj)) = user_id u).
Proof.
  cbn zeta. unfold ArticleViewSet_destroy.
  destruct user as [|u]; cbn [is_authenticated negb]; [cbn; tauto|].
  destruct (get_object (Authenticated u) slug_ tbl) as [obj|] eqn:Hobj; [|cbn; tauto].
  unfold IsAuthorOrReadOnly_has_object_permission. cbn [is_safe SAFE_METHODS existsb].
  change (String.eqb "DELETE" "GET" || (String.eqb "DELETE" "HEAD"
            || (String.eqb "DELETE" "OPTIONS" || false))) with false. cbn iota.
  destruct (is_user (author (fields obj)) (Authenticated u)) eqn:Hau; [|cbn; tauto].
  cbn [fst snd]. unfold get_object in Hobj. apply find_some in Hobj as [Hin Hslug].
  apply get_queryset_In in Hin as (Hin & Hlive & _). apply String.eqb_eq in Hslug.
  cbn [is_user] in Hau. apply Z.eqb_eq in Hau.
  assert (Hwho : exists u0 obj0, Authenticated u = Authenticated u0 /\ In obj0 tbl
            /\ slug (fields obj0) = slug_ /\ is_deleted obj0 = false
            /\ user_id (author (fields obj0)) = user_id u0) by eauto 8.
  unfold soft_delete. rewrite Article_save_defaults.
  destruct (Model_save_flags_table invalidate_article_cache now
              (Article_defaults slugify (mark_deleted now obj) tbl) tbl c)
    as [(Ht & _)|(id & row & _ & _ & Ht)].
  - fold (@mark_deleted ArticleFields now obj). rewrite Ht. tauto.
  - fold (@mark_deleted ArticleFields now obj). rewrite Ht.
    destruct (update_pk_mark_frame id
                (fun r => set_deleted_at
                            (deleted_at (Article_defaults slugify (mark_deleted now obj) tbl))
                            (set_is_deleted
                               (is_deleted (Article_defaults slugify (mark_deleted now obj) tbl))
                               r)) tbl) as (Hk & Hf & _).
    { intros r. repeat split. }
    auto.
Qed.

(** A user who is not the author gets a refusal and the table is left
    alone; the author's request marks the row. *)
Example destroy_example :
  let alice := mkUser 1 "alice" in
  let bob := mkUser 2 "bob" in
  let a := article_fixture 1 "Hello" "hello" true false in
  fst (fst (ArticleViewSet_destroy django_slugify 9 (Authenticated bob) "hello"
              [a] live_cache)) = PermissionDenied
  /\ fst (fst (ArticleViewSet_destroy django_slugify 9 AnonymousUser "hello"
                 [a] live_cache)) = NotAuthenticated
  /\ fst (fst (ArticleViewSet_destroy django_slugify 9 (Authenticated alice) "nothing"
                 [a] live_cache)) = NotFound
  /\ fst (ArticleViewSet_destroy django_slugify 9 (Authenticated alice) "hello"
            [a] live_cache) = (Destroyed None, [mark_deleted 9 a]).
Proof. cbn zeta. repeat split. Qed.

(** ** The comment thread of an article *)

(** X13. Every comment [ArticleViewSet.comments] shows for a stored
    article is stored and not deleted, and is either a top-level comment
    of the article or a direct reply to a top-level comment of the article
    that is itself shown.  So, with keys that identify rows, a reply to a
    reply is never shown, and neither is a reply to a deleted comment. *)
Theorem shown_comments_spec (obj : Article) (id : Z) (tbl : list Comment) (x : Comment) :
  pk obj = Some id ->
  In x (shown_comments obj tbl) ->
  (In x tbl /\ is_deleted x = false
   /\ ((parent (fields x) = None /\ article (fields x) = id)
       \/ exists top k, In top tbl /\ pk top = Some k
            /\ parent (fields top) = None /\ is_deleted top = false
            /\ article (fields top) = id /\ parent (fields x) = Some k))
  /\ ((forall r1 r2, In r1 tbl -> In r2 tbl -> pk r1 = pk r2 -> r1 = r2) ->
      forall p k, In p tbl -> pk p = Some k -> parent (fields x) = Some k ->
      parent (fields p) = None /\ is_deleted p = false).
Proof.
  intros Hpk Hshown. unfold shown_comments, top_level_comments in Hshown.
  rewrite Hpk in Hshown. apply in_flat_map in Hshown as (top & Htop & Hx).
  unfold Manager_get_queryset in Htop.
  apply filter_In in Htop as [Htop Hcond]. apply filter_In in Htop as [Htin Hart].
  apply Bool.andb_true_iff in Hcond as [Hlive Hnot].
  apply Bool.eqb_prop in Hlive. apply Z.eqb_eq in Hart.
  apply Bool.negb_true_iff in Hnot. unfold is_reply in Hnot.
  destruct (parent (fields top)) eqn:Hptop; [discriminate|].
  assert (Hmain : In x tbl /\ is_deleted x = false
            /\ ((parent (fields x) = None /\ article (fields x) = id)
                \/ exists top k, In top tbl /\ pk top = Some k
                     /\ parent (fields top) = None /\ is_deleted top = false
                     /\ article (fields top) = id /\ parent (fields x) = Some k)).
  { destruct Hx as [<-|Hx]; [auto 6|].
    destruct (pk top) as [k|] eqn:Hk; [|destruct Hx].
    apply replies_queryset_spec in Hx as (Hxin & Hxp & Hxl).
    split; [exact Hxin|]. split; [exact Hxl|]. right. exists top, k. auto 8. }
  split; [exact Hmain|].
  intros Huniq p k Hpin Hpk' Hxp.
  destruct Hmain as (_ & _ & [[Hnone _]|(top' & k' & Hin' & Hk' & Hp' & Hl' & _ & Hxp')]);
    [congruence|].
  assert (p = top') as -> by (apply Huniq; congruence). auto.
Qed.

Lemma shown_comments_spec_witness :
  let obj := article_fixture 5 "Hello" "hello" true false in
  let top := comment_fixture 1 5 None 0 false in
  let reply := comment_fixture 2 5 (Some 1) 1 false in
  let nested := comment_fixture 3 5 (Some 2) 2 false in
  pk obj = Some 5
  /\ shown_comments obj [top; reply; nested] = [top; reply]
  /\ In reply [top; reply; nested].
Proof.
  cbn zeta. split; [reflexivity|]. split; [reflexivity|].
  refine (proj1 (proj1 (shown_comments_spec
                   (article_fixture 5 "Hello" "hello" true false) 5
                   [comment_fixture 1 5 None 0 false; comment_fixture 2 5 (Some 1) 1 false;
                    comment_fixture 3 5 (Some 2) 2 false]
                   (comment_fixture 2 5 (Some 1) 1 false) eq_refl _))).
  vm_compute. right. now left.
Defined.

Lemma filter_filter_and {A : Type} (f g : A -> bool) (l : list A) :
  List.filter f (List.filter g l) = List.filter (fun x => g x && f x) l.
Proof.
  induction l as [|x l IH]; cbn; [reflexivity|].
  destruct (g x); cbn; [destruct (f x)|]; now rewrite IH.
Qed.

Lemma filter_length_le {A : Type} (f g : A -> bool) (l : list A) :
  (forall x, f x = true -> g x = true) ->
  (length (List.filter f l) <= length (List.filter g l))%nat.
Proof.
  intros Hfg. induction l as [|x l IH]; cbn; [lia|].
  destruct (f x) eqn:Ef; [rewrite (Hfg x Ef); cbn; lia|].
  destruct (g x); cbn; lia.
Qed.

(** X14. The comment count an article is rendered with is the number of
    rows the comment manager returns for it, replies included, and is at
    least the number of top-level comments the thread lists. *)
Theorem comments_count_agrees (obj : Article) (id : Z) (tbl : list Comment) :
  pk obj = Some id ->
  get_comments_count obj tbl = length (CommentManager_for_article id tbl)
  /\ (length (top_level_comments obj tbl) <= get_comments_count obj tbl)%nat.
Proof.
  intros Hpk. unfold get_comments_count, CommentManager_for_article, top_level_comments.
  rewrite Hpk. rewrite !filter_filter_and. split; [reflexivity|].
  apply filter_length_le. intros x H.
  apply Bool.andb_true_iff in H as [Ha H]. apply Bool.andb_true_iff in H as [Hl _].
  now rewrite Ha, Hl.
Qed.

Lemma comments_count_agrees_witness :
  let obj := article_fixture 5 "Hello" "hello" true false in
  let tbl := [comment_fixture 1 5 None 0 false; comment_fixture 2 5 (Some 1) 1 false;
              comment_fixture 3 5 None 2 true; comment_fixture 4 6 None 3 false] in
  pk obj = Some 5
  /\ get_comments_count obj tbl = 2%nat
  /\ length (CommentManager_for_article 5 tbl) = 2%nat.
Proof.
  cbn zeta. split; [reflexivity|]. split; [reflexivity|].
  rewrite <- (proj1 (comments_count_agrees
                       (article_fixture 5 "Hello" "hello" true false) 5
                       [comment_fixture 1 5 None 0 false;
                        comment_fixture 2 5 (Some 1) 1 false;
                        comment_fixture 3 5 None 2 true;
                        comment_fixture 4 6 None 3 false] eq_refl)).
  reflexivity.
Defined.

(** ** Searching published articles *)

Lemma prefix_nil s : String.prefix "" s = true.
Proof. now destruct s. Qed.

Lemma contains_nil s : contains "" s = true.
Proof. destruct s; cbn [contains]; [reflexivity | now rewrite prefix_nil]. Qed.

Lemma prefix_app_self s t : String.prefix s (s +:+ t) = true.
Proof.
  induction s as [|ch s IH]; simpl; [apply prefix_nil|].
  destruct (ascii_dec ch ch); [exact IH | contradiction].
Qed.

Lemma contains_app needle t : forall pre, contains needle (pre +:+ needle +:+ t) = true.
Proof.
  induction pre as [|ch pre IH].
  - change ("" +:+ needle +:+ t) with (needle +:+ t).
    destruct (needle +:+ t) eqn:E.
    + destruct needle; [reflexivity | discriminate].
    + cbn [contains]. rewrite <- E, prefix_app_self. reflexivity.
  - change (String ch pre +:+ needle +:+ t) with (String ch (pre +:+ needle +:+ t)).
    cbn [contains]. rewrite IH. apply Bool.orb_true_r.
Qed.

(** X15. A search returns published articles only, never a deleted or an
    unpublished one; it returns every published article whose title or
    content holds the query as a substring up to ASCII case; the empty
    query returns every published article; and two queries that differ in
    case only return the same rows. *)
Theorem search_spec (query : string) (tbl : list Article) (row : Article) :
  (In row (PublishedArticleManager_search query tbl) ->
   In row tbl /\ is_deleted row = false /\ is_published (fields row) = true)
  /\ (In row (Article_published tbl) ->
      forall q pre post, lower q = lower query ->
        (title (fields row) = pre +:+ q +:+ post
         \/ content (fields row) = pre +:+ q +:+ post) ->
        In row (PublishedArticleManager_search query tbl))
  /\ PublishedArticleManager_search "" tbl = Article_published tbl
  /\ (forall query', lower query' = lower query ->
        PublishedArticleManager_search query' tbl
        = PublishedArticleManager_search query tbl).
Proof.
  unfold PublishedArticleManager_search. split; [|split; [|split]].
  - intros H. apply filter_In in H as [H _]. now apply Article_published_In.
  - intros Hin q pre post Hq Hsub. apply filter_In. split; [exact Hin|].
    unfold icontains. rewrite <- Hq. apply Bool.orb_true_iff.
    destruct Hsub as [-> | ->]; [left | right];
      rewrite !lower_app; apply contains_app.
  - unfold Article_published.
    rewrite <- (List.filter_ext_in (fun _ => true)).
    + induction (PublishedArticleManager_get_queryset tbl) as [|x l IH]; cbn;
        [reflexivity | now rewrite IH].
    + intros x _. unfold icontains. cbn [lower]. now rewrite contains_nil.
  - intros query' Hq. unfold icontains. now rewrite Hq.
Qed.

(** ** Titles stay distinct *)

Lemma Article_active_app (l1 l2 : list Article) :
  Article_active_objects (l1 ++ l2) = Article_active_objects l1 ++ Article_active_objects l2.
Proof.
  unfold Article_active_objects, ActiveObjectsManager_get_queryset, Manager_get_queryset.
  apply List.filter_app.
Qed.

(** X16. Creating articles through the serializer keeps titles distinct:
    if no two stored articles that are not deleted have the same title up
    to case, and [validate_title] accepts the title of a new article, then
    after the create no two stored articles that are not deleted have the
    same title up to case. *)
Theorem create_keeps_titles_distinct (slugify : string -> string) (now : Z) (user : User)
    (validated_data : ArticleData) (value : string) (tbl : list Article) (c : Cache) :
  data_title validated_data = Some value ->
  validate_title value None tbl = Ok value ->
  List.NoDup (active_titles tbl) ->
  let o := ArticleCreateUpdateSerializer_create slugify now user validated_data tbl c in
  List.NoDup (active_titles (out_table o))
  /\ In (lower value) (active_titles (out_table o)).
Proof.
  intros Hdata Hvalid Hnd. cbn zeta. unfold ArticleCreateUpdateSerializer_create.
  rewrite Hdata. cbn [default]. rewrite Article_save_defaults.
  set (self := mkModel None 0 0 false None _).
  rewrite Model_save_insert by (rewrite Article_defaults_pk; reflexivity).
  set (ins := out_self _).
  assert (Hins_del : is_deleted ins = false).
  { unfold ins, Model_save. rewrite Article_defaults_pk. cbn [pk self].
    rewrite send_post_save_self. cbn.
    now destruct (Article_defaults_mixins slugify self tbl) as (_ & _ & _ & -> & _). }
  assert (Hins_title : title (fields ins) = value).
  { unfold ins. rewrite Model_save_fields. unfold Article_defaults.
    destruct (str_empty (slug (fields self)));
      match goal with |- context [if ?b then _ else _] => destruct b end; reflexivity. }
  assert (Hact : active_titles (tbl ++ [ins]) = active_titles tbl ++ [lower value]).
  { unfold active_titles. rewrite Article_active_app, List.map_app. f_equal.
    unfold Article_active_objects, ActiveObjectsManager_get_queryset, Manager_get_queryset.
    cbn [List.filter]. rewrite Hins_del. cbn. now rewrite Hins_title. }
  rewrite Hact. split; [|apply in_or_app; right; now left].
  apply NoDup_app_remove_l with (l := []). cbn [app].
  apply Permutation_NoDup with (l := lower value :: active_titles tbl);
    [apply Permutation_cons_append|].
  constructor; [|exact Hnd].
  intros Hin. unfold active_titles in Hin. apply in_map_iff in Hin as (row & Heq & Hrow).
  apply Article_active_In in Hrow as [Hrow Hlive].
  unfold validate_title in Hvalid.
  destruct (Nat.ltb (String.length value) 3); [discriminate|].
  unfold Article_objects, Manager_get_queryset in Hvalid.
  destruct (exists_ _) eqn:E; [discriminate|].
  assert (exists_ (List.filter
            (fun row => iexact (title (fields row)) value && Bool.eqb (is_deleted row) false)
            tbl) = true); [|congruence].
  apply exists__iff. exists row. apply filter_In. split; [exact Hrow|].
  unfold iexact. rewrite Heq, String.eqb_refl, Hlive. reflexivity.
Qed.

Lemma create_keeps_titles_distinct_witness :
  let tbl := [article_fixture 1 "Hello World" "hello-world" true true;
              article_fixture 2 "Other" "other" true false] in
  let data := mkArticleData (Some "Hello World") (Some "0123456789") None None None None in
  let o := ArticleCreateUpdateSerializer_create django_slugify 7 (mkUser 1 "alice")
             data tbl live_cache in
  data_title data = Some "Hello World"
  /\ validate_title "Hello World" None tbl = Ok "Hello World"
  /\ List.NoDup (active_titles tbl)
  /\ List.NoDup (active_titles (out_table o)).
Proof.
  cbn zeta.
  assert (Hnd : List.NoDup (active_titles
            [article_fixture 1 "Hello World" "hello-world" true true;
             article_fixture 2 "Other" "other" true false])).
  { vm_compute. constructor; [intros [] | constructor]. }
  split; [reflexivity|]. split; [reflexivity|]. split; [exact Hnd|].
  exact (proj1 (create_keeps_titles_distinct django_slugify 7 (mkUser 1 "alice")
                  (mkArticleData (Some "Hello World") (Some "0123456789")
                     None None None None)
                  "Hello World"
                  [article_fixture 1 "Hello World" "hello-world" true true;
                   article_fixture 2 "Other" "other" true false]
                  live_cache eq_refl eq_refl Hnd)).
Defined.

(** ** Tags *)

Lemma split_cons sep ch rest :
  Ascii.eqb ch sep = false ->
  split sep (String ch rest)
  = match split sep rest with
    | piece :: pieces => String ch piece :: pieces
    | [] => [String ch EmptyString]
    end.
Proof. intros H. cbn [split]. now rewrite H. Qed.

Lemma split_sep sep rest : split sep (String sep rest) = "" :: split sep rest.
Proof. cbn [split]. now rewrite Ascii.eqb_refl. Qed.



Lemma split_pieces sep : forall s piece, In piece (split sep s) -> has_char sep piece = false.
Proof.
  induction s as [|ch s IH]; intros piece Hin.
  - destruct Hin as [<-|[]]. reflexivity.
  - destruct (Ascii.eqb ch sep) eqn:E.
    + apply Ascii.eqb_eq in E. subst ch. rewrite split_sep in Hin.
      destruct Hin as [<-|Hin]; [reflexivity | now apply IH].
    + rewrite split_cons in Hin by assumption.
      destruct (split sep s) as [|p ps] eqn:Es.
      * destruct Hin as [<-|[]]. cbn [has_char]. now rewrite E.
      * destruct Hin as [<-|Hin].
        -- cbn [has_char]. rewrite E. apply IH. now left.
        -- apply IH. now right.
Qed.


Lemma has_char_lstrip ch : forall s, has_char ch s = false -> has_char ch (lstrip_space s) = false.
Proof.
  induction s as [|c s IH]; intros H; [reflexivity|]. cbn [lstrip_space].
  destruct (is_space c); [|exact H].
  cbn [has_char] in H. apply Bool.orb_false_iff in H as [_ H]. now apply IH.
Qed.

Lemma has_char_rstrip ch : forall s, has_char ch s = false -> has_char ch (rstrip_space s) = false.
Proof.
  induction s as [|c s IH]; intros H; [reflexivity|]. cbn [rstrip_space].
  cbn [has_char] in H. apply Bool.orb_false_iff in H as [Hc H].
  destruct (is_space c && str_empty (rstrip_space s)); [reflexivity|].
  cbn [has_char]. rewrite Hc. now apply IH.
Qed.

Lemma rstrip_space_idem : forall s, rstrip_space (rstrip_space s) = rstrip_space s.
Proof.
  induction s as [|c s IH]; [reflexivity|]. cbn [rstrip_space].
  destruct (is_space c && str_empty (rstrip_space s)) eqn:E; [reflexivity|].
  cbn [rstrip_space]. now rewrite IH, E.
Qed.

Lemma lstrip_space_clean : forall s, starts_clean (lstrip_space s).
Proof.
  induction s as [|c s IH]; [exact I|]. cbn [lstrip_space].
  destruct (is_space c) eqn:E; [exact IH | exact E].
Qed.

Lemma lstrip_space_id s : starts_clean s -> lstrip_space s = s.
Proof. destruct s as [|c s]; [reflexivity|]. cbn. now intros ->. Qed.

Lemma rstrip_space_clean s : starts_clean s -> starts_clean (rstrip_space s).
Proof.
  destruct s as [|c s]; [exact (fun H => H)|]. cbn [starts_clean rstrip_space].
  intros H. rewrite H. cbn [andb starts_clean]. exact H.
Qed.

Lemma strip_idem s : strip (strip s) = strip s.
Proof.
  unfold strip.
  rewrite (lstrip_space_id (rstrip_space (lstrip_space s)))
    by (apply rstrip_space_clean, lstrip_space_clean).
  apply rstrip_space_idem.
Qed.

(** X17. The tags an article is rendered with are clean: every tag
    [get_tags_list] returns is trimmed, is not empty and holds no comma,
    whatever the stored text of the tags is. *)
Theorem get_tags_list_clean (obj : Article) (t : string) :
  In t (get_tags_list obj) -> clean_tag t.
Proof.
  unfold get_tags_list, clean_tag.
  destruct (str_empty (tags (fields obj))); [intros []|].
  intros H. apply in_map_iff in H as (tag & <- & H).
  apply filter_In in H as [Hin Hne]. apply Bool.negb_true_iff in Hne.
  split; [apply strip_idem|]. split.
  - intros Heq. rewrite Heq in Hne. discriminate.
  - unfold strip. apply has_char_rstrip, has_char_lstrip.
    now apply (split_pieces "," (tags (fields obj))).
Qed.

Lemma get_tags_list_clean_witness :
  let obj := mkModel (Some 1) 0 0 false None
               (mkArticleFields "Hello" "hello" "0123456789" "" (mkUser 1 "alice")
                  true 0 " rocq , ,proofs,,") in
  get_tags_list obj = ["rocq"; "proofs"]
  /\ In "proofs" (get_tags_list obj)
  /\ clean_tag "proofs".
Proof.
  cbn zeta. split; [reflexivity|].
  assert (Hin : In "proofs"
            (get_tags_list (mkModel (Some 1) 0 0 false None
               (mkArticleFields "Hello" "hello" "0123456789" "" (mkUser 1 "alice")
                  true 0 " rocq , ,proofs,,")))) by (right; now left).
  split; [exact Hin|].
  exact (get_tags_list_clean _ "proofs" Hin).
Defined.





(** ** Statistics *)

Lemma filter_length_all {A : Type} (f : A -> bool) (l : list A) :
  (length (List.filter f l) <= length l)%nat.
Proof. induction l as [|x l IH]; cbn; [lia|]. destruct (f x); cbn; lia. Qed.

(** X19. In the statistics the number of published articles is at most
    the number of articles that are not deleted, which is at most the
    number of stored articles; and the total of views counts published
    articles only: it is zero when none is published and, with view counts
    that are not negative, it is not negative and is at least the count of
    each published article. *)
Theorem statistics_spec (tbl : list Article) :
  (published_articles tbl <= total_articles tbl <= length tbl)%nat
  /\ (Article_published tbl = [] -> total_views tbl = 0)
  /\ ((forall row, In row tbl -> 0 <= views_count (fields row)) ->
      0 <= total_views tbl
      /\ forall row, In row (Article_published tbl) ->
           views_count (fields row) <= total_views tbl).
Proof.
  split; [|split].
  - unfold published_articles, total_articles, Article_published, Article_active_objects,
      PublishedArticleManager_get_queryset, ActiveObjectsManager_get_queryset,
      Manager_get_queryset.
    split; [|apply filter_length_all].
    apply filter_length_le. intros x H. now apply Bool.andb_true_iff in H as [_ H].
  - unfold total_views. now intros ->.
  - intros Hpos.
    assert (Hsum : forall rows : list Article,
              (forall row, In row rows -> 0 <= views_count (fields row)) ->
              0 <= fold_right (fun row acc => views_count (fields row) + acc) 0 rows
              /\ forall row, In row rows ->
                   views_count (fields row)
                   <= fold_right (fun row acc => views_count (fields row) + acc) 0 rows).
    { induction rows as [|r rows IH]; intros Hr; cbn [fold_right].
      - split; [lia | intros row []].
      - destruct IH as [IH0 IH1]; [intros row Hin; apply Hr; now right|].
        pose proof (Hr r (or_introl eq_refl)).
        split; [lia|]. intros row [<-|Hin]; [lia|]. specialize (IH1 row Hin). lia. }
    assert (Hpub : forall row, In row (Article_published tbl) ->
              0 <= views_count (fields row)).
    { intros row Hin. apply Hpos. now apply Article_published_In in Hin. }
    unfold total_views. destruct (Article_published tbl) as [|r rows] eqn:E.
    + split; [lia | intros row []].
    + now apply Hsum.
Qed.

(** ** The health check *)

(** X20. The health check answers 200 exactly when the database connects
    and the cache can be reached, and 503 otherwise, and never raises: a
    cache that cannot be reached is reported, not propagated.  On a cache
    that can be reached the check of the cache succeeds whatever was
    stored before, and it touches no entry but [health_check]. *)
Theorem health_check_spec (connected : bool) (c : Cache) :
  let r := HealthCheckView_get connected c in
  let status := fst (fst r) in
  let body := snd (fst r) in
  (status = 200%nat <-> connected = true /\ available c = true)
  /\ (status = 200%nat \/ status = 503%nat)
  /\ database_ok body = connected
  /\ cache_ok body = available c
  /\ (health body = "healthy" <-> status = 200%nat)
  /\ (forall key, key <> "health_check" -> entries (snd r) !! key = entries c !! key).
Proof.
  cbn zeta. unfold HealthCheckView_get, _check_cache, _check_database, cache_set, cache_get.
  destruct (available c) eqn:Hc; cbn [available entries].
  - rewrite lookup_insert_eq. rewrite bool_decide_eq_true_2 by reflexivity.
    destruct connected; cbn; repeat split; try tauto; try discriminate; try lia;
      try (intros [? ?]; discriminate); try (now left); try (now right);
      intros key Hne; now apply lookup_insert_ne.
  - destruct connected; cbn; repeat split; try tauto; try discriminate; try lia;
      try (intros [? ?]; discriminate); try (now left); try (now right).
Qed.

(** ** The admin's preview of a comment *)

(** X21. The preview of a comment in the admin list has at most 53
    characters, starts with the first 50 characters of the comment, and is
    the comment itself when the comment has at most 50 characters. *)
Theorem content_preview_spec (obj : Comment) :
  (String.length (content_preview obj) <= 53)%nat
  /\ slice_to 50 (content_preview obj) = slice_to 50 (comment_content (fields obj))
  /\ ((String.length (comment_content (fields obj)) <= 50)%nat ->
      content_preview obj = comment_content (fields obj)).
Proof.
  unfold content_preview.
  destruct (Nat.ltb 50 (String.length (comment_content (fields obj)))) eqn:Hlen.
  - apply Nat.ltb_lt in Hlen. split; [|split].
    + rewrite string_app_length, length_slice_to. cbn [String.length]. lia.
    + rewrite slice_to_app by (rewrite length_slice_to; lia). apply slice_to_idem.
    + lia.
  - apply Nat.ltb_ge in Hlen. split; [lia|]. split; reflexivity.
Qed.

(** ** Successive articles with the same normalized title *)

Lemma slug_exists_app tbl tbl' s :
  slugs tbl' = slugs tbl ++ [s] ->
  forall s', slug_exists tbl' s' = slug_exists tbl s' || String.eqb s s'.
Proof.
  intros Hs s'. destruct (slug_exists tbl' s') eqn:E.
  - apply slug_exists_iff in E. rewrite Hs in E. apply in_app_or in E as [E|[<-|[]]].
    + apply slug_exists_iff in E. now rewrite E.
    + rewrite String.eqb_refl. now rewrite Bool.orb_true_r.
  - symmetry. apply Bool.orb_false_iff. split.
    + apply Bool.not_true_iff_false. intros H. apply slug_exists_iff in H.
      apply Bool.not_true_iff_false in E. apply E, slug_exists_iff. rewrite Hs.
      apply in_or_app. now left.
    + apply String.eqb_neq. intros <-. apply Bool.not_true_iff_false in E.
      apply E, slug_exists_iff. rewrite Hs. apply in_or_app. right. now left.
Qed.

Lemma save_each_slugs slugify now base_slug : forall news n tbl c,
  Forall (fun a : Article => pk a = None /\ str_empty (slug (fields a)) = true
                             /\ slugify (title (fields a)) = base_slug) news ->
  (forall j, slug_exists tbl (candidate base_slug j) = true <-> (j < n)%nat) ->
  slugs (fst (save_each slugify now news tbl c))
  = slugs tbl ++ List.map (candidate base_slug) (seq n (length news)).
Proof.
  induction news as [|a news IH]; intros n tbl c Hall Hused; cbn [save_each length seq List.map].
  - cbn [fst]. now rewrite app_nil_r.
  - apply Forall_cons_iff in Hall as [(Hpk & Hempty & Hbase) Hall].
    set (o := Article_save slugify now None a tbl c).
    assert (Hslug : slug (fields (out_self o)) = candidate base_slug n).
    { unfold o. rewrite Article_save_defaults, Model_save_fields, Article_defaults_slug, Hempty.
      destruct (generate_unique_slug_first slugify a tbl) as (m & Hm & Hfree & Hbelow).
      rewrite Hbase in *. rewrite Hm. f_equal.
      destruct (Nat.lt_trichotomy m n) as [Hlt|[->|Hgt]]; [|reflexivity|].
      - apply Hused in Hlt. congruence.
      - specialize (Hbelow n Hgt). apply Hused in Hbelow. lia. }
    assert (Htable : slugs (out_table o) = slugs tbl ++ [candidate base_slug n]).
    { unfold o. rewrite Article_save_defaults.
      rewrite Model_save_insert by now rewrite Article_defaults_pk.
      unfold slugs. rewrite List.map_app. cbn [List.map]. f_equal. f_equal.
      rewrite <- Article_save_defaults. exact Hslug. }
    rewrite (IH (S n) (out_table o) (out_cache o) Hall).
    + rewrite Htable, <- app_assoc. reflexivity.
    + intros j. rewrite (slug_exists_app tbl (out_table o) _ Htable).
      rewrite Bool.orb_true_iff, Hused, String.eqb_eq. split.
      * intros [Hlt|Heq]; [lia|]. apply candidate_inj in Heq. lia.
      * intros Hlt. destruct (Nat.eq_dec j n) as [->|]; [now right | left; lia].
Qed.

(** X22. New articles whose titles have the same normalized form get the
    slugs in order: saved one after the other into a table that uses none
    of the slugs of that form, they are stored with the normalized title,
    then with the suffixes 1, 2, 3, ... in the order of the saves, and the
    stored slugs stay pairwise distinct. *)
Theorem successive_slugs (slugify : string -> string) (now : Z) (base_slug : string)
    (news : list Article) (tbl : list Article) (c : Cache) :
  Forall (fun a : Article => pk a = None /\ str_empty (slug (fields a)) = true
                             /\ slugify (title (fields a)) = base_slug) news ->
  (forall j, slug_exists tbl (candidate base_slug j) = false) ->
  slugs (fst (save_each slugify now news tbl c))
  = slugs tbl ++ List.map (candidate base_slug) (seq 0 (length news))
  /\ (List.NoDup (slugs tbl) ->
      List.NoDup (slugs (fst (save_each slugify now news tbl c)))).
Proof.
  intros Hall Hfree.
  assert (Hs : slugs (fst (save_each slugify now news tbl c))
               = slugs tbl ++ List.map (candidate base_slug) (seq 0 (length news))).
  { apply save_each_slugs; [exact Hall|]. intros j. rewrite Hfree. split; [discriminate | lia]. }
  split; [exact Hs|]. intros Hnd. rewrite Hs.
  apply NoDup_ListNoDup, NoDup_app. split; [|split].
  - now apply NoDup_ListNoDup.
  - intros s Hin Hin'. apply list_elem_of_In in Hin, Hin'.
    apply in_map_iff in Hin' as (j & <- & _).
    apply slug_exists_iff in Hin. rewrite Hfree in Hin. discriminate.
  - apply NoDup_ListNoDup, Finite.Injective_map_NoDup; [|apply seq_NoDup].
    intros j k. apply candidate_inj.
Qed.

Lemma successive_slugs_witness :
  let news := [new_article "Hello World!" "0123456789";
               new_article "Hello, World" "0123456789";
               new_article "hello world" "0123456789"] in
  Forall (fun a : Article => pk a = None /\ str_empty (slug (fields a)) = true
                             /\ django_slugify (title (fields a)) = "hello-world") news
  /\ (forall j, slug_exists [] (candidate "hello-world" j) = false)
  /\ slugs (fst (save_each django_slugify 7 news [] live_cache))
     = ["hello-world"; "hello-world-1"; "hello-world-2"].
Proof.
  cbn zeta.
  assert (Hall : Forall (fun a : Article => pk a = None /\ str_empty (slug (fields a)) = true
                   /\ django_slugify (title (fields a)) = "hello-world")
                   [new_article "Hello World!" "0123456789";
                    new_article "Hello, World" "0123456789";
                    new_article "hello world" "0123456789"]).
  { repeat constructor. }
  split; [exact Hall|]. split; [reflexivity|].
  exact (proj1 (successive_slugs django_slugify 7 "hello-world" _ [] live_cache
                  Hall (fun _ => eq_refl))).
Defined.
